(** * Daptin data-access and authorization core: a shallow embedding

    The development follows the Go sources:
    - [server/id/id.go], package [daptinid]: the 16-byte reference id;
    - [server/id/id.go], package [resource]: identity lookups, permission
      loading, the administrator bootstrap and the row loader;
    - [server/resource/action_generate_password_reset_verify_flow.go]:
      the [password.reset.verify] action performer.

    Go values of type [interface{}] are an inductive type, a failed type
    assertion or a nil dereference is a [Panic], the database and the
    distributed cache are an explicit state threaded through a small
    state-and-panic monad. *)

From Stdlib Require Import ZArith String Ascii List Lia Bool.
From Stdlib Require Import Strings.Byte Sorting.Sorted.
From stdpp Require Import base option list gmap strings pretty.

Set Warnings "-register-all".
Open Scope string_scope.
Open Scope Z_scope.
Open Scope list_scope.

(** ** Go runtime values *)

(** The dynamic values that travel through [map[string]interface{}] rows:
    SQL cells (NULL, integers, floats, text, timestamps) and the values the
    loader writes back (reference-id lists, embedded file objects).  A
    [float64] is kept as the dyadic rational [m * 2^e]. *)
Inductive value :=
| VNil
| VInt (z : Z)
| VFloat (m e : Z)
| VStr (s : string)
| VTime (t : Z)
| VStrs (l : list string)
| VMaps (l : list (gmap string value)).

Abbreviation Row := (gmap string value).

(** [m[k]] on a Go map: the zero value of [interface{}] is nil. *)
Definition index (m : Row) (k : string) : value := default VNil (m !! k).

Definition is_nil (v : value) : bool :=
  match v with VNil => true | _ => false end.

(** Go's [error]; nil is [None]. *)
Definition error := string.

(** A call either returns or panics (failed type assertion, nil map
    write, nil pointer dereference). *)
Inductive outcome (A : Type) :=
| Ok (a : A)
| Panic (msg : string).
Arguments Ok {A} a.
Arguments Panic {A} msg.

Definition returns {A} (o : outcome A) : Prop := exists a, o = Ok a.

(** [v.(string)] and [v.(int64)], the panicking forms. *)
Definition assert_string (v : value) : outcome string :=
  match v with
  | VStr s => Ok s
  | _ => Panic "interface conversion: interface {} is not string"
  end.

Definition assert_int64 (v : value) : outcome Z :=
  match v with
  | VInt z => Ok z
  | _ => Panic "interface conversion: interface {} is not int64"
  end.

(** ** Package daptinid: the reference identifier *)

Module DaptinId.

(** [type DaptinReferenceId [16]byte]: a byte list whose length is 16. *)
Definition DaptinReferenceId := list byte.

Definition well_sized (d : DaptinReferenceId) : Prop := length d = 16%nat.

(** [var NullReferenceId DaptinReferenceId], the zero array. *)
Definition NullReferenceId : DaptinReferenceId := repeat x00 16.

(** Go's builtin [copy(dst, src)]: overwrites the first
    [min(len dst, len src)] cells of [dst]. *)
Definition copy (dst src : list byte) : list byte :=
  let n := Nat.min (length dst) (length src) in
  take n src ++ drop n dst.

(** [func (d DaptinReferenceId) MarshalBinary() (data []byte, err error)] *)
Definition MarshalBinary (d : DaptinReferenceId) : list byte * option error :=
  (d, None).

(** [func (d *DaptinReferenceId) UnmarshalBinary(data []byte) error]:
    the receiver after the call, and the error. *)
Definition UnmarshalBinary (d : DaptinReferenceId) (data : list byte)
  : DaptinReferenceId * option error :=
  if negb (length data =? 16)%nat
  then (d, Some "invalid data length: expected exactly 16 bytes")
  else (copy d data, None).

End DaptinId.

(** ** Package auth: the permission bits *)

Module auth.

(** Modelled from the spec: the [auth] package is not part of the sources
    at hand; the bit layout is the one of the external-interfaces section
    ("bit 0 : GuestPeek ... bit 20 : GroupRefer"). *)
Definition AuthPermission := Z.

Definition GuestPeek : AuthPermission := Z.shiftl 1 0.
Definition GuestRead : AuthPermission := Z.shiftl 1 1.
Definition GuestCreate : AuthPermission := Z.shiftl 1 2.
Definition GuestUpdate : AuthPermission := Z.shiftl 1 3.
Definition GuestDelete : AuthPermission := Z.shiftl 1 4.
Definition GuestExecute : AuthPermission := Z.shiftl 1 5.
Definition GuestRefer : AuthPermission := Z.shiftl 1 6.
Definition UserPeek : AuthPermission := Z.shiftl 1 7.
Definition UserRead : AuthPermission := Z.shiftl 1 8.
Definition UserCreate : AuthPermission := Z.shiftl 1 9.
Definition UserUpdate : AuthPermission := Z.shiftl 1 10.
Definition UserDelete : AuthPermission := Z.shiftl 1 11.
Definition UserExecute : AuthPermission := Z.shiftl 1 12.
Definition UserRefer : AuthPermission := Z.shiftl 1 13.
Definition GroupPeek : AuthPermission := Z.shiftl 1 14.
Definition GroupRead : AuthPermission := Z.shiftl 1 15.
Definition GroupCreate : AuthPermission := Z.shiftl 1 16.
Definition GroupUpdate : AuthPermission := Z.shiftl 1 17.
Definition GroupDelete : AuthPermission := Z.shiftl 1 18.
Definition GroupExecute : AuthPermission := Z.shiftl 1 19.
Definition GroupRefer : AuthPermission := Z.shiftl 1 20.

(** Go's [a | b] on permissions. *)
Infix ".|" := Z.lor (at level 50, left associativity).

(** Modelled from the spec: "UserCRUD = UserRead|UserCreate|UserUpdate|UserDelete;
    similarly GroupCRUD". *)
Definition UserCRUD : AuthPermission := UserRead .| UserCreate .| UserUpdate .| UserDelete.
Definition GroupCRUD : AuthPermission := GroupRead .| GroupCreate .| GroupUpdate .| GroupDelete.

(** Modelled from the spec: "DEFAULT_PERMISSION = owner full + group read". *)
Definition DEFAULT_PERMISSION : AuthPermission :=
  UserPeek .| UserCRUD .| UserExecute .| UserRefer .| GroupRead.

(** [p & bit == bit] *)
Definition has (p bit : AuthPermission) : bool := Z.land p bit =? bit.

(** [auth.GroupPermission] *)
Record GroupPermission := {
  GroupReferenceId : string;
  ObjectReferenceId : string;
  RelationReferenceId : string;
  Permission : AuthPermission
}.

End auth.

Infix ".|" := Z.lor (at level 50, left associativity).

(** ** The permission instance and the access gate *)

(** [PermissionInstance]: owner reference (empty when there is none), the
    group memberships of the object and the object's own bits. *)
Record PermissionInstance := {
  UserId : string;
  UserGroupId : list auth.GroupPermission;
  Permission : auth.AuthPermission
}.

(** [var perm PermissionInstance], the zero value. *)
Definition zero_perm : PermissionInstance :=
  {| UserId := ""; UserGroupId := []; Permission := 0 |}.

(** Modelled from the spec: [CanExecute] lives in a file of the resource
    package that is not at hand.  The access gate "returns true iff the
    caller is the owner and the owner bits permit the capability, or the
    caller shares any group with p.groups and that group's bits permit it,
    or the guest bits permit it". *)
Definition allow (p : PermissionInstance) (userReferenceId : string)
    (userGroups : list auth.GroupPermission)
    (userBit groupBit guestBit : auth.AuthPermission) : bool :=
  (negb (String.eqb (UserId p) "") && String.eqb userReferenceId (UserId p)
     && auth.has (Permission p) userBit)
  || existsb (fun ug =>
        existsb (fun og =>
           String.eqb (auth.GroupReferenceId ug) (auth.GroupReferenceId og)
           && auth.has (auth.Permission og) groupBit) (UserGroupId p)) userGroups
  || auth.has (Permission p) guestBit.

Definition CanExecute (p : PermissionInstance) (userReferenceId : string)
    (userGroups : list auth.GroupPermission) : bool :=
  allow p userReferenceId userGroups auth.UserExecute auth.GroupExecute auth.GuestExecute.

(** ** The database and the distributed cache *)

(** What the code stores in the olric map: the values are dynamically
    typed and read back with a type assertion. *)
Inductive cached :=
| CString (s : string)
| CInt64 (z : Z)
| CPermission (p : PermissionInstance)
| CGroups (g : list auth.GroupPermission)
| CObject (r : Row).

(** [time.Duration] counts nanoseconds. *)
Definition Second : Z := 1000000000.
Definition Minute : Z := 60 * Second.
Definition Hour : Z := 60 * Minute.

(** A cache entry remembers the time-to-live it was put with. *)
Record entry := { e_value : cached; e_ttl : Z }.

(** A table: its declared columns and its rows in storage order.  A column
    missing from a row is NULL. *)
Record Table := { columns : list string; rows : list Row }.

(** ** The relational engine behind [Preparex], [Queryx] and [Exec]

    The statements are built with goqu and run by the SQL server; both are
    outside the repository.  The model keeps the statement as the tree the
    builder calls describe and gives it the usual meaning: nested-loop
    joins in storage order, a conjunction of conditions, a stable sort for
    ORDER BY and a prefix for LIMIT. *)

Module sql.

(** [goqu.I("t.c")] *)
Record ident := I { tbl : string; col : string }.

Inductive cond :=
| Eq (c : ident) (v : value)         (* goqu.Ex{c: v} *)
| In (c : ident) (vs : list value)   (* goqu.Ex{c: []int64{...}} *)
| Like (c : ident) (pat : string)    (* goqu.Op{"like": pat} *)
| NotLike (c : ident) (pat : string) (* goqu.Op{"notlike": pat} *)
| GteL (c : ident) (frag : string).  (* goqu.Op{"gte": goqu.L(frag)} *)

(** [Join(goqu.T(t).As(a), goqu.On(goqu.Ex{l: goqu.I(r)}))], or [LeftJoin]. *)
Record join := {
  j_left : bool;
  j_table : string;
  j_alias : string;
  j_on : ident * ident
}.

Record select := {
  s_cols : option (list (ident * string)); (* [None] is [*]; else column and output name *)
  s_from : string;
  s_alias : string;
  s_joins : list join;
  s_where : list cond;
  s_order : option (ident * bool);         (* [true] is [.Desc()] *)
  s_limit : option nat
}.

(** Numeric cells are compared as dyadic rationals. *)
Definition as_dyadic (v : value) : option (Z * Z) :=
  match v with
  | VInt z => Some (z, 0)
  | VTime t => Some (t, 0)
  | VFloat m e => Some (m, e)
  | _ => None
  end.

Definition dyadic_le (a b : Z * Z) : bool :=
  let e := Z.min a.2 b.2 in
  a.1 * 2 ^ (a.2 - e) <=? b.1 * 2 ^ (b.2 - e).

(** SQL [=]: NULL equals nothing. *)
Definition sql_eq (a b : value) : bool :=
  match a, b with
  | VStr x, VStr y => String.eqb x y
  | _, _ =>
      match as_dyadic a, as_dyadic b with
      | Some x, Some y => dyadic_le x y && dyadic_le y x
      | _, _ => false
      end
  end.

(** SQL [>=] on numbers. *)
Definition sql_ge (a b : value) : bool :=
  match as_dyadic a, as_dyadic b with
  | Some x, Some y => dyadic_le y x
  | _, _ => false
  end.

(** The order ORDER BY sorts with: NULLs, then numbers, then text. *)
Definition rank (v : value) : Z :=
  match v with
  | VNil => 0
  | VInt _ | VTime _ | VFloat _ _ => 1
  | VStr _ => 2
  | _ => 3
  end.

Definition order_le (a b : value) : bool :=
  if rank a <? rank b then true
  else if rank b <? rank a then false
  else match a, b with
       | VStr x, VStr y => String.leb x y
       | _, _ =>
           match as_dyadic a, as_dyadic b with
           | Some x, Some y => dyadic_le x y
           | _, _ => true
           end
       end.

(** LIKE patterns: [%] is any run of characters, [_] any one character. *)
Fixpoint like (pat : list ascii) : list ascii -> bool :=
  match pat with
  | [] => fun s => match s with [] => true | _ => false end
  | p :: pat' =>
      if Ascii.eqb p "%"
      then fix skip (s : list ascii) : bool :=
             like pat' s || match s with [] => false | _ :: s' => skip s' end
      else fun s =>
             match s with
             | [] => false
             | c :: s' => (Ascii.eqb p "_" || Ascii.eqb p c) && like pat' s'
             end
  end.

Definition sql_like (v : value) (pat : string) : bool :=
  match v with
  | VStr s => like (list_ascii_of_string pat) (list_ascii_of_string s)
  | _ => false
  end.

(** A stable insertion sort; [le x y] says [x] may stand before [y]. *)
Fixpoint insert_by {A} (le : A -> A -> bool) (x : A) (l : list A) : list A :=
  match l with
  | [] => [x]
  | y :: l' => if le x y then x :: y :: l' else y :: insert_by le x l'
  end.

Definition sort_by {A} (le : A -> A -> bool) (l : list A) : list A :=
  foldr (insert_by le) [] l.

(** One candidate of the FROM/JOIN product: a row per alias. *)
Definition env := list (string * Row).

Fixpoint assoc {A} (l : list (string * A)) (k : string) : option A :=
  match l with
  | [] => None
  | (k', a) :: l' => if String.eqb k k' then Some a else assoc l' k
  end.

Definition cell (e : env) (c : ident) : value :=
  match assoc e (tbl c) with
  | Some r => index r (col c)
  | None => VNil
  end.

Definition cond_ident (c : cond) : ident :=
  match c with
  | Eq c _ | In c _ | Like c _ | NotLike c _ | GteL c _ => c
  end.

(** [lit frag n] is what the server computes for the raw fragment [frag]
    at the [n]-th candidate row (a fragment may call the server's random
    function). *)
Definition holds (lit : string -> nat -> value) (n : nat) (e : env) (c : cond) : bool :=
  match c with
  | Eq c VNil => is_nil (cell e c)   (* goqu renders a nil value as IS NULL *)
  | Eq c v => sql_eq (cell e c) v
  | In c vs => existsb (sql_eq (cell e c)) vs
  | Like c pat => sql_like (cell e c) pat
  | NotLike c pat =>
      match cell e c with
      | VStr _ => negb (sql_like (cell e c) pat)
      | _ => false
      end
  | GteL c frag => sql_ge (cell e c) (lit frag n)
  end.

Definition join_step (db : gmap string Table) (envs : list env) (j : join) : list env :=
  let rs := match db !! j_table j with Some t => rows t | None => [] end in
  flat_map (fun e =>
    let matching := List.filter (fun r =>
        let e' := e ++ [(j_alias j, r)] in
        sql_eq (cell e' (j_on j).1) (cell e' (j_on j).2)) rs in
    match matching with
    | [] => if j_left j then [e ++ [(j_alias j, ∅)]] else []
    | _ => map (fun r => e ++ [(j_alias j, r)]) matching
    end) envs.

(** Preparing a statement fails on an unknown table or column. *)
Definition scope := list (string * Table).

Fixpoint open_joins (db : gmap string Table) (js : list join) : option scope :=
  match js with
  | [] => Some []
  | j :: js' =>
      match db !! j_table j, open_joins db js' with
      | Some t, Some sc => Some ((j_alias j, t) :: sc)
      | _, _ => None
      end
  end.

Definition open_scope (db : gmap string Table) (q : select) : option scope :=
  match db !! s_from q, open_joins db (s_joins q) with
  | Some t, Some sc => Some ((s_alias q, t) :: sc)
  | _, _ => None
  end.

Definition resolves (sc : scope) (c : ident) : bool :=
  match assoc sc (tbl c) with
  | Some t => bool_decide (col c ∈ columns t)
  | None => false
  end.

Definition idents (q : select) : list ident :=
  match s_cols q with Some cs => map fst cs | None => [] end
  ++ flat_map (fun j => [(j_on j).1; (j_on j).2]) (s_joins q)
  ++ map cond_ident (s_where q)
  ++ match s_order q with Some (c, _) => [c] | None => [] end.

Definition prepare (db : gmap string Table) (q : select) : option scope :=
  match open_scope db q with
  | Some sc => if forallb (resolves sc) (idents q) then Some sc else None
  | None => None
  end.

(** The row of a [SELECT *]: every declared column, NULL included. *)
Definition star (t : Table) (r : Row) : Row :=
  list_to_map (map (fun c => (c, index r c)) (columns t)).

Definition project (sc : scope) (q : select) (e : env) : Row :=
  match s_cols q with
  | None =>
      match assoc sc (s_alias q), assoc e (s_alias q) with
      | Some t, Some r => star t r
      | _, _ => ∅
      end
  | Some cs => list_to_map (map (fun '(c, name) => (name, cell e c)) cs)
  end.

Definition ordered (q : select) (envs : list env) : list env :=
  match s_order q with
  | Some (c, true) => sort_by (fun x y => order_le (cell y c) (cell x c)) envs
  | Some (c, false) => sort_by (fun x y => order_le (cell x c) (cell y c)) envs
  | None => envs
  end.

Definition limited (q : select) (envs : list env) : list env :=
  match s_limit q with
  | Some n => take n envs
  | None => envs
  end.

Definition candidates (lit : string -> nat -> value) (db : gmap string Table)
    (q : select) (t : Table) : list env :=
  let product := foldl (join_step db) (map (fun r => [(s_alias q, r)]) (rows t)) (s_joins q) in
  let numbered := imap (fun n e => (n, e)) product in
  map snd (List.filter (fun ne => forallb (holds lit ne.1 ne.2) (s_where q)) numbered).

(** [stmt.Queryx(args...)] after [Preparex]: [None] is the prepare error. *)
Definition exec_select (lit : string -> nat -> value) (db : gmap string Table)
    (q : select) : option (list Row) :=
  match prepare db q, db !! s_from q with
  | Some sc, Some t =>
      Some (map (project sc q) (limited q (ordered q (candidates lit db q t))))
  | _, _ => None
  end.

(** Statements without raw fragments. *)
Definition no_literal : string -> nat -> value := fun _ _ => VNil.

Definition query (db : gmap string Table) (q : select) : option (list Row) :=
  exec_select no_literal db q.

(** [Update(t).Set(goqu.Record{...}).Where(...)] through [Exec]. *)
Definition exec_update (db : gmap string Table) (t : string)
    (sets : list (string * value)) (conds : list cond) : option (gmap string Table) :=
  match db !! t with
  | Some tab =>
      if forallb (fun c => bool_decide (c ∈ columns tab))
           (map fst sets ++ map (fun c => col (cond_ident c)) conds)
      then
        let upd (r : Row) : Row :=
          if forallb (holds no_literal 0%nat [(t, r)]) conds
          then foldl (fun r' cv => <[cv.1 := cv.2]> r') r sets
          else r in
        Some (<[t := {| columns := columns tab; rows := map upd (rows tab) |}]> db)
      else None
  | None => None
  end.

(** [Insert(t).Cols(...).Vals(...)] through [Exec]; the row is stored with
    the cells the statement gives. *)
Definition exec_insert (db : gmap string Table) (t : string)
    (cells : list (string * value)) : option (gmap string Table) :=
  match db !! t with
  | Some tab =>
      if forallb (fun c => bool_decide (c ∈ columns tab)) (map fst cells)
      then Some (<[t := {| columns := columns tab;
                           rows := rows tab ++ [list_to_map cells] |}]> db)
      else None
  | None => None
  end.

End sql.

(** ** The state the resource methods act on *)

(** The database behind [dbResource.Connection] (a transaction handle sees
    the same tables: the model takes the view after the caller's commit),
    the package variable [OlricCache] ([None] is the nil pointer) and the
    SELECT statements sent to the server so far, oldest first. *)
Record State := {
  Connection : gmap string Table;
  OlricCache : option (gmap string entry);
  Queried : list sql.select
}.

Definition set_Connection (st : State) (db : gmap string Table) : State :=
  {| Connection := db; OlricCache := OlricCache st; Queried := Queried st |}.

Definition set_OlricCache (st : State) (c : option (gmap string entry)) : State :=
  {| Connection := Connection st; OlricCache := c; Queried := Queried st |}.

(** State and panic. *)
Definition M (A : Type) : Type := State -> outcome (A * State).

#[global] Instance M_ret : MRet M := fun A a st => Ok (a, st).
#[global] Instance M_bind : MBind M := fun A B f m st =>
  match m st with
  | Ok (a, st') => f a st'
  | Panic msg => Panic msg
  end.

Definition get_state : M State := fun st => Ok (st, st).
Definition put_state (st : State) : M unit := fun _ => Ok (tt, st).
Definition panic {A} (msg : string) : M A := fun _ => Panic msg.
Definition lift {A} (o : outcome A) : M A := fun st =>
  match o with Ok a => Ok (a, st) | Panic msg => Panic msg end.

(** [olric.DMap.Get]: the error is "key not found". *)
Definition OlricCache_Get (c : gmap string entry) (k : string) : option cached :=
  e_value <$> c !! k.

(** [olric.DMap.PutIfEx(k, v, ttl, olric.IfNotFound)]: stores only under an
    absent key, otherwise reports "key found" and changes nothing. *)
Definition OlricCache_PutIfEx (c : gmap string entry) (k : string) (v : cached) (ttl : Z)
  : gmap string entry * option error :=
  match c !! k with
  | Some _ => (c, Some "key found")
  | None => (<[k := {| e_value := v; e_ttl := ttl |}]> c, None)
  end.

(** [if OlricCache != nil { v, err := OlricCache.Get(k) ... }]: [None] when
    the handle is nil or the key is absent. *)
Definition cache_lookup (k : string) : M (option cached) :=
  st ← get_state;
  mret (match OlricCache st with
        | Some c => OlricCache_Get c k
        | None => None
        end).

(** [if OlricCache != nil { err = OlricCache.PutIfEx(k, v, ttl, olric.IfNotFound);
    CheckErr(err, ...) }]; the error of the put is returned for the one
    caller that keeps it. *)
Definition cache_store (k : string) (v : cached) (ttl : Z) : M (option error) :=
  st ← get_state;
  match OlricCache st with
  | Some c =>
      let '(c', err) := OlricCache_PutIfEx c k v ttl in
      _ ← put_state (set_OlricCache st (Some c'));
      mret err
  | None => mret None
  end.

(** [Preparex] and [Queryx]: the statement is recorded and run; [None] is
    the error of the prepare. *)
Definition Queryx_with (lit : string -> nat -> value) (q : sql.select) : M (option (list Row)) :=
  fun st =>
    Ok (sql.exec_select lit (Connection st) q,
        {| Connection := Connection st; OlricCache := OlricCache st;
           Queried := Queried st ++ [q] |}).

Definition Queryx (q : sql.select) : M (option (list Row)) := Queryx_with sql.no_literal q.

(** ** Package resource: identity lookups *)

(** [Select(c).From(t).Where(goqu.Ex{k: v})] *)
Definition select_where (t : string) (cs : list string) (k : string) (v : value) : sql.select :=
  {| sql.s_cols := Some (map (fun c => (sql.I t c, c)) cs);
     sql.s_from := t; sql.s_alias := t; sql.s_joins := [];
     sql.s_where := [sql.Eq (sql.I t k) v];
     sql.s_order := None; sql.s_limit := None |}.

(** [Scan] into a [*string] or an [*int64].  A cell scans into a
    destination of its own kind: reference ids are text cells, ids are
    integer cells; the driver's conversions between kinds are not
    modelled.  A failed scan leaves the destination at its zero value. *)
Definition scan_string (v : value) : string * option error :=
  match v with
  | VStr s => (s, None)
  | _ => ("", Some "sql: Scan error: unsupported conversion")
  end.

Definition scan_int64 (v : value) : Z * option error :=
  match v with
  | VInt z => (z, None)
  | _ => (0, Some "sql: Scan error: unsupported conversion")
  end.

(** [stmt.QueryRowx(q...).Scan(&dst)]: the first row, or [sql.ErrNoRows]. *)
Definition scan_first {A} (scan : value -> A * option error) (zero : A)
    (c : string) (rs : list Row) : A * option error :=
  match rs with
  | [] => (zero, Some "sql: no rows in result set")
  | r :: _ => scan (index r c)
  end.

(** [v.(string)], [v.(int64)] on what the cache gave back. *)
Definition cached_string (v : cached) : outcome string :=
  match v with
  | CString s => Ok s
  | _ => Panic "interface conversion: interface {} is not string"
  end.

Definition cached_int64 (v : cached) : outcome Z :=
  match v with
  | CInt64 z => Ok z
  | _ => Panic "interface conversion: interface {} is not int64"
  end.

(** [fmt.Sprintf("itr-%v-%v", typeName, id)] *)
Definition itr_key (typeName : string) (id : Z) : string :=
  "itr-" +:+ typeName +:+ "-" +:+ pretty id.

(** [fmt.Sprintf("riti-%v-%v", typeName, referenceId)] *)
Definition riti_key (typeName referenceId : string) : string :=
  "riti-" +:+ typeName +:+ "-" +:+ referenceId.

(** [func (dbResource *DbResource) GetIdToReferenceId(typeName string, id int64) (string, error)] *)
Definition GetIdToReferenceId (typeName : string) (id : Z) : M (string * option error) :=
  let k := itr_key typeName id in
  hit ← cache_lookup k;
  match hit with
  | Some v => s ← lift (cached_string v); mret (s, None)
  | None =>
      rs ← Queryx (select_where typeName ["reference_id"] "id" (VInt id));
      match rs with
      | None => mret ("", Some "failed to prepare statement")
      | Some rs =>
          let '(str, err) := scan_first scan_string "" "reference_id" rs in
          _ ← cache_store k (CString str) (1 * Minute);
          mret (str, err)
      end
  end.

(** [func GetIdToReferenceIdWithTransaction(typeName string, id int64, transaction *sqlx.Tx) (string, error)];
    here the error of the put replaces the error of the scan. *)
Definition GetIdToReferenceIdWithTransaction (typeName : string) (id : Z)
  : M (string * option error) :=
  let k := itr_key typeName id in
  hit ← cache_lookup k;
  match hit with
  | Some v => s ← lift (cached_string v); mret (s, None)
  | None =>
      rs ← Queryx (select_where typeName ["reference_id"] "id" (VInt id));
      match rs with
      | None => mret ("", Some "failed to prepare statement")
      | Some rs =>
          let '(str, err) := scan_first scan_string "" "reference_id" rs in
          st ← get_state;
          match OlricCache st with
          | Some _ =>
              err' ← cache_store k (CString str) (5 * Minute);
              mret (str, err')
          | None => mret (str, err)
          end
      end
  end.

(** [func (dbResource *DbResource) GetReferenceIdToId(typeName string, referenceId string) (int64, error)] *)
Definition GetReferenceIdToId (typeName referenceId : string) : M (Z * option error) :=
  let cacheKey := riti_key typeName referenceId in
  hit ← cache_lookup cacheKey;
  match hit with
  | Some v => z ← lift (cached_int64 v); mret (z, None)
  | None =>
      rs ← Queryx (select_where typeName ["id"] "reference_id" (VStr referenceId));
      match rs with
      | None => mret (0, Some "failed to prepare statement")
      | Some rs =>
          let '(id, err) := scan_first scan_int64 0 "id" rs in
          _ ← cache_store cacheKey (CInt64 id) (5 * Minute);
          mret (id, err)
      end
  end.

(** [func GetReferenceIdToIdWithTransaction(typeName string, referenceId string, updateTransaction *sqlx.Tx) (int64, error)].
    The guard [cachedValue != nil && cachedValue != 0] compares an
    [interface{}] with the untyped constant [0], an [int]: no value the
    cache holds equals it, so the guard passes on every hit.  The put
    happens only after a successful scan. *)
Definition GetReferenceIdToIdWithTransaction (typeName referenceId : string)
  : M (Z * option error) :=
  let cacheKey := riti_key typeName referenceId in
  hit ← cache_lookup cacheKey;
  match hit with
  | Some v => z ← lift (cached_int64 v); mret (z, None)
  | None =>
      rs ← Queryx (select_where typeName ["id"] "reference_id" (VStr referenceId));
      match rs with
      | None => mret (0, Some "failed to prepare statement")
      | Some rs =>
          let '(id, err) := scan_first scan_int64 0 "id" rs in
          _ ← match err with
              | None => cache_store cacheKey (CInt64 id) (1 * Hour)
              | Some _ => mret None
              end;
          mret (id, err)
      end
  end.

(** ** Table descriptors *)

(** [api2go.TableRelation].  Modelled from the spec: the accessors are in
    the api2go fork; "Sc and Oc default to <type>_id when not otherwise
    specified" and the join table is "<S>_<Sc>_has_<O>_<Oc>". *)
Record TableRelation := {
  Subject : string;
  Object : string;
  Relation : string;
  SubjectName : string;
  ObjectName : string
}.

Definition GetSubject (r : TableRelation) : string := Subject r.
Definition GetObject (r : TableRelation) : string := Object r.

Definition GetSubjectName (r : TableRelation) : string :=
  if String.eqb (SubjectName r) "" then Subject r +:+ "_id" else SubjectName r.

Definition GetObjectName (r : TableRelation) : string :=
  if String.eqb (ObjectName r) "" then Object r +:+ "_id" else ObjectName r.

Definition GetJoinTableName (r : TableRelation) : string :=
  Subject r +:+ "_" +:+ GetSubjectName r +:+ "_has_" +:+ Object r +:+ "_" +:+ GetObjectName r.

(** [api2go.ForeignKeyData] and [api2go.ColumnInfo], the fields the loader reads. *)
Record ForeignKeyData := {
  DataSource : string;
  Namespace : string
}.

Record ColumnInfo := {
  ColumnName : string;
  ColumnType : string;
  IsForeignKey : bool;
  ForeignKey : ForeignKeyData
}.

(** What [dbResource.model] and [dbResource.tableInfo] say about one table
    (the two fields describe the same table and are kept as one record). *)
Record TableInfo := {
  TableName : string;
  Columns : list ColumnInfo;
  Relations : list TableRelation;
  DefaultPermission : auth.AuthPermission
}.

Definition GetName (m : TableInfo) : string := TableName m.

Definition HasColumn (m : TableInfo) (c : string) : bool :=
  existsb (fun ci => String.eqb (ColumnName ci) c) (Columns m).

(** [model.GetColumnMap()]: the columns by name. *)
Definition GetColumnMap (m : TableInfo) : gmap string ColumnInfo :=
  list_to_map (map (fun ci => (ColumnName ci, ci)) (Columns m)).

(** Modelled from the spec: [HasMany] is an api2go accessor; the type
    "declares HasMany(usergroup)" when one of its relations is a to-many
    relation between the type and the named one. *)
Definition HasMany (m : TableInfo) (other : string) : bool :=
  existsb (fun r =>
    (String.eqb (Relation r) "has_many" || String.eqb (Relation r) "has_many_and_belongs_to_many")
    && ((String.eqb (Subject r) (TableName m) && String.eqb (Object r) other)
        || (String.eqb (Object r) (TableName m) && String.eqb (Subject r) other)))
    (Relations m).

(** [*DbResource]: the resource of one table.  All resources share the
    [Cruds] map; [OlricDb] is what [dbResource.OlricDb.NewDMap("default-cache")]
    gives ([None]: the call fails and the handle stays nil);
    [AssetFolderCache] maps table and column to the local sync path. *)
Record DbResource := {
  tableInfo : TableInfo;
  Cruds : gmap string TableInfo;
  OlricDb : option (gmap string entry);
  AssetFolderCache : gmap string (gmap string string)
}.

(** [dbResource.Cruds[name]], a pointer: nil when the name is unknown. *)
Definition crud (d : DbResource) (name : string) : option DbResource :=
  (fun ti => {| tableInfo := ti; Cruds := Cruds d; OlricDb := OlricDb d;
                AssetFolderCache := AssetFolderCache d |}) <$> Cruds d !! name.

(** [dbResource.Cruds[name].model]: dereferences the pointer. *)
Definition crud_model (d : DbResource) (name : string) : outcome TableInfo :=
  match Cruds d !! name with
  | Some ti => Ok ti
  | None => Panic "invalid memory address or nil pointer dereference"
  end.

(** The two names every table shares (constants of the resource package). *)
Definition USER_ACCOUNT_TABLE_NAME : string := "user_account".
Definition USER_ACCOUNT_ID_COLUMN : string := "user_account_id".

(** ** Group memberships of an object *)

(** [res.StructScan(&g)] into an [auth.GroupPermission]: the columns are
    scanned in order and the first failure stops the scan. *)
Definition StructScan_GroupPermission (r : Row) : auth.GroupPermission :=
  let g := scan_string (index r "groupreferenceid") in
  let rel := scan_string (index r "relationreferenceid") in
  let p := scan_int64 (index r "permission") in
  match g.2, rel.2 with
  | Some _, _ =>
      {| auth.GroupReferenceId := ""; auth.ObjectReferenceId := "";
         auth.RelationReferenceId := ""; auth.Permission := 0 |}
  | None, Some _ =>
      {| auth.GroupReferenceId := g.1; auth.ObjectReferenceId := "";
         auth.RelationReferenceId := ""; auth.Permission := 0 |}
  | None, None =>
      {| auth.GroupReferenceId := g.1; auth.ObjectReferenceId := "";
         auth.RelationReferenceId := rel.1; auth.Permission := p.1 |}
  end.

Definition with_object (refId : string) (g : auth.GroupPermission) : auth.GroupPermission :=
  {| auth.GroupReferenceId := auth.GroupReferenceId g;
     auth.ObjectReferenceId := refId;
     auth.RelationReferenceId := auth.RelationReferenceId g;
     auth.Permission := auth.Permission g |}.

(** The membership query of [GetObjectGroupsByObjectId]:
    [usergroup AS ug JOIN <t>_<t>_id_has_usergroup_usergroup_id AS uug
     ON uug.usergroup_id = ug.id WHERE uug.<t>_id = objectId]. *)
Definition object_groups_query (objType : string) (objectId : Z) : sql.select :=
  {| sql.s_cols := Some [(sql.I "ug" "reference_id", "groupreferenceid");
                         (sql.I "uug" "reference_id", "relationreferenceid");
                         (sql.I "uug" "permission", "permission")];
     sql.s_from := "usergroup"; sql.s_alias := "ug";
     sql.s_joins := [{| sql.j_left := false;
                        sql.j_table := objType +:+ "_" +:+ objType +:+ "_id_has_usergroup_usergroup_id";
                        sql.j_alias := "uug";
                        sql.j_on := (sql.I "uug" "usergroup_id", sql.I "ug" "id") |}];
     sql.s_where := [sql.Eq (sql.I "uug" (objType +:+ "_id")) (VInt objectId)];
     sql.s_order := None; sql.s_limit := None |}.

Definition self_group (refId : string) (p : auth.AuthPermission) : auth.GroupPermission :=
  {| auth.GroupReferenceId := refId; auth.ObjectReferenceId := refId;
     auth.RelationReferenceId := refId; auth.Permission := p |}.

(** [func (dbResource *DbResource) GetObjectGroupsByObjectId(objType string, objectId int64) []auth.GroupPermission] *)
Definition GetObjectGroupsByObjectId (d : DbResource) (objType : string) (objectId : Z)
  : M (list auth.GroupPermission) :=
  '(refId, err) ← GetIdToReferenceId objType objectId;
  if String.eqb objType "usergroup" then
    match err with
    | Some _ => mret []
    | None =>
        ug ← lift (crud_model d "usergroup");
        mret [self_group refId (DefaultPermission ug)]
    end
  else
    rs ← Queryx (object_groups_query objType objectId);
    match rs with
    | None => mret []
    | Some rs => mret (map (fun r => with_object refId (StructScan_GroupPermission r)) rs)
    end.

Definition cached_groups (v : cached) : outcome (list auth.GroupPermission) :=
  match v with
  | CGroups g => Ok g
  | _ => Panic "interface conversion: interface {} is not []auth.GroupPermission"
  end.

(** [func GetObjectGroupsByObjectIdWithTransaction(objectType string, objectId int64, transaction *sqlx.Tx) []auth.GroupPermission] *)
Definition GetObjectGroupsByObjectIdWithTransaction (objectType : string) (objectId : Z)
  : M (list auth.GroupPermission) :=
  let cacheKey := "object-groups-" +:+ objectType +:+ "-" +:+ pretty objectId in
  hit ← cache_lookup cacheKey;
  match hit with
  | Some v => lift (cached_groups v)
  | None =>
      '(refId, err) ← GetIdToReferenceIdWithTransaction objectType objectId;
      if String.eqb objectType "usergroup" then
        match err with
        | Some _ => mret []
        | None => mret [self_group refId auth.DEFAULT_PERMISSION]
        end
      else
        rs ← Queryx (object_groups_query objectType objectId);
        match rs with
        | None => mret []
        | Some rs =>
            let s := map (fun r => with_object refId (StructScan_GroupPermission r)) rs in
            _ ← cache_store cacheKey (CGroups s) (30 * Second);
            mret s
        end
  end.

(** ** Permission of an object found by a where clause *)

Definition cached_permission (v : cached) : outcome PermissionInstance :=
  match v with
  | CPermission p => Ok p
  | _ => Panic "interface conversion: interface {} is not resource.PermissionInstance"
  end.

(** [if OlricCache == nil { OlricCache, _ = dbResource.OlricDb.NewDMap("default-cache") }] *)
Definition ensure_cache (d : DbResource) : M unit :=
  st ← get_state;
  match OlricCache st with
  | Some _ => mret tt
  | None => put_state (set_OlricCache st (OlricDb d))
  end.

(** [func (dbResource *DbResource) GetObjectPermissionByWhereClause(objectType string, colName string, colValue string) PermissionInstance] *)
Definition GetObjectPermissionByWhereClause (d : DbResource)
    (objectType colName colValue : string) : M PermissionInstance :=
  _ ← ensure_cache d;
  let cacheKey := objectType +:+ "_" +:+ colName +:+ "_" +:+ colValue in
  hit ← cache_lookup cacheKey;
  match hit with
  | Some v => lift (cached_permission v)
  | None =>
      rs ← Queryx
              (select_where objectType [USER_ACCOUNT_ID_COLUMN; "permission"; "id"]
                 colName (VStr colValue));
      match rs with
      | None => mret zero_perm
      | Some [] => mret zero_perm
      | Some (m :: _) =>
          owner ← (if is_nil (index m "user_account_id") then mret ""
                   else
                     uid ← lift (assert_int64 (index m USER_ACCOUNT_ID_COLUMN));
                     '(user, err) ← GetIdToReferenceId USER_ACCOUNT_TABLE_NAME uid;
                     mret (match err with None => user | Some _ => "" end));
          id ← lift (assert_int64 (index m "id"));
          gs ← GetObjectGroupsByObjectId d objectType id;
          p ← lift (assert_int64 (index m "permission"));
          let perm := {| UserId := owner; UserGroupId := gs; Permission := p |} in
          _ ← cache_store cacheKey (CPermission perm) (10 * Second);
          mret perm
      end
  end.

(** [func (dbResource *DbResource) GetObjectPermissionByWhereClauseWithTransaction(objectType string, colName string, colValue string, transaction *sqlx.Tx) PermissionInstance] *)
Definition GetObjectPermissionByWhereClauseWithTransaction (d : DbResource)
    (objectType colName colValue : string) : M PermissionInstance :=
  _ ← ensure_cache d;
  let cacheKey := "object-permission-" +:+ objectType +:+ "_" +:+ colName +:+ "_" +:+ colValue in
  hit ← cache_lookup cacheKey;
  match hit with
  | Some v => lift (cached_permission v)
  | None =>
      rs ← Queryx
              (select_where objectType [USER_ACCOUNT_ID_COLUMN; "permission"; "id"]
                 colName (VStr colValue));
      match rs with
      | None => mret zero_perm
      | Some [] => mret zero_perm
      | Some (m :: _) =>
          owner ← (if is_nil (index m "user_account_id") then mret ""
                   else
                     uid ← lift (assert_int64 (index m USER_ACCOUNT_ID_COLUMN));
                     '(user, err) ← GetIdToReferenceIdWithTransaction USER_ACCOUNT_TABLE_NAME uid;
                     mret (match err with None => user | Some _ => "" end));
          id ← lift (assert_int64 (index m "id"));
          gs ← GetObjectGroupsByObjectIdWithTransaction objectType id;
          p ← lift (assert_int64 (index m "permission"));
          let perm := {| UserId := owner; UserGroupId := gs; Permission := p |} in
          _ ← cache_store cacheKey (CPermission perm) (10 * Minute);
          mret perm
      end
  end.

(** ** Action authorisation *)

(** [func (dbResource *DbResource) IsUserActionAllowed(userReferenceId string, userGroups []auth.GroupPermission, typeName string, actionName string) bool] *)
Definition IsUserActionAllowed (d : DbResource) (userReferenceId : string)
    (userGroups : list auth.GroupPermission) (typeName actionName : string) : M bool :=
  permission ← GetObjectPermissionByWhereClause d "world" "table_name" typeName;
  actionPermission ← GetObjectPermissionByWhereClause d "action" "action_name" actionName;
  let canExecuteOnType := CanExecute permission userReferenceId userGroups in
  let canExecuteAction := CanExecute actionPermission userReferenceId userGroups in
  mret (canExecuteOnType && canExecuteAction).

(** [func (dbResource *DbResource) IsUserActionAllowedWithTransaction(...) bool] *)
Definition IsUserActionAllowedWithTransaction (d : DbResource) (userReferenceId : string)
    (userGroups : list auth.GroupPermission) (typeName actionName : string) : M bool :=
  permission ← GetObjectPermissionByWhereClauseWithTransaction d "world" "table_name" typeName;
  actionPermission ← GetObjectPermissionByWhereClauseWithTransaction d "action" "action_name" actionName;
  let canExecuteOnType := CanExecute permission userReferenceId userGroups in
  let canExecuteAction := CanExecute actionPermission userReferenceId userGroups in
  mret (canExecuteOnType && canExecuteAction).

(** ** The administrator bootstrap *)

Definition USER_USERGROUP_LINK : string :=
  "user_account_user_account_id_has_usergroup_usergroup_id".

(** Modelled from the spec: [GetAdminReferenceId] is in a file of the
    resource package that is not at hand.  "canBecomeAdmin() returns true
    iff no row exists in administrators's membership table": the rows of
    the user-to-group link table whose group is named [administrators]. *)
Definition administrators_query : sql.select :=
  {| sql.s_cols := Some [(sql.I "uu" USER_ACCOUNT_ID_COLUMN, USER_ACCOUNT_ID_COLUMN)];
     sql.s_from := USER_USERGROUP_LINK; sql.s_alias := "uu";
     sql.s_joins := [{| sql.j_left := false; sql.j_table := "usergroup";
                        sql.j_alias := "g";
                        sql.j_on := (sql.I "uu" "usergroup_id", sql.I "g" "id") |}];
     sql.s_where := [sql.Eq (sql.I "g" "name") (VStr "administrators")];
     sql.s_order := None; sql.s_limit := None |}.

Definition GetAdminReferenceId : M (list Row) :=
  rs ← Queryx administrators_query;
  mret (default [] rs).

(** [func (dbResource *DbResource) CanBecomeAdmin() bool] *)
Definition CanBecomeAdmin : M bool :=
  adminRefId ← GetAdminReferenceId;
  match adminRefId with
  | [] => mret true
  | _ => mret false
  end.

(** [res.Scan(&id)] with [var id uint64]. *)
Definition scan_uint64 (v : value) : Z * option error :=
  match v with
  | VInt z => if (0 <=? z) && (z <? 2 ^ 64) then (z, None)
              else (0, Some "sql: Scan error: value out of range")
  | _ => (0, Some "sql: Scan error: unsupported conversion")
  end.

(** [func (dbResource *DbResource) UserGroupNameToIdWithTransaction(groupName string, transaction *sqlx.Tx) (uint64, error)] *)
Definition UserGroupNameToIdWithTransaction (groupName : string) : M (Z * option error) :=
  rs ← Queryx (select_where "usergroup" ["id"] "name" (VStr groupName));
  match rs with
  | None => mret (0, Some "failed to prepare statement")
  | Some rs => mret (scan_first scan_uint64 0 "id" rs)
  end.

(** [transaction.Exec(q, v...)] for an update: the error, if any. *)
Definition Exec_update (t : string) (sets : list (string * value)) (conds : list sql.cond)
  : M (option error) :=
  st ← get_state;
  match sql.exec_update (Connection st) t sets conds with
  | Some db' =>
      _ ← put_state (set_Connection st db');
      mret None
  | None => mret (Some "exec failed")
  end.

Definition Exec_insert (t : string) (cells : list (string * value)) : M (option error) :=
  st ← get_state;
  match sql.exec_insert (Connection st) t cells with
  | Some db' =>
      _ ← put_state (set_Connection st db');
      mret None
  | None => mret (Some "exec failed")
  end.

(** The body of [for _, crud := range dbResource.Cruds]: one table is
    handed to the new owner; a failed update is logged and skipped. *)
Definition own_table (userId : Z) (m : TableInfo) : M unit :=
  if String.eqb (GetName m) USER_USERGROUP_LINK then mret tt
  else if HasColumn m USER_ACCOUNT_ID_COLUMN then
    _ ← Exec_update (GetName m)
          [(USER_ACCOUNT_ID_COLUMN, VInt userId); ("permission", VInt auth.DEFAULT_PERMISSION)] [];
    mret tt
  else mret tt.

Fixpoint for_each {A} (f : A -> M unit) (l : list A) : M unit :=
  match l with
  | [] => mret tt
  | a :: l' => _ ← f a; for_each f l'
  end.

(** The permission every action gets, and the one [signin] gets. *)
Definition action_permission : auth.AuthPermission :=
  auth.UserRead .| auth.UserExecute .| auth.GroupCRUD .| auth.GroupExecute .| auth.GroupRefer.

Definition signin_permission : auth.AuthPermission :=
  auth.GuestPeek .| auth.GuestExecute .| auth.UserRead .| auth.UserExecute
    .| auth.GroupRead .| auth.GroupExecute.

(** [func (dbResource *DbResource) BecomeAdmin(userId int64, transaction *sqlx.Tx) bool];
    [reference_id] is the identifier [uuid.NewV4()] draws.  The Go map
    [Cruds] is ranged over in the order of its listing. *)
Definition BecomeAdmin (d : DbResource) (userId : Z) (reference_id : string) : M bool :=
  can ← CanBecomeAdmin;
  if negb can then mret false
  else
    _ ← for_each (own_table userId) (map snd (map_to_list (Cruds d)));
    '(adminUsergroupId, _) ← UserGroupNameToIdWithTransaction "administrators";
    err ← Exec_insert USER_USERGROUP_LINK
            [(USER_ACCOUNT_ID_COLUMN, VInt userId); ("usergroup_id", VInt adminUsergroupId);
             ("permission", VInt auth.DEFAULT_PERMISSION); ("reference_id", VStr reference_id)];
    match err with
    | Some _ => mret false
    | None =>
        err ← Exec_update "world"
                [("permission", VInt auth.DEFAULT_PERMISSION);
                 ("default_permission", VInt auth.DEFAULT_PERMISSION)]
                [sql.NotLike (sql.I "world" "table_name") "%_audit"];
        match err with
        | Some _ => mret false
        | None =>
            _ ← Exec_update "world"
                  [("permission", VInt (auth.UserCreate .| auth.GroupCreate));
                   ("default_permission", VInt (auth.UserRead .| auth.GroupRead))]
                  [sql.Like (sql.I "world" "table_name") "%_audit"];
            _ ← Exec_update "action" [("permission", VInt action_permission)] [];
            _ ← Exec_update "action" [("permission", VInt signin_permission)]
                  [sql.Eq (sql.I "action" "action_name") (VStr "signin")];
            mret true
        end
    end.

(** ** Conversions of the Go standard library *)

Definition digit (c : ascii) : option Z :=
  let n := Z.of_nat (nat_of_ascii c) in
  if (48 <=? n) && (n <=? 57) then Some (n - 48) else None.

Fixpoint parse_digits (acc : Z) (s : list ascii) : option Z :=
  match s with
  | [] => Some acc
  | c :: s' =>
      match digit c with
      | Some d => parse_digits (acc * 10 + d) s'
      | None => None
      end
  end.

Definition min_int64 : Z := - 2 ^ 63.
Definition max_int64 : Z := 2 ^ 63 - 1.

(** [strconv.ParseInt(s, 10, 64)] *)
Definition ParseInt (s : string) : Z * option error :=
  let syntax := (0, Some "strconv.ParseInt: invalid syntax") in
  let ranged (v : Z) :=
    if v <? min_int64 then (min_int64, Some "strconv.ParseInt: value out of range")
    else if max_int64 <? v then (max_int64, Some "strconv.ParseInt: value out of range")
    else (v, None) in
  let unsigned (neg : bool) (ds : list ascii) :=
    match ds with
    | [] => syntax
    | _ => match parse_digits 0 ds with
           | Some n => ranged (if neg then - n else n)
           | None => syntax
           end
    end in
  match list_ascii_of_string s with
  | [] => syntax
  | c :: rest =>
      if Ascii.eqb c "-" then unsigned true rest
      else if Ascii.eqb c "+" then unsigned false rest
      else unsigned false (c :: rest)
  end.

(** [int64(f64)]: truncation toward zero; out of range the conversion is
    implementation-defined and gives the minimum on amd64. *)
Definition float_to_int64 (m e : Z) : Z :=
  let v := if 0 <=? e then m * 2 ^ e else Z.quot m (2 ^ (- e)) in
  if (min_int64 <=? v) && (v <=? max_int64) then v else min_int64.

(** ** The row loader *)

(** What the loader needs from outside the repository's sources at hand:
    the date parsers of the column-types package, the JSON decoder, the
    file system and the base64 encoder; the map scanner of the resource
    package ([MapStringScan_Update row] is the error of [rc.Update(rows)]
    at the result row [row], if that row cannot be scanned); and the
    renderings of package [fmt] for floats, times and maps. *)
Record Externals := {
  GetTime : string -> value * option error;
  GetDateTime : string -> value * option error;
  json_Unmarshal : string -> list Row * option error;
  ReadFile : string -> string * option error;
  base64_EncodeToString : string -> string;
  PathSeparator : ascii;
  MapStringScan_Update : Row -> option error;
  fmt_Sprint : value -> string
}.

(** [fmt.Sprintf("%v", v)]: nil, integers, strings and string slices are
    written out; the other renderings are those of package [fmt]. *)
Definition sprint_v (ext : Externals) (v : value) : string :=
  match v with
  | VNil => "<nil>"
  | VInt z => pretty z
  | VStr s => s
  | VStrs l => "[" +:+ String.concat " " l +:+ "]"
  | VFloat _ _ | VTime _ | VMaps _ => fmt_Sprint ext v
  end.

(** [includedRelationMap[k]] *)
Definition included (inc : gmap string bool) (k : string) : bool := default false (inc !! k).

(** [for rows.Next() { rc := NewMapStringScan(columns); err := rc.Update(rows);
     if err != nil { return responseArray, err }; dbRow := rc.Get();
     dbRow["__type"] = typeName; responseArray = append(responseArray, dbRow) }] *)
Fixpoint RowsToMap_from (ext : Externals) (responseArray : list Row) (rows : list Row)
    (typeName : string) : list Row * option error :=
  match rows with
  | [] => (responseArray, None)
  | dbRow :: rest =>
      match MapStringScan_Update ext dbRow with
      | Some err => (responseArray, Some err)
      | None =>
          RowsToMap_from ext (responseArray ++ [<["__type" := VStr typeName]> dbRow])
            rest typeName
      end
  end.

(** [func RowsToMap(rows *sqlx.Rows, typeName string) ([]map[string]interface{}, error)]:
    every result row becomes a map with the extra key [__type]; a row that
    cannot be scanned ends the loop, and the maps made so far are returned
    with the error. *)
Definition RowsToMap (ext : Externals) (rows : list Row) (typeName : string)
  : list Row * option error :=
  RowsToMap_from ext [] rows typeName.

(** [[]string{...}] inside a row; the assertion [.([]string)]. *)
Definition assert_strings (v : value) : outcome (list string) :=
  match v with
  | VStrs l => Ok l
  | _ => Panic "interface conversion: interface {} is not []string"
  end.

(** [for _, incl := range includes1 { row[name] = append(row[name].([]string), incl["reference_id"].(string)) }] *)
Fixpoint append_reference_ids (row : Row) (name : string) (includes1 : list Row) : outcome Row :=
  match includes1 with
  | [] => Ok row
  | incl :: rest =>
      match assert_strings (index row name), assert_string (index incl "reference_id") with
      | Ok l, Ok r => append_reference_ids (<[name := VStrs (l ++ [r])]> row) name rest
      | Panic msg, _ => Panic msg
      | _, Panic msg => Panic msg
      end
  end.

(** [_, ok := row[name]; if !ok { row[name] = make([]string, 0) }] and the
    loop above. *)
Definition attach_reference_ids (row : Row) (name : string) (includes1 : list Row) : outcome Row :=
  let row' := match row !! name with
              | Some _ => row
              | None => <[name := VStrs []]> row
              end in
  append_reference_ids row' name includes1.

(** The id queries of the relation pass.  For a relation where the loaded
    type is the subject:
    [Select(I(<Oc>.id)).From(T(S).As(<Sc>)).Join(T(J).As(J), On(J.<Sc> = <Sc>.id))
       .Join(T(O).As(<Oc>), On(J.<Oc> = <Oc>.id)).Where(<Sc>.reference_id = row["reference_id"])
       .Order(I(J.created_at).Desc()).Limit(50)] *)
Definition objects_of_subject_query (r : TableRelation) (referenceId : value) : sql.select :=
  {| sql.s_cols := Some [(sql.I (GetObjectName r) "id", "id")];
     sql.s_from := GetSubject r; sql.s_alias := GetSubjectName r;
     sql.s_joins :=
       [{| sql.j_left := false; sql.j_table := GetJoinTableName r;
           sql.j_alias := GetJoinTableName r;
           sql.j_on := (sql.I (GetJoinTableName r) (GetSubjectName r),
                        sql.I (GetSubjectName r) "id") |};
        {| sql.j_left := false; sql.j_table := GetObject r;
           sql.j_alias := GetObjectName r;
           sql.j_on := (sql.I (GetJoinTableName r) (GetObjectName r),
                        sql.I (GetObjectName r) "id") |}];
     sql.s_where := [sql.Eq (sql.I (GetSubjectName r) "reference_id") referenceId];
     sql.s_order := Some (sql.I (GetJoinTableName r) "created_at", true);
     sql.s_limit := Some 50%nat |}.

(** The loaded type is the object of a to-many relation: the symmetric
    join, selecting the subjects. *)
Definition subjects_of_object_query (r : TableRelation) (referenceId : value) : sql.select :=
  {| sql.s_cols := Some [(sql.I (GetSubjectName r) "id", "id")];
     sql.s_from := GetObject r; sql.s_alias := GetObjectName r;
     sql.s_joins :=
       [{| sql.j_left := false; sql.j_table := GetJoinTableName r;
           sql.j_alias := GetJoinTableName r;
           sql.j_on := (sql.I (GetJoinTableName r) (GetObjectName r),
                        sql.I (GetObjectName r) "id") |};
        {| sql.j_left := false; sql.j_table := GetSubject r;
           sql.j_alias := GetSubjectName r;
           sql.j_on := (sql.I (GetJoinTableName r) (GetSubjectName r),
                        sql.I (GetSubjectName r) "id") |}];
     sql.s_where := [sql.Eq (sql.I (GetObjectName r) "reference_id") referenceId];
     sql.s_order := Some (sql.I (GetJoinTableName r) "created_at", true);
     sql.s_limit := Some 50%nat |}.

(** The loaded type is the object of a has_one or belongs_to relation: the
    subjects carry the foreign key. *)
Definition owners_of_object_query (r : TableRelation) (referenceId : value) : sql.select :=
  {| sql.s_cols := Some [(sql.I (GetSubjectName r) "id", "id")];
     sql.s_from := GetObject r; sql.s_alias := GetObjectName r;
     sql.s_joins :=
       [{| sql.j_left := false; sql.j_table := GetSubject r;
           sql.j_alias := GetSubjectName r;
           sql.j_on := (sql.I (GetSubjectName r) (GetObjectName r),
                        sql.I (GetObjectName r) "id") |}];
     sql.s_where := [sql.Eq (sql.I (GetObjectName r) "reference_id") referenceId];
     sql.s_order := Some (sql.I (GetSubjectName r) "created_at", true);
     sql.s_limit := Some 50%nat |}.

(** [for rows.Next() { err = rows.Scan(&includeRow); if err != nil { continue }; ids = append(ids, includeRow) }] *)
Definition scan_ids (rs : list Row) : list Z :=
  omap (fun r => match scan_int64 (index r "id") with
                 | (z, None) => Some z
                 | (_, Some _) => None
                 end) rs.

(** [for includedSubject.Next() { err = includedSubject.Scan(&subId); ids = append(ids, subId) }]:
    a failed scan still appends the zero id. *)
Definition scan_ids_keeping (rs : list Row) : list Z :=
  map (fun r => (scan_int64 (index r "id")).1) rs.

(** [Select(goqu.L("*")).From(typeName).Where(goqu.Ex{"id": ids})] *)
Definition select_by_ids (typeName : string) (ids : list Z) : sql.select :=
  {| sql.s_cols := None; sql.s_from := typeName; sql.s_alias := typeName;
     sql.s_joins := [];
     sql.s_where := [sql.In (sql.I typeName "id") (map VInt ids)];
     sql.s_order := None; sql.s_limit := None |}.

(** The result of the loader: rows, includes per row, error. *)
Definition Loaded : Type := list Row * list (list Row) * option error.

(** A step of a loop that may leave the whole function with a return. *)
Inductive flow (A : Type) :=
| Next (a : A)
| Return (r : Loaded).
Arguments Next {A} a.
Arguments Return {A} r.
Section Loader.

Variable ext : Externals.

(** [strings.ReplaceAll(filePath, "/", string(os.PathSeparator))] *)
Definition to_os_path (s : string) : string :=
  string_of_list_ascii
    (map (fun c => if Ascii.eqb c "/" then PathSeparator ext else c) (list_ascii_of_string s)).

(** The body of the loop of [GetFileFromLocalCloudStore]: [None] is
    [continue]. *)
Definition read_file_item (localSyncPath : string) (fileItem : Row) : outcome (option Row) :=
  if is_nil (index fileItem "src") then Ok None
  else
    match assert_string (index fileItem "src") with
    | Panic msg => Panic msg
    | Ok src =>
        match to_os_path src with
        | EmptyString => Panic "index out of range [0] with length 0"
        | String c _ as filePath =>
            let filePath :=
              if Ascii.eqb c (PathSeparator ext) then filePath
              else String (PathSeparator ext) filePath in
            match ReadFile ext (localSyncPath +:+ filePath) with
            | (_, Some _) => Ok None
            | (bytes, None) =>
                Ok (Some (<["contents" := VStr (base64_EncodeToString ext bytes)]>
                            (<["reference_id" := index fileItem "name"]> fileItem)))
            end
        end
    end.

Fixpoint read_file_items (localSyncPath : string) (filesList : list Row) : outcome (list Row) :=
  match filesList with
  | [] => Ok []
  | fileItem :: rest =>
      match read_file_item localSyncPath fileItem, read_file_items localSyncPath rest with
      | Panic msg, _ => Panic msg
      | _, Panic msg => Panic msg
      | Ok (Some f), Ok fs => Ok (f :: fs)
      | Ok None, Ok fs => Ok fs
      end
  end.

(** [func (dbResource *DbResource) GetFileFromLocalCloudStore(tableName string, columnName string, filesList []map[string]interface{}) (resp []map[string]interface{}, err error)] *)
Definition GetFileFromLocalCloudStore (d : DbResource) (tableName columnName : string)
    (filesList : list Row) : outcome (list Row * option error) :=
  match AssetFolderCache d !! tableName ≫= (.!! columnName) with
  | None => Ok ([], Some "not a synced folder")
  | Some localSyncPath =>
      match read_file_items localSyncPath filesList with
      | Ok resp => Ok (resp, None)
      | Panic msg => Panic msg
      end
  end.

(** The file entries of a cloud-store column: [x-crdt/yjs] entries are
    dropped unless asked for, and every entry gets its [src]. *)
Definition with_src (file : Row) : outcome Row :=
  let path := index file "path" in
  let name := index file "name" in
  if negb (is_nil path) && negb (is_nil name) then
    match assert_string path with
    | Panic msg => Panic msg
    | Ok p =>
        if (0 <? Z.of_nat (String.length p)) then
          match assert_string name with
          | Ok n => Ok (<["src" := VStr (p +:+ "/" +:+ n)]> file)
          | Panic msg => Panic msg
          end
        else
          match assert_string name with
          | Ok n => Ok (<["src" := VStr n]> file)
          | Panic msg => Panic msg
          end
    end
  else if negb (is_nil name) then
    match assert_string name with
    | Ok n => Ok (<["src" := VStr n]> file)
    | Panic msg => Panic msg
    end
  else Ok file.

Definition is_yjs (file : Row) : bool :=
  match index file "type" with
  | VStr t => String.eqb t "x-crdt/yjs"
  | _ => false
  end.

Fixpoint file_list (inc : gmap string bool) (files : list Row) : outcome (list Row) :=
  match files with
  | [] => Ok []
  | file :: rest =>
      if is_yjs file && negb (included inc "x-crdt/yjs") then file_list inc rest
      else
        match with_src file, file_list inc rest with
        | Panic msg, _ => Panic msg
        | _, Panic msg => Panic msg
        | Ok f, Ok fs => Ok (f :: fs)
        end
  end.

(** The variables the column loop carries: the row being rewritten, its
    includes, the function-wide [referenceIdCache] and the function-wide
    [err] (set by the last integer parse or reference lookup). *)
Record pass := {
  p_row : Row;
  p_include : list Row;
  p_refs : gmap string string;
  p_err : option error
}.

(** The datetime branch: [GetTime], then [GetDateTime], then NULL. *)
Definition parse_datetime (columnInfo : ColumnInfo) (key : string) (val : value) (row : Row) : Row :=
  if negb (is_nil val) && String.eqb (ColumnType columnInfo) "datetime" then
    match val with
    | VStr stringVal =>
        match GetTime ext stringVal with
        | (parsedValue, None) => <[key := parsedValue]> row
        | (_, Some _) =>
            match GetDateTime ext stringVal with
            | (parsedValue, None) => <[key := parsedValue]> row
            | (_, Some _) => <[key := VNil]> row
            end
        end
    | _ => row
    end
  else row.

(** [val == "" || val == nil] *)
Definition is_blank (val : value) : bool :=
  match val with
  | VNil => true
  | VStr s => String.eqb s ""
  | _ => false
  end.

(** The body of [for key, val := range row].  [tx] selects the callees of
    the transactional variant; [load_object] is [GetIdToObject] (or its
    transactional variant). *)
Definition column_step (tx : bool)
    (load_object : DbResource -> string -> Z -> M (option Row * option error))
    (d : DbResource) (columnMap : gmap string ColumnInfo) (inc : gmap string bool)
    (s : pass) (key : string) (val : value) : M (flow pass) :=
  match columnMap !! key with
  | None => mret (Next s)
  | Some columnInfo =>
      let row := parse_datetime columnInfo key val (p_row s) in
      let s := {| p_row := row; p_include := p_include s; p_refs := p_refs s; p_err := p_err s |} in
      if negb (IsForeignKey columnInfo) then mret (Next s)
      else if is_blank val then mret (Next s)
      else
        let namespace := Namespace (ForeignKey columnInfo) in
        if String.eqb (DataSource (ForeignKey columnInfo)) "self" then
          '(referenceIdInt, err) ←
             match val with
             | VInt z => mret (z, p_err s)
             | _ => stringIntId ← lift (assert_string val); mret (ParseInt stringIntId)
             end;
          (* [objectCache] is never written: its lookup always misses *)
          let idCacheKey := namespace +:+ "_" +:+ pretty referenceIdInt in
          '(refId, err, refs) ←
             match p_refs s !! idCacheKey with
             | Some refId => mret (refId, err, p_refs s)
             | None =>
                 '(refId, err) ← (if tx then GetIdToReferenceIdWithTransaction namespace referenceIdInt
                                  else GetIdToReferenceId namespace referenceIdInt);
                 mret (refId, err, <[idCacheKey := refId]> (p_refs s))
             end;
          match err with
          | Some _ =>
              mret (Next {| p_row := row; p_include := p_include s; p_refs := refs; p_err := err |})
          | None =>
              let row := <[key := VStr refId]> row in
              if included inc namespace || included inc (ColumnName columnInfo) || included inc "*"
              then
                '(obj, oerr) ← load_object d namespace referenceIdInt;
                match oerr, obj with
                | Some e, _ => mret (Return ([], [], Some e))
                | None, None =>
                    if tx then mret (Return ([], [], Some "failed to get related object"))
                    else panic "assignment to entry in nil map"
                | None, Some obj =>
                    mret (Next {| p_row := row;
                                  p_include := p_include s ++ [<["__type" := VStr namespace]> obj];
                                  p_refs := refs; p_err := err |})
                end
              else mret (Next {| p_row := row; p_include := p_include s; p_refs := refs; p_err := err |})
          end
        else if String.eqb (DataSource (ForeignKey columnInfo)) "cloud_store" then
          referenceStorageInformation ← lift (assert_string val);
          match json_Unmarshal ext referenceStorageInformation with
          | (_, Some _) => mret (Next s)
          | (foreignFilesList, None) =>
              returnFileList ← lift (file_list inc foreignFilesList);
              if included inc (ColumnName columnInfo) || included inc "*" then
                '(resolved, _) ← lift (GetFileFromLocalCloudStore d (TableName (tableInfo d))
                                         (ColumnName columnInfo) returnFileList);
                let resolved := map (fun file => <["__type" := VStr (ColumnType columnInfo)]> file) resolved in
                mret (Next {| p_row := <[key := VMaps resolved]> row;
                              p_include := p_include s ++ resolved;
                              p_refs := p_refs s; p_err := p_err s |})
              else
                mret (Next {| p_row := <[key := VMaps returnFileList]> row;
                              p_include := p_include s;
                              p_refs := p_refs s; p_err := p_err s |})
          end
        else mret (Next s)
  end.

(** Running a loop body over a list until it returns. *)
Fixpoint loop {A B} (body : A -> B -> M (flow A)) (a : A) (l : list B) : M (flow A) :=
  match l with
  | [] => mret (Next a)
  | b :: l' =>
      r ← body a b;
      match r with
      | Next a' => loop body a' l'
      | Return x => mret (Return x)
      end
  end.

(** The to-many branch of the relation pass, once the ids are there:
    [continue] on no ids, else load the rows, extend the row's field and
    the includes.  [holder] names the resource whose method is called (a
    nil pointer when the name is unknown), [name] the row field. *)
Definition attach_related
    (load_all : option DbResource -> string -> list sql.cond -> M (list Row * option error))
    (d : DbResource) (holder typeName name : string) (ids : list Z)
    (row : Row) (localInclude : list Row) : M (flow (Row * list Row)) :=
  match ids with
  | [] => mret (Next (row, localInclude))
  | _ =>
      '(includes1, _) ← load_all (crud d holder) typeName
                           [sql.In (sql.I typeName "id") (map VInt ids)];
      row' ← lift (attach_reference_ids row name includes1);
      mret (Next (row', localInclude ++ includes1))
  end.

Definition is_to_many (r : TableRelation) : bool :=
  String.eqb (Relation r) "has_many" || String.eqb (Relation r) "has_many_and_belongs_to_many".

Definition is_to_one (r : TableRelation) : bool :=
  String.eqb (Relation r) "has_one" || String.eqb (Relation r) "belongs_to".

(** The body of [for _, relation := range dbResource.tableInfo.Relations]. *)
Definition relation_step
    (load_all : option DbResource -> string -> list sql.cond -> M (list Row * option error))
    (d : DbResource) (inc : gmap string bool)
    (acc : Row * list Row) (relation : TableRelation) : M (flow (Row * list Row)) :=
  let '(row, localInclude) := acc in
  if negb (included inc (GetObjectName relation) || included inc (GetSubjectName relation))
  then mret (Next acc)
  else if String.eqb (Subject relation) (TableName (tableInfo d)) then
    (* fetch objects *)
    if is_to_many relation then
      rs ← Queryx (objects_of_subject_query relation (index row "reference_id"));
      match rs with
      | None => mret (Return ([], [], Some "failed to prepare statement"))
      | Some rows =>
          attach_related load_all d (GetObject relation) (GetObject relation)
            (GetObjectName relation) (scan_ids rows) row localInclude
      end
    else mret (Next acc)
  else
    (* fetch subjects *)
    if is_to_one relation then
      rs ← Queryx (owners_of_object_query relation (index row "reference_id"));
      match rs with
      | None => panic "invalid memory address or nil pointer dereference"
      | Some rows =>
          attach_related load_all d (GetSubject relation) (GetSubject relation)
            (GetSubjectName relation) (scan_ids_keeping rows) row localInclude
      end
    else if is_to_many relation then
      rs ← Queryx (subjects_of_object_query relation (index row "reference_id"));
      match rs with
      | None => panic "invalid memory address or nil pointer dereference"
      | Some rows =>
          attach_related load_all d (GetObject relation) (GetSubject relation)
            (GetSubjectName relation) (scan_ids rows) row localInclude
      end
    else mret (Next acc).

(** The body of [for _, row := range responseArray]: the function-wide
    variables, the rows done so far and their includes. *)
Record progress := {
  g_rows : list Row;
  g_includes : list (list Row);
  g_refs : gmap string string;
  g_err : option error
}.

Definition row_step (tx : bool)
    (load_object : DbResource -> string -> Z -> M (option Row * option error))
    (load_all : option DbResource -> string -> list sql.cond -> M (list Row * option error))
    (d : DbResource) (columnMap : gmap string ColumnInfo) (inc : gmap string bool)
    (g : progress) (row : Row) : M (flow progress) :=
  r ← loop (fun s kv => column_step tx load_object d columnMap inc s kv.1 kv.2)
         {| p_row := row; p_include := []; p_refs := g_refs g; p_err := g_err g |}
         (map_to_list row);
  match r with
  | Return x => mret (Return x)
  | Next s =>
      r ← loop (relation_step load_all d inc) (p_row s, p_include s) (Relations (tableInfo d));
      match r with
      | Return x => mret (Return x)
      | Next (row', localInclude) =>
          mret (Next {| g_rows := g_rows g ++ [row'];
                        g_includes := g_includes g ++ [localInclude];
                        g_refs := p_refs s; g_err := p_err s |})
      end
  end.

(** The loader once the callees are fixed. *)
Definition load_rows (tx : bool)
    (load_object : DbResource -> string -> Z -> M (option Row * option error))
    (load_all : option DbResource -> string -> list sql.cond -> M (list Row * option error))
    (d : DbResource) (rows : list Row) (columnMap : gmap string ColumnInfo)
    (includedRelationMap : gmap string bool) : M Loaded :=
  match RowsToMap ext rows (GetName (tableInfo d)) with
  | (responseArray, Some err) => mret (responseArray, [], Some err)
  | (responseArray, None) =>
      r ← loop (row_step tx load_object load_all d columnMap includedRelationMap)
             {| g_rows := []; g_includes := []; g_refs := ∅; g_err := None |} responseArray;
      match r with
      | Return x => mret x
      | Next g => mret (g_rows g, g_includes g, None)
      end
  end.

(** [Select(goqu.C("*")).From(typeName).Where(goqu.Ex{"id": id})] *)
Definition select_star (typeName : string) (conds : list sql.cond) : sql.select :=
  {| sql.s_cols := None; sql.s_from := typeName; sql.s_alias := typeName;
     sql.s_joins := []; sql.s_where := conds;
     sql.s_order := None; sql.s_limit := None |}.

Definition cached_object (v : cached) : outcome Row :=
  match v with
  | CObject r => Ok r
  | _ => Panic "interface conversion: interface {} is not map[string]interface {}"
  end.

(** [GetIdToObject] and [GetIdToObjectWithTransaction] over a loader
    [rec] for the nested call.  In the plain method the statement is
    closed by a deferred call registered before the error check, so a
    failed prepare ends in a nil dereference; an empty result is
    [nil, nil] there and an error in the transactional one. *)
Definition GetIdToObject_with (tx : bool)
    (rec : DbResource -> list Row -> gmap string ColumnInfo -> gmap string bool -> M Loaded)
    (d : DbResource) (typeName : string) (id : Z) : M (option Row * option error) :=
  let key := "ito-" +:+ typeName +:+ "-" +:+ pretty id in
  hit ← cache_lookup key;
  match hit with
  | Some v => r ← lift (cached_object v); mret (Some r, None)
  | None =>
      rs ← Queryx (select_star typeName [sql.Eq (sql.I typeName "id") (VInt id)]);
      match rs with
      | None =>
          if tx then mret (None, Some "failed to prepare statement")
          else panic "invalid memory address or nil pointer dereference"
      | Some row =>
          m ← lift (crud_model d typeName);
          '(m, _, err) ← rec d row (GetColumnMap m) ∅;
          match tx, err with
          | true, Some e => mret (None, Some e)
          | _, _ =>
              match m with
              | [] => mret (None, if tx then Some "no such item" else None)
              | m0 :: _ =>
                  _ ← cache_store key (CObject m0) (1 * Minute);
                  mret (Some m0, None)
              end
          end
      end
  end.

(** [GetAllObjectsWithWhere] and [GetAllObjectsWithWhereWithTransaction]
    on a receiver that may be nil: the plain method dereferences it to
    prepare the statement, the transactional one only after the query, to
    reach [dbResource.Cruds[typeName]], on which the nested loader runs. *)
Definition GetAllObjectsWithWhere_with (tx : bool)
    (rec : DbResource -> list Row -> gmap string ColumnInfo -> gmap string bool -> M Loaded)
    (d : option DbResource) (typeName : string) (conds : list sql.cond)
  : M (list Row * option error) :=
  match tx, d with
  | false, None => panic "invalid memory address or nil pointer dereference"
  | _, _ =>
      rs ← Queryx (select_star typeName conds);
      match rs with
      | None => mret ([], Some "failed to prepare statement")
      | Some row =>
          match d ≫= (fun d => crud d typeName) with
          | None => panic "invalid memory address or nil pointer dereference"
          | Some dt =>
              '(m, _, err) ← rec dt row (GetColumnMap (tableInfo dt)) ∅;
              mret (m, err)
          end
      end
  end.

(** [ResultToArrayOfMap] ([tx = false]) and
    [ResultToArrayOfMapWithTransaction] ([tx = true]).  The loader calls
    itself through [GetIdToObject] and [GetAllObjectsWithWhere]; [depth]
    bounds the nesting of these calls. *)
Fixpoint ResultToArrayOfMap_at (depth : nat) (tx : bool) (d : DbResource) (rows : list Row)
    (columnMap : gmap string ColumnInfo) (includedRelationMap : gmap string bool) : M Loaded :=
  match depth with
  | O =>
      load_rows tx (fun _ _ _ => panic "loader nesting exceeded")
        (fun _ _ _ => panic "loader nesting exceeded") d rows columnMap includedRelationMap
  | S depth' =>
      load_rows tx (GetIdToObject_with tx (ResultToArrayOfMap_at depth' tx))
        (GetAllObjectsWithWhere_with tx (ResultToArrayOfMap_at depth' tx))
        d rows columnMap includedRelationMap
  end.

(** Nested loads pass a nil include map and load nothing further: one
    level of nesting is all a call can reach. *)
Definition ResultToArrayOfMap := ResultToArrayOfMap_at 1 false.
Definition ResultToArrayOfMapWithTransaction := ResultToArrayOfMap_at 1 true.

Definition GetIdToObjectWithTransaction := GetIdToObject_with true (ResultToArrayOfMap_at 0 true).
Definition GetAllObjectsWithWhere (d : DbResource) :=
  GetAllObjectsWithWhere_with false (ResultToArrayOfMap_at 0 false) (Some d).
Definition GetAllObjectsWithWhereWithTransaction (d : DbResource) :=
  GetAllObjectsWithWhere_with true (ResultToArrayOfMap_at 0 true) (Some d).

End Loader.

(** ** Row permissions *)

(** Modelled from the spec: [BeginsWith] is a helper of the resource
    package that is not at hand; "Type begins with file." *)
Definition BeginsWith (s prefix : string) : bool := String.prefix prefix s.

(** [strings.Index(s, sub) == -1] is [None]. *)
Definition strings_Index (s sub : string) : option nat := String.index 0 sub s.

(** The single synthetic entry of guest-readable rows. *)
Definition guest_read_group : auth.GroupPermission :=
  {| auth.GroupReferenceId := ""; auth.ObjectReferenceId := "";
     auth.RelationReferenceId := ""; auth.Permission := auth.GuestRead |}.

(** The query of [GetObjectUserGroupsByWhere]:
    [<t> JOIN <t>_<t>_id_has_usergroup_usergroup_id ON <j>.<t>_id = <t>.id
         JOIN usergroup AS usergroup_id ON <j>.usergroup_id = usergroup_id.id
     WHERE <t>.<colName> = colValue]. *)
Definition user_groups_relation (objectType : string) : TableRelation :=
  {| Subject := objectType; Object := "usergroup";
     Relation := "has_many_and_belongs_to_many";
     SubjectName := objectType +:+ "_id"; ObjectName := "usergroup_id" |}.

Definition user_groups_query (objectType colName : string) (colValue : value) : sql.select :=
  let rel := user_groups_relation objectType in
  {| sql.s_cols := Some [(sql.I "usergroup_id" "reference_id", "groupreferenceid");
                         (sql.I (GetJoinTableName rel) "reference_id", "relationreferenceid");
                         (sql.I (GetJoinTableName rel) "permission", "permission")];
     sql.s_from := GetSubject rel; sql.s_alias := GetSubject rel;
     sql.s_joins :=
       [{| sql.j_left := false; sql.j_table := GetJoinTableName rel;
           sql.j_alias := GetJoinTableName rel;
           sql.j_on := (sql.I (GetJoinTableName rel) (GetSubjectName rel),
                        sql.I (GetSubject rel) "id") |};
        {| sql.j_left := false; sql.j_table := GetObject rel;
           sql.j_alias := GetObjectName rel;
           sql.j_on := (sql.I (GetJoinTableName rel) (GetObjectName rel),
                        sql.I (GetObjectName rel) "id") |}];
     sql.s_where := [sql.Eq (sql.I (Subject rel) colName) colValue];
     sql.s_order := None; sql.s_limit := None |}.

(** [func (dbResource *DbResource) GetObjectUserGroupsByWhere(objectType string, colName string, colValue interface{}) []auth.GroupPermission];
    the transactional variant runs the same statement on the transaction. *)
Definition GetObjectUserGroupsByWhere (objectType colName : string) (colValue : value)
  : M (list auth.GroupPermission) :=
  rs ← Queryx (user_groups_query objectType colName colValue);
  match rs with
  | None => mret []
  | Some rs => mret (map StructScan_GroupPermission rs)
  end.

Definition GetObjectUserGroupsByWhereWithTransaction (objectType colName : string)
    (colValue : value) : M (list auth.GroupPermission) :=
  GetObjectUserGroupsByWhere objectType colName colValue.

(** The statement of [GetObjectPermissionByReferenceId]: [usergroup] rows
    have no owner column. *)
Definition permission_by_reference_query (objectType referenceId : string) : sql.select :=
  if String.eqb objectType "usergroup"
  then select_where objectType ["permission"; "id"] "reference_id" (VStr referenceId)
  else select_where objectType [USER_ACCOUNT_ID_COLUMN; "permission"; "id"]
         "reference_id" (VStr referenceId).

(** [func (dbResource *DbResource) GetObjectPermissionByReferenceId(objectType string, referenceId string) PermissionInstance] *)
Definition GetObjectPermissionByReferenceId (d : DbResource) (objectType referenceId : string)
  : M PermissionInstance :=
  rs ← Queryx (permission_by_reference_query objectType referenceId);
  match rs with
  | None => mret zero_perm
  | Some rs =>
      let resultObject : Row := match rs with m :: _ => m | [] => ∅ end in
      owner ← (if is_nil (index resultObject USER_ACCOUNT_ID_COLUMN) then mret ""
               else
                 uid ← lift (assert_int64 (index resultObject USER_ACCOUNT_ID_COLUMN));
                 '(user, err) ← GetIdToReferenceId USER_ACCOUNT_TABLE_NAME uid;
                 mret (match err with None => user | Some _ => "" end));
      match index resultObject "id" with
      | VInt i =>
          gs ← GetObjectGroupsByObjectId d objectType i;
          p ← lift (assert_int64 (index resultObject "permission"));
          mret {| UserId := owner; UserGroupId := gs; Permission := p |}
      | _ => mret {| UserId := owner; UserGroupId := []; Permission := 0 |}
      end
  end.

(** [func GetObjectPermissionByReferenceIdWithTransaction(objectType string, referenceId string, transaction *sqlx.Tx) PermissionInstance] *)
Definition GetObjectPermissionByReferenceIdWithTransaction (objectType referenceId : string)
  : M PermissionInstance :=
  let cacheKey := "opject-permission-" +:+ objectType +:+ "-" +:+ referenceId in
  hit ← cache_lookup cacheKey;
  match hit with
  | Some v => lift (cached_permission v)
  | None =>
      rs ← Queryx (permission_by_reference_query objectType referenceId);
      match rs with
      | None => mret zero_perm
      | Some rs =>
          let resultObject : Row := match rs with m :: _ => m | [] => ∅ end in
          owner ← (if is_nil (index resultObject USER_ACCOUNT_ID_COLUMN) then mret ""
                   else
                     uid ← lift (assert_int64 (index resultObject USER_ACCOUNT_ID_COLUMN));
                     '(user, err) ← GetIdToReferenceIdWithTransaction USER_ACCOUNT_TABLE_NAME uid;
                     mret (match err with None => user | Some _ => "" end));
          match index resultObject "id" with
          | VInt i =>
              gs ← GetObjectGroupsByObjectIdWithTransaction objectType i;
              p ← lift (assert_int64 (index resultObject "permission"));
              let perm := {| UserId := owner; UserGroupId := gs; Permission := p |} in
              _ ← cache_store cacheKey (CPermission perm) (30 * Minute);
              mret perm
          | _ => mret {| UserId := owner; UserGroupId := []; Permission := 0 |}
          end
      end
  end.

(** [uid, _ := v.(string)], the non-panicking assertion. *)
Definition string_or_empty (v : value) : string :=
  match v with VStr s => s | _ => "" end.

(** The conversion of [row["permission"]]: an [int64], else a [float64],
    else a decimal string. *)
Definition permission_of (rowPermission : value) : outcome Z :=
  match rowPermission with
  | VInt i64 => Ok i64
  | VFloat m e => Ok (float_to_int64 m e)
  | VStr s => Ok (ParseInt s).1
  | _ => Panic "interface conversion: interface {} is not string"
  end.

Section Rows.

Variable ext : Externals.

(** [func (dbResource *DbResource) GetReferenceIdToObjectColumn(typeName string, referenceId string, columnToSelect string) (interface{}, error)]
    ([tx = false]) and its transactional variant. *)
Definition GetReferenceIdToObjectColumn_gen (tx : bool) (d : DbResource)
    (typeName referenceId columnToSelect : string) : M (value * option error) :=
  rs ← Queryx
          (select_where typeName [columnToSelect] "reference_id" (VStr referenceId));
  match rs with
  | None => mret (VNil, Some "failed to prepare statement")
  | Some row =>
      m ← lift (crud_model d typeName);
      '(results, _, err) ← ResultToArrayOfMap_at ext 1 tx d row (GetColumnMap m) ∅;
      match err, results with
      | Some e, _ => mret (VNil, Some e)
      | None, [] => mret (VNil, Some "no such object")
      | None, r :: _ => mret (index r columnToSelect, None)
      end
  end.

Definition GetReferenceIdToObjectColumn := GetReferenceIdToObjectColumn_gen false.
Definition GetReferenceIdToObjectColumnWithTransaction := GetReferenceIdToObjectColumn_gen true.

(** [func (dbResource *DbResource) GetRowPermission(row map[string]interface{}) PermissionInstance] *)
Definition GetRowPermission (d : DbResource) (row : Row) : M PermissionInstance :=
  let refId := match row !! "reference_id" with
               | Some v => v
               | None => index row "id"
               end in
  rowType ← lift (assert_string (index row "__type"));
  owner ← (if negb (String.eqb rowType "usergroup") then
             if negb (is_nil (index row USER_ACCOUNT_ID_COLUMN))
             then mret (string_or_empty (index row USER_ACCOUNT_ID_COLUMN))
             else
               ref ← lift (assert_string refId);
               '(u, _) ← GetReferenceIdToObjectColumn d rowType ref USER_ACCOUNT_ID_COLUMN;
               mret (string_or_empty u)
           else mret "");
  let loc := strings_Index rowType "_has_" in
  if BeginsWith rowType "file." || String.eqb rowType "none" then
    mret {| UserId := owner; UserGroupId := [guest_read_group]; Permission := 0 |}
  else
    hasGroups ← match loc with
                | None => m ← lift (crud_model d rowType); mret (HasMany m "usergroup")
                | Some _ => mret false
                end;
    groups ←
      (if hasGroups : bool then
         ref ← lift (assert_string refId);
         GetObjectUserGroupsByWhere rowType "reference_id" (VStr ref)
       else if String.eqb rowType "usergroup" then
         ref ← lift (assert_string refId);
         originalGroupIdStr ←
           (if is_nil (index row "reference_id") then mret ref
            else lift (assert_string (index row "reference_id")));
         ug ← lift (crud_model d "usergroup");
         mret [{| auth.GroupReferenceId := originalGroupIdStr;
                  auth.ObjectReferenceId := ref;
                  auth.RelationReferenceId := ref;
                  auth.Permission := DefaultPermission ug |}]
       else mret []);
    let rowPermission := index row "permission" in
    if negb (is_nil rowPermission) then
      i64 ← lift (permission_of rowPermission);
      mret {| UserId := owner; UserGroupId := groups; Permission := i64 |}
    else
      ref ← lift (assert_string refId);
      pe ← GetObjectPermissionByReferenceId d rowType ref;
      mret {| UserId := owner; UserGroupId := groups; Permission := Permission pe |}.

(** [func (dbResource *DbResource) GetRowPermissionWithTransaction(row map[string]interface{}, transaction *sqlx.Tx) PermissionInstance] *)
Definition GetRowPermissionWithTransaction (d : DbResource) (row : Row) : M PermissionInstance :=
  let refId := match row !! "reference_id" with
               | Some v => v
               | None => index row "id"
               end in
  rowType ← lift (assert_string (index row "__type"));
  let cacheKey := "row-permission-" +:+ rowType +:+ "-" +:+ sprint_v ext refId in
  hit ← cache_lookup cacheKey;
  match hit with
  | Some v => lift (cached_permission v)
  | None =>
      owner ← (if negb (String.eqb rowType "usergroup") then
                 if negb (is_nil (index row USER_ACCOUNT_ID_COLUMN))
                 then mret (string_or_empty (index row USER_ACCOUNT_ID_COLUMN))
                 else
                   ref ← lift (assert_string refId);
                   '(u, _) ← GetReferenceIdToObjectColumnWithTransaction d rowType ref
                               USER_ACCOUNT_ID_COLUMN;
                   mret (string_or_empty u)
               else mret "");
      let loc := strings_Index rowType "_has_" in
      if BeginsWith rowType "file." || String.eqb rowType "none" then
        mret {| UserId := owner; UserGroupId := [guest_read_group]; Permission := 0 |}
      else
        hasGroups ← match loc with
                    | None => m ← lift (crud_model d rowType); mret (HasMany m "usergroup")
                    | Some _ => mret false
                    end;
        groups ←
          (if hasGroups : bool then
             ref ← lift (assert_string refId);
             GetObjectUserGroupsByWhereWithTransaction rowType "reference_id" (VStr ref)
           else if String.eqb rowType "usergroup" then
             ref ← lift (assert_string refId);
             originalGroupIdStr ←
               (if is_nil (index row "reference_id") then mret ref
                else lift (assert_string (index row "reference_id")));
             ug ← lift (crud_model d "usergroup");
             mret [{| auth.GroupReferenceId := originalGroupIdStr;
                      auth.ObjectReferenceId := ref;
                      auth.RelationReferenceId := ref;
                      auth.Permission := DefaultPermission ug |}]
           else mret []);
        let rowPermission := index row "permission" in
        perm ←
          (if negb (is_nil rowPermission) then
             i64 ← lift (permission_of rowPermission);
             mret {| UserId := owner; UserGroupId := groups; Permission := i64 |}
           else
             ref ← lift (assert_string refId);
             pe ← GetObjectPermissionByReferenceIdWithTransaction rowType ref;
             mret {| UserId := owner; UserGroupId := groups; Permission := Permission pe |});
        _ ← cache_store cacheKey (CPermission perm) (1 * Minute);
        mret perm
  end.

(** ** Loading rows *)

(** [func (dbResource *DbResource) GetRowsByWhereClause(typeName string, includedRelations map[string]bool, where ...goqu.Ex)]
    ([tx = false]) and [GetRowsByWhereClauseWithTransaction], on a receiver
    that may be nil: the plain method dereferences it to prepare the
    statement, the transactional one only to run the loader. *)
Definition GetRowsByWhereClause_gen (tx : bool) (d : option DbResource) (typeName : string)
    (includedRelations : gmap string bool) (conds : list sql.cond) : M Loaded :=
  match tx, d with
  | false, None => panic "invalid memory address or nil pointer dereference"
  | _, _ =>
      rs ← Queryx (select_star typeName conds);
      match rs with
      | None => mret ([], [], Some "failed to prepare statement")
      | Some rows =>
          match d with
          | None => panic "invalid memory address or nil pointer dereference"
          | Some d =>
              m ← lift (crud_model d typeName);
              ResultToArrayOfMap_at ext 1 tx d rows (GetColumnMap m) includedRelations
          end
      end
  end.

Definition GetRowsByWhereClause (d : DbResource) := GetRowsByWhereClause_gen false (Some d).
Definition GetRowsByWhereClauseWithTransaction (d : DbResource) :=
  GetRowsByWhereClause_gen true (Some d).

(** The double quote goqu's default dialect puts around identifiers. *)
Definition dquote : string := String (ascii_of_nat 34) EmptyString.

(** [goqu.Select(goqu.L("max(id)")).From(typeName).ToSQL()] *)
Definition max_id_sql (typeName : string) : string :=
  "SELECT max(id) FROM " +:+ dquote +:+ typeName +:+ dquote.

(** [randomFunc] of [GetRandomRow]. *)
Definition randomFunc (driverName : string) : string :=
  if String.eqb driverName "mysql" then "RAND() * " else "RANDOM() * ".

(** [Select("*").From(typeName).Where(goqu.Ex{"id": goqu.Op{"gte": goqu.L(randomFunc + " ( " + maxSql + " ) ")}}).Limit(count)] *)
Definition random_row_query (driverName typeName : string) (count : nat) : sql.select :=
  {| sql.s_cols := None; sql.s_from := typeName; sql.s_alias := typeName;
     sql.s_joins := [];
     sql.s_where := [sql.GteL (sql.I typeName "id")
                       (randomFunc driverName +:+ " ( " +:+ max_id_sql typeName +:+ " ) ")];
     sql.s_order := None; sql.s_limit := Some count |}.

(** [func (dbResource *DbResource) GetRandomRow(typeName string, count uint) ([]map[string]interface{}, error)];
    [driverName] is [dbResource.Connection.DriverName()], [lit] the value
    the server computes for the raw fragment at each candidate row. *)
Definition GetRandomRow (lit : string -> nat -> value) (driverName : string)
    (d : DbResource) (typeName : string) (count : nat) : M (list Row * option error) :=
  rs ← Queryx_with lit (random_row_query driverName typeName count);
  match rs with
  | None => mret ([], Some "failed to prepare statement")
  | Some rows =>
      m ← lift (crud_model d typeName);
      '(m1, _, err) ← ResultToArrayOfMap ext d rows (GetColumnMap m) ∅;
      mret (m1, err)
  end.

End Rows.

(** ** The password.reset.verify action performer *)

(** [ActionResponse] and its constructor [NewActionResponse] (a plain
    constructor of the resource package). *)
Record ActionResponse := {
  ResponseType : string;
  Attributes : gmap string value
}.

Definition NewActionResponse (responseType : string) (attrs : gmap string value) : ActionResponse :=
  {| ResponseType := responseType; Attributes := attrs |}.

(** [api2go.Responder], an interface value; nil is [None]. *)
Record Responder := { StatusCode : Z; Result : value }.

(** What [jwt.Parse] gives: an error, or a token with its [Valid] flag.
    The code reads [parsedToken.Valid] only when the error is nil. *)
Inductive jwt_result :=
| ParseError (e : error)
| Parsed (valid : bool).

(** [type generatePasswordResetVerifyActionPerformer struct]: [cruds] is
    the shared map of resources. *)
Record generatePasswordResetVerifyActionPerformer := {
  cruds : DbResource;
  secret : string;
  tokenLifeTime : Z;
  jwtTokenIssuer : string
}.

Definition Name (d : generatePasswordResetVerifyActionPerformer) : string :=
  "password.reset.verify".

Section PasswordResetVerify.

Variable ext : Externals.

(** [base64.StdEncoding.DecodeString] and [jwt.Parse] with the key
    function that returns [d.secret]. *)
Variable base64_DecodeString : string -> string * option error.
Variable jwt_Parse : string -> string -> jwt_result.

(** The three attributes of a notification. *)
Definition notification (type message title : string) : gmap string value :=
  <["title" := VStr title]> (<["message" := VStr message]> (<["type" := VStr type]> ∅)).

(** [func (d *generatePasswordResetVerifyActionPerformer) DoAction(request Outcome, inFieldMap map[string]interface{}, transaction *sqlx.Tx) (api2go.Responder, []ActionResponse, []error)] *)
Definition DoAction (d : generatePasswordResetVerifyActionPerformer) (inFieldMap : Row)
  : M (option Responder * list ActionResponse * list error) :=
  let responses : list ActionResponse := [] in
  let email := index inFieldMap "email" in
  '(existingUsers, _, err) ←
     GetRowsByWhereClause_gen ext true (crud (cruds d) USER_ACCOUNT_TABLE_NAME)
       "user_account" ∅ [sql.Eq (sql.I "user_account" "email") email];
  if bool_decide (is_Some err) || (length existingUsers <? 1)%nat then
    let actionResponse :=
      NewActionResponse "client.notify" (notification "error" "No Such account" "Failed") in
    mret (None, responses ++ [actionResponse], [])
  else
    let token := index inFieldMap "token" in
    token ← lift (assert_string token);
    match base64_DecodeString token with
    | (_, Some _) =>
        let actionResponse :=
          NewActionResponse "client.notify" (notification "error" "Invalid token" "Failed") in
        mret (None, responses ++ [actionResponse], [])
    | (tokenString, None) =>
        match jwt_Parse tokenString (secret d) with
        | ParseError _ | Parsed false =>
            mret (None,
                  responses ++ [NewActionResponse "client.notify"
                                  (notification "failed" "Token has expired" "Failed")], [])
        | Parsed true =>
            mret (None,
                  responses ++ [NewActionResponse "client.notify"
                                  (notification "success" "Logged in" "Success")], [])
        end
    end.

End PasswordResetVerify.

(** ** Vocabulary of the properties *)

(** The cache contents, empty when the handle is nil. *)
Definition cache_of (st : State) : gmap string entry := default ∅ (OlricCache st).

(** [k] holds [e] after a call and held nothing before it. *)
Definition new_entry (st st' : State) (k : string) (e : entry) : Prop :=
  cache_of st !! k = None /\ cache_of st' !! k = Some e.

(** The four identity lookups. *)
Inductive lookup :=
| IdToRef (tx : bool) (typeName : string) (id : Z)
| RefToId (tx : bool) (typeName referenceId : string).

Definition run_lookup (op : lookup) : M unit :=
  match op with
  | IdToRef false t i => _ ← GetIdToReferenceId t i; mret tt
  | IdToRef true t i => _ ← GetIdToReferenceIdWithTransaction t i; mret tt
  | RefToId false t r => _ ← GetReferenceIdToId t r; mret tt
  | RefToId true t r => _ ← GetReferenceIdToIdWithTransaction t r; mret tt
  end.

Definition lookup_key (op : lookup) : string :=
  match op with
  | IdToRef _ t i => itr_key t i
  | RefToId _ t r => riti_key t r
  end.

(** The time-to-live each lookup puts its result with. *)
Definition lookup_ttl (op : lookup) : Z :=
  match op with
  | IdToRef false _ _ => 1 * Minute
  | IdToRef true _ _ => 5 * Minute
  | RefToId false _ _ => 5 * Minute
  | RefToId true _ _ => 1 * Hour
  end.

(** The time-to-live of the cache table of the specification: one minute
    for id-to-reference entries, five for reference-to-id entries. *)
Definition documented_ttl (op : lookup) : Z :=
  match op with
  | IdToRef _ _ _ => 1 * Minute
  | RefToId _ _ _ => 5 * Minute
  end.

(** A small database used by the examples: two posts. *)
Definition example_posts : Table :=
  {| columns := ["id"; "reference_id"; "title"];
     rows := [ {[ "id" := VInt 1; "reference_id" := VStr "r-1" ]};
               {[ "id" := VInt 2; "reference_id" := VStr "r-2" ]} ] |}.

Definition example_state : State :=
  {| Connection := {[ "post" := example_posts ]}; OlricCache := Some ∅; Queried := [] |}.

(** Externals for the examples: no date parses, no JSON decodes, no file
    is readable, every result row scans. *)
Definition example_externals : Externals :=
  {| GetTime := fun _ => (VNil, Some "not a time");
     GetDateTime := fun _ => (VNil, Some "not a date");
     json_Unmarshal := fun _ => ([], Some "not json");
     ReadFile := fun _ => ("", Some "no such file");
     base64_EncodeToString := fun s => s;
     PathSeparator := "/"%char;
     MapStringScan_Update := fun _ => None;
     fmt_Sprint := fun _ => "" |}.

(** The same, with a driver that cannot scan the row of id 2. *)
Definition example_unscanned : Externals :=
  {| GetTime := fun _ => (VNil, Some "not a time");
     GetDateTime := fun _ => (VNil, Some "not a date");
     json_Unmarshal := fun _ => ([], Some "not json");
     ReadFile := fun _ => ("", Some "no such file");
     base64_EncodeToString := fun s => s;
     PathSeparator := "/"%char;
     MapStringScan_Update := fun dbRow =>
       if sql.sql_eq (index dbRow "id") (VInt 2) then Some "sql: Scan error" else None;
     fmt_Sprint := fun _ => "" |}.

(** One registered account. *)
Definition example_user_info : TableInfo :=
  {| TableName := "user_account";
     Columns := [{| ColumnName := "email"; ColumnType := "email"; IsForeignKey := false;
                    ForeignKey := {| DataSource := ""; Namespace := "" |} |}];
     Relations := []; DefaultPermission := auth.DEFAULT_PERMISSION |}.

Definition example_resource : DbResource :=
  {| tableInfo := example_user_info;
     Cruds := {[ "user_account" := example_user_info ]};
     OlricDb := None; AssetFolderCache := ∅ |}.

Definition example_accounts : State :=
  {| Connection :=
       {[ "user_account" :=
            {| columns := ["id"; "reference_id"; "email"];
               rows := [ {[ "id" := VInt 1; "reference_id" := VStr "u-1";
                            "email" := VStr "a@x" ]} ] |} ]};
     OlricCache := None; Queried := [] |}.

Definition example_performer : generatePasswordResetVerifyActionPerformer :=
  {| cruds := example_resource; secret := "s3cret"; tokenLifeTime := 72;
     jwtTokenIssuer := "daptin-000000" |}.

(** The account lookup of [DoAction]. *)
Definition find_account (ext : Externals) (d : generatePasswordResetVerifyActionPerformer)
    (inFieldMap : Row) : M Loaded :=
  GetRowsByWhereClause_gen ext true (crud (cruds d) USER_ACCOUNT_TABLE_NAME)
    "user_account" ∅ [sql.Eq (sql.I "user_account" "email") (index inFieldMap "email")].

(** The notification each of the four cases of [DoAction] carries. *)
Definition case_notification (base64_DecodeString : string -> string * option error)
    (jwt_Parse : string -> string -> jwt_result) (secret : string)
    (found : bool) (token : string) : gmap string value :=
  if negb found then notification "error" "No Such account" "Failed"
  else match base64_DecodeString token with
       | (_, Some _) => notification "error" "Invalid token" "Failed"
       | (tokenString, None) =>
           match jwt_Parse tokenString secret with
           | Parsed true => notification "success" "Logged in" "Success"
           | _ => notification "failed" "Token has expired" "Failed"
           end
       end.

(** Where the condition of [select_where] holds on a row. *)
Definition matches (k : string) (v : value) (r : Row) : bool :=
  match v with
  | VNil => is_nil (index r k)
  | _ => sql.sql_eq (index r k) v
  end.




(** An update that leaves the database alone when it fails. *)
Definition try_update (db : gmap string Table) (t : string)
    (sets : list (string * value)) (conds : list sql.cond) : gmap string Table :=
  default db (sql.exec_update db t sets conds).

(** The id [BecomeAdmin] finds for the group named [administrators]: the
    first such row of [usergroup], when its id scans into a [uint64]. *)
Definition administrators_group_id (db : gmap string Table) : option Z :=
  match sql.query db (select_where "usergroup" ["id"] "name" (VStr "administrators")) with
  | Some rs =>
      match scan_first scan_uint64 0 "id" rs with
      | (z, None) => Some z
      | (_, Some _) => None
      end
  | None => None
  end.




(** A fresh installation: one user, the [administrators] group without
    members, two tables registered in [world] and two actions. *)
Definition example_install : State :=
  {| Connection :=
       {[ "user_account" :=
            {| columns := ["id"; "reference_id"; "email"; "user_account_id"; "permission"];
               rows := [ {[ "id" := VInt 1; "reference_id" := VStr "u-1";
                            "email" := VStr "a@x"; "permission" := VInt 0 ]} ] |};
          "usergroup" :=
            {| columns := ["id"; "reference_id"; "name"; "permission"];
               rows := [ {[ "id" := VInt 1; "reference_id" := VStr "g-1";
                            "name" := VStr "guests"; "permission" := VInt 0 ]};
                         {[ "id" := VInt 2; "reference_id" := VStr "g-2";
                            "name" := VStr "administrators"; "permission" := VInt 0 ]} ] |};
          USER_USERGROUP_LINK :=
            {| columns := ["id"; "reference_id"; "user_account_id"; "usergroup_id"; "permission"];
               rows := [] |};
          "world" :=
            {| columns := ["id"; "table_name"; "permission"; "default_permission"];
               rows := [ {[ "id" := VInt 1; "table_name" := VStr "user_account";
                            "permission" := VInt 0; "default_permission" := VInt 0 ]};
                         {[ "id" := VInt 2; "table_name" := VStr "user_account_audit";
                            "permission" := VInt 0; "default_permission" := VInt 0 ]} ] |};
          "action" :=
            {| columns := ["id"; "action_name"; "permission"];
               rows := [ {[ "id" := VInt 1; "action_name" := VStr "signin";
                            "permission" := VInt 0 ]};
                         {[ "id" := VInt 2; "action_name" := VStr "signup";
                            "permission" := VInt 0 ]} ] |} ]};
     OlricCache := None; Queried := [] |}.

Definition example_install_resource : DbResource :=
  {| tableInfo := example_user_info;
     Cruds := {[ "user_account" :=
                   {| TableName := "user_account";
                      Columns := [{| ColumnName := "user_account_id"; ColumnType := "alias";
                                     IsForeignKey := false;
                                     ForeignKey := {| DataSource := ""; Namespace := "" |} |}];
                      Relations := []; DefaultPermission := auth.DEFAULT_PERMISSION |} ]};
     OlricDb := None; AssetFolderCache := ∅ |}.

(** The state [BecomeAdmin] leaves behind on the fresh installation. *)
Definition example_installed : State :=
  match BecomeAdmin example_install_resource 1 "m-1" example_install with
  | Ok (_, st) => st
  | Panic _ => example_install
  end.

(** The permission cell of the rows of [action] named [name]. *)
Definition action_permissions (st : State) (name : string) : list value :=
  match Connection st !! "action" with
  | Some t =>
      map (fun r => index r "permission")
        (List.filter (fun r => sql.sql_eq (index r "action_name") (VStr name)) (rows t))
  | None => []
  end.

(** The four updates that close [BecomeAdmin], on the database. *)
Definition admin_cells (userId adminUsergroupId : Z) (reference_id : string)
  : list (string * value) :=
  [(USER_ACCOUNT_ID_COLUMN, VInt userId); ("usergroup_id", VInt adminUsergroupId);
   ("permission", VInt auth.DEFAULT_PERMISSION); ("reference_id", VStr reference_id)].

Definition set_world_permissions (db : gmap string Table) : gmap string Table :=
  try_update
    (try_update db "world"
       [("permission", VInt auth.DEFAULT_PERMISSION);
        ("default_permission", VInt auth.DEFAULT_PERMISSION)]
       [sql.NotLike (sql.I "world" "table_name") "%_audit"])
    "world"
    [("permission", VInt (auth.UserCreate .| auth.GroupCreate));
     ("default_permission", VInt (auth.UserRead .| auth.GroupRead))]
    [sql.Like (sql.I "world" "table_name") "%_audit"].

Definition set_action_permissions (db : gmap string Table) : gmap string Table :=
  try_update
    (try_update db "action" [("permission", VInt action_permission)] [])
    "action" [("permission", VInt signin_permission)]
    [sql.Eq (sql.I "action" "action_name") (VStr "signin")].

(** A state after more statements were sent. *)
Definition logged (st : State) (qs : list sql.select) : State :=
  {| Connection := Connection st; OlricCache := OlricCache st;
     Queried := Queried st ++ qs |}.

(** Scenario of the specification: type [blog] owned by user 1 with
    UserRead|UserExecute, action [publish] with [perm]. *)
Definition example_blog (perm : auth.AuthPermission) : State :=
  {| Connection :=
       {[ "user_account" :=
            {| columns := ["id"; "reference_id"];
               rows := [ {[ "id" := VInt 1; "reference_id" := VStr "u-1" ]} ] |};
          "usergroup" := {| columns := ["id"; "reference_id"; "name"]; rows := [] |};
          "world_world_id_has_usergroup_usergroup_id" :=
            {| columns := ["id"; "reference_id"; "world_id"; "usergroup_id"; "permission"];
               rows := [] |};
          "action_action_id_has_usergroup_usergroup_id" :=
            {| columns := ["id"; "reference_id"; "action_id"; "usergroup_id"; "permission"];
               rows := [] |};
          "world" :=
            {| columns := ["id"; "reference_id"; "table_name"; "user_account_id"; "permission"];
               rows := [ {[ "id" := VInt 7; "reference_id" := VStr "w-7";
                            "table_name" := VStr "blog"; "user_account_id" := VInt 1;
                            "permission" := VInt (auth.UserRead .| auth.UserExecute) ]} ] |};
          "action" :=
            {| columns := ["id"; "reference_id"; "action_name"; "user_account_id"; "permission"];
               rows := [ {[ "id" := VInt 3; "reference_id" := VStr "a-3";
                            "action_name" := VStr "publish"; "user_account_id" := VInt 1;
                            "permission" := VInt perm ]} ] |} ]};
     OlricCache := None; Queried := [] |}.

(** What a call returned, the final state set aside. *)
Definition result {A} (o : outcome (A * State)) : outcome A :=
  match o with
  | Ok (a, _) => Ok a
  | Panic msg => Panic msg
  end.

(** Every run of [m] that returns sent only statements that satisfy [P]. *)
Definition logs_only {A} (P : sql.select -> Prop) (m : M A) : Prop :=
  forall st a st', m st = Ok (a, st') ->
    exists l, Queried st' = Queried st ++ l /\ Forall P l.

(** The statements that resolve group memberships. *)
Definition group_resolution (q : sql.select) : Prop :=
  (exists t c v, q = user_groups_query t c v) \/ (exists t i, q = object_groups_query t i).

(** The resource of the [post] table of the examples. *)
Definition example_post_info : TableInfo :=
  {| TableName := "post";
     Columns := [{| ColumnName := "title"; ColumnType := "label"; IsForeignKey := false;
                    ForeignKey := {| DataSource := ""; Namespace := "" |} |}];
     Relations := []; DefaultPermission := auth.DEFAULT_PERMISSION |}.

Definition example_post_resource : DbResource :=
  {| tableInfo := example_post_info;
     Cruds := {[ "post" := example_post_info ]};
     OlricDb := None; AssetFolderCache := ∅ |}.

(** The reference a row is known by: [reference_id], or [id] when the key
    is missing. *)
Definition row_reference (row : Row) : value :=
  match row !! "reference_id" with
  | Some v => v
  | None => index row "id"
  end.

(** The types whose rows get the synthetic guest entry. *)
Definition guest_only (rowType : string) : bool :=
  BeginsWith rowType "file." || String.eqb rowType "none".

(** The plain method or its transactional variant. *)
Definition row_permission (ext : Externals) (tx : bool) (d : DbResource) (row : Row)
  : M PermissionInstance :=
  if tx then GetRowPermissionWithTransaction ext d row else GetRowPermission ext d row.

(** The key the transactional variant caches a row permission under. *)
Definition row_permission_key (ext : Externals) (rowType : string) (row : Row) : string :=
  "row-permission-" +:+ rowType +:+ "-" +:+ sprint_v ext (row_reference row).

(** Candidates in descending order of column [c]. *)
Definition newest_first (c : sql.ident) (envs : list sql.env) : Prop :=
  Sorted (fun x y => sql.order_le (sql.cell y c) (sql.cell x c) = true) envs.

(** No two rows answer to the same integer id. *)
Definition ids_identify (rs : list Row) : Prop :=
  forall i j ri rj z,
    rs !! i = Some ri -> rs !! j = Some rj ->
    sql.sql_eq (index ri "id") (VInt z) = true ->
    sql.sql_eq (index rj "id") (VInt z) = true -> i = j.

(** What a statement with [ORDER BY c DESC LIMIT n] finds: the first [n]
    of its candidates, newest first. *)
Definition newest_of (db : gmap string Table) (q : sql.select) (c : sql.ident) (n : nat)
    (found : list Row) : Prop :=
  exists sc t joined,
    sql.prepare db q = Some sc /\ db !! sql.s_from q = Some t
    /\ Permutation joined (sql.candidates sql.no_literal db q t)
    /\ newest_first c joined
    /\ found = map (sql.project sc q) (take n joined).

(** The to-many relation pass by the side the loaded type is on: the id
    query, the type of the related rows and the row field that is filled. *)
Definition subject_side (d : DbResource) (r : TableRelation) : bool :=
  String.eqb (Subject r) (TableName (tableInfo d)).

Definition related_ids_query (d : DbResource) (r : TableRelation) (referenceId : value)
  : sql.select :=
  if subject_side d r then objects_of_subject_query r referenceId
  else subjects_of_object_query r referenceId.

Definition related_type (d : DbResource) (r : TableRelation) : string :=
  if subject_side d r then GetObject r else GetSubject r.

Definition relation_field (d : DbResource) (r : TableRelation) : string :=
  if subject_side d r then GetObjectName r else GetSubjectName r.

(** The batched load of the related rows. *)
Definition batched_load (ext : Externals) (tx : bool) (depth : nat) (d : DbResource)
    (r : TableRelation) (ids : list Z) : M (list Row * option error) :=
  GetAllObjectsWithWhere_with tx (ResultToArrayOfMap_at ext depth tx)
    (crud d (GetObject r)) (related_type d r)
    [sql.In (sql.I (related_type d r) "id") (map VInt ids)].

(** [row'] is [row] with the reference ids of [includes1] appended to the
    field [name]; the field is created when the row has none. *)
Definition attached (row : Row) (name : string) (includes1 : list Row) (row' : Row) : Prop :=
  exists refs,
    map VStr refs = map (fun incl => index incl "reference_id") includes1
    /\ match row !! name with
       | None => row' = <[name := VStrs refs]> row
       | Some (VStrs old) => row' = <[name := VStrs (old ++ refs)]> row
       | Some _ => includes1 = [] /\ row' = row
       end.

(** No related table has two rows with the same integer id. *)
Definition ids_identify_in (db : gmap string Table) (t : string) : Prop :=
  forall tab, db !! t = Some tab -> ids_identify (rows tab).

(** Authors and their posts, a [has_many] relation through the join table
    [author_author_id_has_post_post_id]: author 1 wrote posts 1, 3 and 2 in
    this order, author 2 wrote none. *)
Definition author_has_posts : TableRelation :=
  {| Subject := "author"; Object := "post"; Relation := "has_many";
     SubjectName := ""; ObjectName := "" |}.

Definition example_author_info : TableInfo :=
  {| TableName := "author";
     Columns := [{| ColumnName := "name"; ColumnType := "label"; IsForeignKey := false;
                    ForeignKey := {| DataSource := ""; Namespace := "" |} |}];
     Relations := [author_has_posts]; DefaultPermission := auth.DEFAULT_PERMISSION |}.

Definition example_author_resource : DbResource :=
  {| tableInfo := example_author_info;
     Cruds := {[ "author" := example_author_info; "post" := example_post_info ]};
     OlricDb := None; AssetFolderCache := ∅ |}.

Definition example_authored_posts : Table :=
  {| columns := ["id"; "reference_id"; "title"];
     rows := [ {[ "id" := VInt 1; "reference_id" := VStr "p-1"; "title" := VStr "one" ]};
               {[ "id" := VInt 2; "reference_id" := VStr "p-2"; "title" := VStr "two" ]};
               {[ "id" := VInt 3; "reference_id" := VStr "p-3"; "title" := VStr "three" ]} ] |}.

Definition example_library : State :=
  {| Connection :=
       {[ "author" :=
            {| columns := ["id"; "reference_id"; "name"];
               rows := [ {[ "id" := VInt 1; "reference_id" := VStr "a-1"; "name" := VStr "Ann" ]};
                         {[ "id" := VInt 2; "reference_id" := VStr "a-2"; "name" := VStr "Bob" ]} ] |};
          "post" := example_authored_posts;
          "author_author_id_has_post_post_id" :=
            {| columns := ["id"; "author_id"; "post_id"; "created_at"];
               rows := [ {[ "id" := VInt 1; "author_id" := VInt 1; "post_id" := VInt 1;
                            "created_at" := VTime 100 ]};
                         {[ "id" := VInt 2; "author_id" := VInt 1; "post_id" := VInt 3;
                            "created_at" := VTime 300 ]};
                         {[ "id" := VInt 3; "author_id" := VInt 1; "post_id" := VInt 2;
                            "created_at" := VTime 200 ]} ] |} ]};
     OlricCache := None; Queried := [] |}.

(** The row of an author as the loader holds it after the column pass. *)
Definition example_author_row (id : Z) (ref name : string) : Row :=
  {[ "__type" := VStr "author"; "id" := VInt id; "reference_id" := VStr ref;
     "name" := VStr name ]}.

(** An author with [n] posts, written one after the other. *)
Definition example_prolific (n : Z) : State :=
  {| Connection :=
       {[ "author" :=
            {| columns := ["id"; "reference_id"; "name"];
               rows := [ {[ "id" := VInt 1; "reference_id" := VStr "a-1"; "name" := VStr "Ann" ]} ] |};
          "post" :=
            {| columns := ["id"; "reference_id"; "title"];
               rows := map (fun i => {[ "id" := VInt i; "reference_id" := VStr ("p-" +:+ pretty i);
                                        "title" := VNil ]}) (seqZ 1 n) |};
          "author_author_id_has_post_post_id" :=
            {| columns := ["id"; "author_id"; "post_id"; "created_at"];
               rows := map (fun i => {[ "id" := VInt i; "author_id" := VInt 1; "post_id" := VInt i;
                                        "created_at" := VTime (1000 + i) ]}) (seqZ 1 n) |} ]};
     OlricCache := None; Queried := [] |}.

(** The example table after the transactional lookup of id 2. *)
Definition example_itr_entry : entry := {| e_value := CString "r-2"; e_ttl := 5 * Minute |}.

Definition example_state_after_itr : State :=
  {| Connection := Connection example_state;
     OlricCache := Some {[ "itr-post-2" := example_itr_entry ]};
     Queried := [select_where "post" ["reference_id"] "id" (VInt 2)] |}.

(** ** Package daptinid: reading a reference id from a database cell *)

Module DaptinIdSql.

(** What [database/sql] hands to a [Scanner]. *)
Inductive driver_value :=
| DNull
| DInt64 (z : Z)
| DString (s : string)
| DBytes (b : list byte).

(** [DaptinReferenceId(asBytes)]: the conversion of a slice to an array
    keeps the first 16 bytes and panics on a shorter slice. *)
Definition to_array (asBytes : list byte) : outcome DaptinId.DaptinReferenceId :=
  if (length asBytes <? 16)%nat
  then Panic ("cannot convert slice with length " +:+ pretty (length asBytes)
              +:+ " to array or pointer to array with length 16")
  else Ok (take 16 asBytes).

(** [func (dr *DaptinReferenceId) Scan(value interface{}) error]: the
    receiver after the call, and the error. *)
Definition Scan (dr : DaptinId.DaptinReferenceId) (value : driver_value)
  : outcome (DaptinId.DaptinReferenceId * option error) :=
  match value with
  | DBytes asBytes =>
      match to_array asBytes with
      | Ok a => Ok (a, None)
      | Panic msg => Panic msg
      end
  | _ => Ok (dr, Some "Conversion failed")
  end.

End DaptinIdSql.

(** ** The web client's store: [daptinweb/src/store/daptin/mutations.js] *)

Module mutations.

Section Store.

(** The values the store holds are opaque to the mutations. *)
Variable V : Type.

Record state := {
  token : V;
  defaultCloudStore : V;
  selectedTable : V;
  tables : gmap string V
}.

(** [export function setToken(state, token)] *)
Definition setToken (st : state) (t : V) : state :=
  {| token := t; defaultCloudStore := defaultCloudStore st;
     selectedTable := selectedTable st; tables := tables st |}.

(** [export function setDefaultCloudStore(state, cloudStore)] *)
Definition setDefaultCloudStore (st : state) (cloudStore : V) : state :=
  {| token := token st; defaultCloudStore := cloudStore;
     selectedTable := selectedTable st; tables := tables st |}.

(** [export function setSelectedTable(state, tableName)]; the console
    output is not part of the state. *)
Definition setSelectedTable (st : state) (tableName : V) : state :=
  {| token := token st; defaultCloudStore := defaultCloudStore st;
     selectedTable := tableName; tables := tables st |}.

(** [Vue.set(state.tables, tableName, tables[tableName])] *)
Definition Vue_set (st : state) (tableName : string) (v : V) : state :=
  {| token := token st; defaultCloudStore := defaultCloudStore st;
     selectedTable := selectedTable st; tables := <[tableName := v]> (tables st) |}.

(** [export function setTables(state, tables)]: [for (var tableName in tables)]
    visits the keys of [tables] in the order of its listing. *)
Definition setTables (st : state) (ts : gmap string V) : state :=
  foldl (fun st kv => Vue_set st kv.1 kv.2) st (map_to_list ts).

End Store.

Arguments token {V} _.
Arguments defaultCloudStore {V} _.
Arguments selectedTable {V} _.
Arguments tables {V} _.
Arguments setToken {V} _ _.
Arguments setDefaultCloudStore {V} _ _.
Arguments setSelectedTable {V} _ _.
Arguments Vue_set {V} _ _ _.
Arguments setTables {V} _ _.

End mutations.

(** A statement the server can prepare: its tables and columns exist. *)
Definition prepares (db : gmap string Table) (q : sql.select) : Prop :=
  is_Some (sql.query db q).

(** The example table after a plain lookup of the missing id 9, and after
    a plain lookup of the missing reference [r-9]. *)
Definition example_state_after_miss : State :=
  {| Connection := Connection example_state;
     OlricCache := Some {[ "itr-post-9" := {| e_value := CString ""; e_ttl := 1 * Minute |} ]};
     Queried := [select_where "post" ["reference_id"] "id" (VInt 9)] |}.

Definition example_state_after_reference_miss : State :=
  {| Connection := Connection example_state;
     OlricCache := Some {[ "riti-post-r-9" := {| e_value := CInt64 0; e_ttl := 5 * Minute |} ]};
     Queried := [select_where "post" ["id"] "reference_id" (VStr "r-9")] |}.

(** The example table without a cache. *)
Definition example_state_uncached : State :=
  {| Connection := Connection example_state; OlricCache := None; Queried := [] |}.

(** The state after [if OlricCache == nil { OlricCache, _ = dbResource.OlricDb.NewDMap(...) }]. *)
Definition with_cache_of (d : DbResource) (st : State) : State :=
  match OlricCache st with
  | Some _ => st
  | None => set_OlricCache st (OlricDb d)
  end.

(** The statement and the two cache keys of the permission lookup by a
    where clause. *)
Definition permission_where_query (objectType colName colValue : string) : sql.select :=
  select_where objectType [USER_ACCOUNT_ID_COLUMN; "permission"; "id"] colName (VStr colValue).

Definition permission_where_key (tx : bool) (objectType colName colValue : string) : string :=
  (if tx then "object-permission-" else "")
    +:+ objectType +:+ "_" +:+ colName +:+ "_" +:+ colValue.

Definition permission_by_where (tx : bool) (d : DbResource)
    (objectType colName colValue : string) : M PermissionInstance :=
  if tx then GetObjectPermissionByWhereClauseWithTransaction d objectType colName colValue
  else GetObjectPermissionByWhereClause d objectType colName colValue.

(** The blog scenario after the permission of [blog] was looked up. *)
Definition example_blog_after_lookup : State :=
  match permission_by_where false example_resource "world" "table_name" "blog"
          (example_blog auth.UserExecute) with
  | Ok (_, st) => st
  | Panic _ => example_blog auth.UserExecute
  end.

(** A resource that knows the [usergroup] table. *)
Definition example_usergroup_info : TableInfo :=
  {| TableName := "usergroup"; Columns := []; Relations := [];
     DefaultPermission := auth.DEFAULT_PERMISSION |}.

Definition example_usergroup_resource : DbResource :=
  {| tableInfo := example_usergroup_info;
     Cruds := {[ "usergroup" := example_usergroup_info ]};
     OlricDb := None; AssetFolderCache := ∅ |}.

(** A database with one group, and a cache. *)
Definition example_groups : State :=
  {| Connection :=
       {[ "usergroup" :=
            {| columns := ["id"; "reference_id"; "name"];
               rows := [ {[ "id" := VInt 1; "reference_id" := VStr "g-1";
                            "name" := VStr "users" ]} ] |} ]};
     OlricCache := Some ∅; Queried := [] |}.

(** The permissions [BecomeAdmin] gives the rows of [world]: audit tables
    are those whose name matches [%_audit]. *)
Definition world_permission (table_name : string) : auth.AuthPermission :=
  if sql.sql_like (VStr table_name) "%_audit"
  then auth.UserCreate .| auth.GroupCreate
  else auth.DEFAULT_PERMISSION.

Definition world_default_permission (table_name : string) : auth.AuthPermission :=
  if sql.sql_like (VStr table_name) "%_audit"
  then auth.UserRead .| auth.GroupRead
  else auth.DEFAULT_PERMISSION.

(** Every row of table [t] holds [v] in column [c]. *)
Definition all_rows (db : gmap string Table) (t c : string) (v : value) : Prop :=
  forall tab r, db !! t = Some tab -> r ∈ rows tab -> index r c = v.

(** Every row of table [t] belongs to user [userId]. *)
Definition owned_by (db : gmap string Table) (t : string) (userId : Z) : Prop :=
  all_rows db t USER_ACCOUNT_ID_COLUMN (VInt userId).

(** Table [t] exists with the columns [cs]. *)
Definition has_columns (db : gmap string Table) (t : string) (cs : list string) : Prop :=
  exists tab, db !! t = Some tab /\ Forall (fun c => c ∈ columns tab) cs.

(** What a [return] from inside the loops carries: no row, no include
    list and an error. *)
Definition failed (r : Loaded) : Prop := r.1 = ([], []) /\ r.2 <> None.

(** A table whose declared columns are neither foreign keys nor dates. *)
Definition plain_columns (columnMap : gmap string ColumnInfo) : Prop :=
  forall key columnInfo, columnMap !! key = Some columnInfo ->
    IsForeignKey columnInfo = false /\ ColumnType columnInfo <> "datetime".

(** No declared relation of the table is asked for. *)
Definition none_requested (d : DbResource) (inc : gmap string bool) : Prop :=
  forall relation, relation ∈ Relations (tableInfo d) ->
    included inc (GetObjectName relation) || included inc (GetSubjectName relation) = false.







(** ** Whole tables, single rows and lists of ids *)

(** [Select(cs...).From(typeName)] with one [Where] for each of the queries. *)
Definition select_columns (typeName : string) (cs : list string) (queries : list sql.cond)
  : sql.select :=
  {| sql.s_cols := Some (map (fun c => (sql.I typeName c, c)) cs);
     sql.s_from := typeName; sql.s_alias := typeName; sql.s_joins := [];
     sql.s_where := queries;
     sql.s_order := None; sql.s_limit := None |}.

(** [for res.Next() { var s T; err := res.Scan(&s); if err != nil { return nil, err }; ret = append(ret, s) }; return ret, err] *)
Fixpoint scan_rows {A} (scan : value -> A * option error) (c : string)
    (ret : list A) (res : list Row) : list A * option error :=
  match res with
  | [] => (ret, None)
  | r :: rest =>
      match scan (index r c) with
      | (_, Some e) => ([], Some e)
      | (s, None) => scan_rows scan c (ret ++ [s]) rest
      end
  end.

(** [func (dbResource *DbResource) GetReferenceIdByWhereClause(typeName string, queries ...goqu.Ex) ([]string, error)] *)
Definition GetReferenceIdByWhereClause (typeName : string) (queries : list sql.cond)
  : M (list string * option error) :=
  rs ← Queryx (select_columns typeName ["reference_id"] queries);
  match rs with
  | None => mret ([], Some "failed to prepare statement")
  | Some res => mret (scan_rows scan_string "reference_id" [] res)
  end.

(** [func (dbResource *DbResource) GetIdByWhereClause(typeName string, queries ...goqu.Ex) ([]int64, error)] *)
Definition GetIdByWhereClause (typeName : string) (queries : list sql.cond)
  : M (list Z * option error) :=
  rs ← Queryx (select_columns typeName ["id"] queries);
  match rs with
  | None => mret ([], Some "failed to prepare statement")
  | Some res => mret (scan_rows scan_int64 "id" [] res)
  end.

(** [err = rows.Scan(&id1, &id2)]: the destinations are filled in order; the
    first failure ends the scan and leaves the later ones at their zero
    value. *)
Definition scan_pair {A B} (scanA : value -> A * option error)
    (scanB : value -> B * option error) (zeroB : B) (a b : value) : A * B * option error :=
  match scanA a with
  | (x, Some e) => (x, zeroB, Some e)
  | (x, None) => let '(y, e) := scanB b in (x, y, e)
  end.

(** [for rows.Next() { var id1 int64; var id2 string; err = rows.Scan(&id1, &id2); idMap[id2] = id1 }]:
    the entry is written whatever the scan says, and the error of the last
    row is the one that is kept. *)
Definition fill_id_map (rows : list Row) : gmap string Z * option error :=
  foldl (fun (acc : gmap string Z * option error) r =>
           let '(id1, id2, err) :=
             scan_pair scan_int64 scan_string "" (index r "id") (index r "reference_id") in
           (<[id2 := id1]> acc.1, err))
        (∅, None) rows.

Definition fill_reference_map (rows : list Row) : gmap Z string * option error :=
  foldl (fun (acc : gmap Z string * option error) r =>
           let '(id1, id2, err) :=
             scan_pair scan_string scan_int64 0 (index r "reference_id") (index r "id") in
           (<[id2 := id1]> acc.1, err))
        (∅, None) rows.

(** [func (dbResource *DbResource) GetReferenceIdListToIdList(typeName string, referenceId []string) (map[string]int64, error)];
    [GetReferenceIdListToIdListWithTransaction] has the same body on the
    transaction. *)
Definition GetReferenceIdListToIdList (typeName : string) (referenceId : list string)
  : M (gmap string Z * option error) :=
  rs ← Queryx (select_columns typeName ["id"; "reference_id"]
                 [sql.In (sql.I typeName "reference_id") (map VStr referenceId)]);
  match rs with
  | None => mret (∅, Some "failed to prepare statement")
  | Some rows => mret (fill_id_map rows)
  end.

Definition GetReferenceIdListToIdListWithTransaction := GetReferenceIdListToIdList.

(** [func (dbResource *DbResource) GetIdListToReferenceIdList(typeName string, ids []int64) (map[int64]string, error)] *)
Definition GetIdListToReferenceIdList (typeName : string) (ids : list Z)
  : M (gmap Z string * option error) :=
  rs ← Queryx (select_columns typeName ["reference_id"; "id"]
                 [sql.In (sql.I typeName "id") (map VInt ids)]);
  match rs with
  | None => mret (∅, Some "failed to prepare statement")
  | Some rows => mret (fill_reference_map rows)
  end.

(** [func (dbResource *DbResource) GetAllRawObjects(typeName string) ([]map[string]interface{}, error)]
    and [GetAllRawObjectsWithTransaction]: the deferred [stmt1.Close()] is
    registered before the error of [Preparex] is looked at, so a failed
    prepare ends in a nil dereference. *)
Definition GetAllRawObjects (ext : Externals) (typeName : string)
  : M (list Row * option error) :=
  rs ← Queryx (select_star typeName []);
  match rs with
  | None => panic "invalid memory address or nil pointer dereference"
  | Some row => mret (RowsToMap ext row typeName)
  end.

Definition GetAllRawObjectsWithTransaction := GetAllRawObjects.

(** [Delete(t)] through [Exec]: every row goes; the statement fails on an
    unknown table. *)
Definition exec_delete (db : gmap string Table) (t : string) : option (gmap string Table) :=
  match db !! t with
  | Some tab => Some (<[t := {| columns := columns tab; rows := [] |}]> db)
  | None => None
  end.

Definition Exec_delete (t : string) : M (option error) :=
  st ← get_state;
  match exec_delete (Connection st) t with
  | Some db' =>
      _ ← put_state (set_Connection st db');
      mret None
  | None => mret (Some "exec failed")
  end.

(** The table [TruncateTable] empties first on account of one relation:
    the object of a [belongs_to] or [has_one] relation whose subject is
    another table, the join table of a to-many relation. *)
Definition truncated_for (tableName : string) (rel : TableRelation) : option string :=
  if String.eqb (Relation rel) "belongs_to" || String.eqb (Relation rel) "has_one" then
    if String.eqb (Subject rel) tableName then None else Some (Object rel)
  else if String.eqb (Relation rel) "has_many"
          || String.eqb (Relation rel) "has_many_and_belongs_to_many" then
    Some (GetJoinTableName rel)
  else None.

(** [for _, rel := range dbResource.tableInfo.Relations { ...; CheckErr(err, ...); err = nil }]:
    the nested call skips the relations and its error is only logged. *)
Fixpoint truncate_related (tableName : string) (rels : list TableRelation) : M unit :=
  match rels with
  | [] => mret tt
  | rel :: rest =>
      _ ← match truncated_for tableName rel with
          | Some t => Exec_delete t
          | None => mret None
          end;
      truncate_related tableName rest
  end.

(** [func (dbResource *DbResource) TruncateTable(typeName string, skipRelations bool) error] *)
Definition TruncateTable (d : DbResource) (typeName : string) (skipRelations : bool)
  : M (option error) :=
  _ ← (if skipRelations then mret tt
       else truncate_related (TableName (tableInfo d)) (Relations (tableInfo d)));
  Exec_delete typeName.

(** The tables a call of [TruncateTable] sends a DELETE for. *)
Definition truncated (d : DbResource) (typeName : string) (skipRelations : bool) : list string :=
  typeName ::
  (if skipRelations then []
   else omap (truncated_for (TableName (tableInfo d))) (Relations (tableInfo d))).

Section Tables.

Variable ext : Externals.

(** The end of the single-row loaders:
    [if err != nil { return nil, nil, err }; if len(resultRows) < 1 { return nil, nil, fmt.Errorf(...) };
     m := resultRows[0]; n := includeRows[0]; return m, n, err] *)
Definition first_loaded (msg : string) (l : Loaded)
  : outcome (option Row * list Row * option error) :=
  match l with
  | (_, _, Some e) => Ok (None, [], Some e)
  | ([], _, None) => Ok (None, [], Some msg)
  | (m :: _, n :: _, None) => Ok (Some m, n, None)
  | (_ :: _, [], None) => Panic "index out of range [0] with length 0"
  end.

(** The single-row loaders share their body.  They differ in the where
    clause, in the message, and in whether the deferred [stmt1.Close()] is
    registered before the error of [Preparex] is looked at ([close_first]:
    a failed prepare then ends in a nil dereference). *)
Definition single_row (tx close_first : bool) (d : DbResource) (typeName : string)
    (c : sql.cond) (includedRelations : gmap string bool) (msg : string)
  : M (option Row * list Row * option error) :=
  rs ← Queryx (select_star typeName [c]);
  match rs with
  | None =>
      if close_first then panic "invalid memory address or nil pointer dereference"
      else mret (None, [], Some "failed to prepare statement")
  | Some rows =>
      m ← lift (crud_model d typeName);
      l ← ResultToArrayOfMap_at ext 1 tx d rows (GetColumnMap m) includedRelations;
      lift (first_loaded msg l)
  end.

(** [func (dbResource *DbResource) GetSingleRowByReferenceId(typeName string, referenceId string, includedRelations map[string]bool) (map[string]interface{}, []map[string]interface{}, error)] *)
Definition GetSingleRowByReferenceId (d : DbResource) (typeName referenceId : string)
    (includedRelations : gmap string bool) :=
  single_row false false d typeName (sql.Eq (sql.I typeName "reference_id") (VStr referenceId))
    includedRelations
    ("897 no such entity [" +:+ typeName +:+ "][" +:+ referenceId +:+ "]").

Definition GetSingleRowByReferenceIdWithTransaction (d : DbResource)
    (typeName referenceId : string) (includedRelations : gmap string bool) :=
  single_row true true d typeName (sql.Eq (sql.I typeName "reference_id") (VStr referenceId))
    includedRelations
    ("897 no such entity [" +:+ typeName +:+ "][" +:+ referenceId +:+ "]").

(** [func (dbResource *DbResource) GetSingleRowById(typeName string, id int64, includedRelations map[string]bool) (map[string]interface{}, []map[string]interface{}, error)] *)
Definition GetSingleRowById (d : DbResource) (typeName : string) (id : Z)
    (includedRelations : gmap string bool) :=
  single_row false true d typeName (sql.Eq (sql.I typeName "id") (VInt id))
    includedRelations
    ("923 no such entity [" +:+ typeName +:+ "][" +:+ pretty id +:+ "]").

(** [func (dbResource *DbResource) GetObjectByWhereClause(typeName string, column string, val interface{}) (map[string]interface{}, error)]
    ([tx = false]) and [GetObjectByWhereClauseWithTransaction]. *)
Definition GetObjectByWhereClause_gen (tx : bool) (d : DbResource)
    (typeName column : string) (val : value) : M (option Row * option error) :=
  rs ← Queryx (select_star typeName [sql.Eq (sql.I typeName column) val]);
  match rs with
  | None => panic "invalid memory address or nil pointer dereference"
  | Some row =>
      m ← lift (crud_model d typeName);
      '(m, _, err) ← ResultToArrayOfMap_at ext 1 tx d row (GetColumnMap m) ∅;
      match m with
      | [] => mret (None, Some ("no [" +:+ column +:+ "=" +:+ sprint_v ext val +:+ "] object found"))
      | m0 :: _ => mret (Some m0, err)
      end
  end.

Definition GetObjectByWhereClause := GetObjectByWhereClause_gen false.
Definition GetObjectByWhereClauseWithTransaction := GetObjectByWhereClause_gen true.

(** [func (dbResource *DbResource) GetAllObjects(typeName string) ([]map[string]interface{}, error)]:
    the loader runs on the receiver, not on [dbResource.Cruds[typeName]]. *)
Definition GetAllObjects (d : DbResource) (typeName : string) : M (list Row * option error) :=
  rs ← Queryx (select_star typeName []);
  match rs with
  | None => panic "invalid memory address or nil pointer dereference"
  | Some row =>
      m ← lift (crud_model d typeName);
      '(m, _, err) ← ResultToArrayOfMap_at ext 1 false d row (GetColumnMap m) ∅;
      mret (m, err)
  end.

End Tables.

(** The rows of a table that a where clause keeps, in storage order. *)
Definition kept (typeName : string) (queries : list sql.cond) (tab : Table) : list Row :=
  List.filter (fun r => forallb (sql.holds sql.no_literal 0%nat [(typeName, r)]) queries)
    (rows tab).

(** All rows of a table carry an integer id and a text reference id. *)
Definition keyed (tab : Table) : Prop :=
  forall r, r ∈ rows tab ->
    exists id ref, index r "id" = VInt id /\ index r "reference_id" = VStr ref.

(** What a single-row loader answers when the loader behind it returned
    [l] for the rows of the statement: the first row with its includes and
    no error, or nothing and an error, the one of the loader or [msg] when
    the statement found no row. *)
Definition first_answer (res : outcome ((option Row * list Row * option error) * State))
    (msg : string) (rows : list Row) (l : Loaded) (st1 : State) : Prop :=
  exists row incl e,
    res = Ok ((row, incl, e), st1)
    /\ match e with
       | None => rows <> [] /\ l.2 = None /\ row = head l.1.1 /\ Some incl = head l.1.2
                 /\ is_Some row
       | Some e' => row = None /\ incl = [] /\ (l.2 = Some e' \/ (rows = [] /\ e' = msg))
       end.

(** A table without its rows, and a database after [Delete(t)]. *)
Definition without_rows (tab : Table) : Table := {| columns := columns tab; rows := [] |}.



Definition example_second_post : Row :=
  sql.star example_posts {[ "id" := VInt 2; "reference_id" := VStr "r-2" ]}.

Definition example_second_post_loaded : Row :=
  <["__type" := VStr "post"]> example_second_post.

(** The rows [GetRandomRow] selects: in storage order, the first [count]
    rows whose id is at least the value the server computes for the raw
    fragment at that row. *)
Definition random_selection (lit : string -> nat -> value) (frag : string) (count : nat)
    (tab : Table) : list Row :=
  take count
    (map snd (List.filter (fun nr : nat * Row => sql.sql_ge (index nr.2 "id") (lit frag nr.1))
                (imap (fun n r => (n, r)) (rows tab)))).

(** * Properties *)

(** ** The reference identifier *)

Section DaptinIdFacts.
Import DaptinId.

Lemma copy_full (dst src : list byte) :
  length dst = length src -> copy dst src = src.
Proof.
  intros Hlen. unfold copy. rewrite Hlen, Nat.min_id.
  rewrite <- Hlen at 2. rewrite drop_all, app_nil_r.
  apply firstn_all.
Qed.

Lemma UnmarshalBinary_well_sized d data :
  well_sized d -> well_sized (UnmarshalBinary d data).1.
Proof.
  unfold UnmarshalBinary, well_sized. intros Hd.
  destruct (Nat.eqb_spec (length data) 16) as [Hn|Hn]; simpl; [|done].
  rewrite copy_full; congruence.
Qed.

End DaptinIdFacts.


Section DaptinIdRoundTrip.
Import DaptinId.

(** C9: for every 16-byte reference id [d], [MarshalBinary d] reports no
    error and [UnmarshalBinary] applied to its bytes succeeds and leaves
    the receiver equal to [d]; on any input [UnmarshalBinary] returns an
    error exactly when the input is not 16 bytes long, and then the
    receiver is unchanged. *)
Theorem C9_binary_round_trip (d r : DaptinReferenceId) (data : list byte) :
  well_sized d -> well_sized r ->
  (MarshalBinary d).2 = None
  /\ UnmarshalBinary r (MarshalBinary d).1 = (d, None)
  /\ ((UnmarshalBinary r data).2 <> None <-> length data <> 16%nat)
  /\ (length data <> 16%nat -> (UnmarshalBinary r data).1 = r).
Proof.
  intros Hd Hr. unfold well_sized in *.
  split; [reflexivity|]. split.
  - unfold UnmarshalBinary, MarshalBinary. simpl.
    rewrite Hd, Nat.eqb_refl. simpl. rewrite copy_full; [reflexivity | lia].
  - unfold UnmarshalBinary.
    destruct (Nat.eqb_spec (length data) 16) as [Hn|Hn]; simpl.
    + split; [split; intros H; [by destruct H | by destruct H] | intros H; by destruct H].
    + split; [split; intros H; [exact Hn | discriminate] | reflexivity].
Qed.

Lemma C9_binary_round_trip_witness :
  let d := repeat x2a 16 in
  (MarshalBinary d).2 = None
  /\ UnmarshalBinary NullReferenceId (MarshalBinary d).1 = (d, None)
  /\ ((UnmarshalBinary NullReferenceId [x01; x02]).2 <> None <-> length [x01; x02] <> 16%nat)
  /\ (length [x01; x02] <> 16%nat -> (UnmarshalBinary NullReferenceId [x01; x02]).1 = NullReferenceId).
Proof.
  apply (C9_binary_round_trip (repeat x2a 16) NullReferenceId [x01; x02]); reflexivity.
Defined.

End DaptinIdRoundTrip.

(** ** Running the state-and-panic monad *)

Ltac unfold_M :=
  unfold mbind, M_bind, mret, M_ret, lift, panic, get_state, put_state,
    Queryx, Queryx_with in *.

Lemma bind_Ok {A B} (m : M A) (f : A -> M B) st b st' :
  (m ≫= f) st = Ok (b, st') ->
  exists a st1, m st = Ok (a, st1) /\ f a st1 = Ok (b, st').
Proof.
  unfold mbind, M_bind. destruct (m st) as [[a st1]|msg]; [|discriminate].
  intros H. by exists a, st1.
Qed.

Lemma cache_lookup_Ok k st r st' :
  cache_lookup k st = Ok (r, st') ->
  st' = st /\ r = e_value <$> cache_of st !! k.
Proof.
  unfold cache_lookup, cache_of, OlricCache_Get. unfold_M.
  intros [= <- <-]. split; [done|].
  destruct (OlricCache st); simpl; [done|]. by rewrite lookup_empty.
Qed.

Lemma Queryx_Ok q st r st' :
  Queryx q st = Ok (r, st') ->
  r = sql.query (Connection st) q
  /\ Connection st' = Connection st /\ OlricCache st' = OlricCache st
  /\ Queried st' = Queried st ++ [q].
Proof. unfold_M. by intros [= <- <-]. Qed.

(** ** Time-to-live of the identity entries *)

Lemma cache_store_new k v ttl st r st' k' e :
  cache_store k v ttl st = Ok (r, st') ->
  new_entry st st' k' e ->
  k' = k /\ e_ttl e = ttl.
Proof.
  unfold cache_store, new_entry, cache_of, OlricCache_PutIfEx. unfold_M.
  destruct st as [db [c|] l]; simpl.
  - destruct (c !! k) as [old|] eqn:Hk; simpl.
    + intros [= <- <-]. simpl. intros [H1 H2]. congruence.
    + intros [= <- <-]. simpl. intros [H1 H2].
      destruct (decide (k = k')) as [<-|Hne].
      * rewrite lookup_insert_eq in H2. by injection H2 as <-.
      * rewrite lookup_insert_ne in H2 by done. congruence.
  - intros [= <- <-]. simpl. intros [H1 H2]. congruence.
Qed.

Lemma same_cache_no_new st st' k e :
  OlricCache st' = OlricCache st -> ~ new_entry st st' k e.
Proof. unfold new_entry, cache_of. intros ->. intros [H1 H2]. congruence. Qed.

Lemma new_entry_same_cache st1 st2 st' k e :
  OlricCache st2 = OlricCache st1 -> new_entry st1 st' k e -> new_entry st2 st' k e.
Proof. unfold new_entry, cache_of. by intros ->. Qed.

Lemma IdToRef_new_entry t i st r st' k e :
  GetIdToReferenceId t i st = Ok (r, st') ->
  new_entry st st' k e -> k = itr_key t i /\ e_ttl e = 1 * Minute.
Proof.
  unfold GetIdToReferenceId. intros H Hnew.
  apply bind_Ok in H as (hit & st1 & Hhit & H).
  apply cache_lookup_Ok in Hhit as [-> ->].
  destruct (cache_of st !! itr_key t i) as [old|] eqn:Hk; simpl in H.
  - apply bind_Ok in H as (s & st1 & Hs & H). unfold_M.
    destruct (cached_string (e_value old)); [|discriminate].
    injection Hs as <- <-. injection H as <- <-.
    by apply (same_cache_no_new st st k e) in Hnew.
  - apply bind_Ok in H as (rs & st1 & Hq & H).
    apply Queryx_Ok in Hq as (-> & Hdb & Hc & Hl).
    destruct (sql.query (Connection st) _) as [rs|].
    + destruct (scan_first scan_string "" "reference_id" rs) as [str err].
      apply bind_Ok in H as (u & st2 & Hput & H). unfold_M. injection H as <- <-.
      eapply cache_store_new; [exact Hput|]. by apply (new_entry_same_cache st).
    + unfold_M. injection H as <- <-.
      by apply (same_cache_no_new st st1 k e) in Hnew.
Qed.

Lemma IdToRefTx_new_entry t i st r st' k e :
  GetIdToReferenceIdWithTransaction t i st = Ok (r, st') ->
  new_entry st st' k e -> k = itr_key t i /\ e_ttl e = 5 * Minute.
Proof.
  unfold GetIdToReferenceIdWithTransaction. intros H Hnew.
  apply bind_Ok in H as (hit & st1 & Hhit & H).
  apply cache_lookup_Ok in Hhit as [-> ->].
  destruct (cache_of st !! itr_key t i) as [old|] eqn:Hk; simpl in H.
  - apply bind_Ok in H as (s & st1 & Hs & H). unfold_M.
    destruct (cached_string (e_value old)); [|discriminate].
    injection Hs as <- <-. injection H as <- <-.
    by apply (same_cache_no_new st st k e) in Hnew.
  - apply bind_Ok in H as (rs & st1 & Hq & H).
    apply Queryx_Ok in Hq as (-> & Hdb & Hc & Hl).
    destruct (sql.query (Connection st) _) as [rs|].
    + destruct (scan_first scan_string "" "reference_id" rs) as [str err].
      apply bind_Ok in H as (st2 & st3 & Hget & H).
      unfold get_state in Hget. injection Hget as <- <-.
      destruct (OlricCache st1) eqn:Hc1.
      * apply bind_Ok in H as (u & st2 & Hput & H). unfold_M. injection H as <- <-.
        eapply cache_store_new; [exact Hput|].
        apply (new_entry_same_cache st); [congruence|done].
      * unfold_M. injection H as <- <-.
        apply (same_cache_no_new st st1 k e) in Hnew; [done|congruence].
    + unfold_M. injection H as <- <-.
      by apply (same_cache_no_new st st1 k e) in Hnew.
Qed.

Lemma RefToId_new_entry t ref st r st' k e :
  GetReferenceIdToId t ref st = Ok (r, st') ->
  new_entry st st' k e -> k = riti_key t ref /\ e_ttl e = 5 * Minute.
Proof.
  unfold GetReferenceIdToId. intros H Hnew.
  apply bind_Ok in H as (hit & st1 & Hhit & H).
  apply cache_lookup_Ok in Hhit as [-> ->].
  destruct (cache_of st !! riti_key t ref) as [old|] eqn:Hk; simpl in H.
  - apply bind_Ok in H as (s & st1 & Hs & H). unfold_M.
    destruct (cached_int64 (e_value old)); [|discriminate].
    injection Hs as <- <-. injection H as <- <-.
    by apply (same_cache_no_new st st k e) in Hnew.
  - apply bind_Ok in H as (rs & st1 & Hq & H).
    apply Queryx_Ok in Hq as (-> & Hdb & Hc & Hl).
    destruct (sql.query (Connection st) _) as [rs|].
    + destruct (scan_first scan_int64 0 "id" rs) as [id err].
      apply bind_Ok in H as (u & st2 & Hput & H). unfold_M. injection H as <- <-.
      eapply cache_store_new; [exact Hput|]. by apply (new_entry_same_cache st).
    + unfold_M. injection H as <- <-.
      by apply (same_cache_no_new st st1 k e) in Hnew.
Qed.

Lemma RefToIdTx_new_entry t ref st r st' k e :
  GetReferenceIdToIdWithTransaction t ref st = Ok (r, st') ->
  new_entry st st' k e -> k = riti_key t ref /\ e_ttl e = 1 * Hour.
Proof.
  unfold GetReferenceIdToIdWithTransaction. intros H Hnew.
  apply bind_Ok in H as (hit & st1 & Hhit & H).
  apply cache_lookup_Ok in Hhit as [-> ->].
  destruct (cache_of st !! riti_key t ref) as [old|] eqn:Hk; simpl in H.
  - apply bind_Ok in H as (s & st1 & Hs & H). unfold_M.
    destruct (cached_int64 (e_value old)); [|discriminate].
    injection Hs as <- <-. injection H as <- <-.
    by apply (same_cache_no_new st st k e) in Hnew.
  - apply bind_Ok in H as (rs & st1 & Hq & H).
    apply Queryx_Ok in Hq as (-> & Hdb & Hc & Hl).
    destruct (sql.query (Connection st) _) as [rs|].
    + destruct (scan_first scan_int64 0 "id" rs) as [id [err|]].
      * apply bind_Ok in H as (u & st2 & Hput & H). unfold_M.
        injection Hput as <- <-. injection H as <- <-.
        by apply (same_cache_no_new st st1 k e) in Hnew.
      * apply bind_Ok in H as (u & st2 & Hput & H). unfold_M. injection H as <- <-.
        eapply cache_store_new; [exact Hput|]. by apply (new_entry_same_cache st).
    + unfold_M. injection H as <- <-.
      by apply (same_cache_no_new st st1 k e) in Hnew.
Qed.

(** C6 (as the code has it): every entry an identity lookup adds to the
    cache sits under the key of that lookup, [itr-<type>-<id>] or
    [riti-<type>-<ref>], and carries the time-to-live [lookup_ttl]: one
    minute for the plain id-to-reference lookup and five minutes for its
    transactional variant, five minutes for the plain reference-to-id
    lookup and one hour for its transactional variant. *)
Theorem C6_lookup_ttl (op : lookup) (st st' : State) (k : string) (e : entry) :
  run_lookup op st = Ok (tt, st') ->
  new_entry st st' k e ->
  k = lookup_key op /\ e_ttl e = lookup_ttl op.
Proof.
  intros H Hnew.
  destruct op as [[|] t i|[|] t r]; simpl in *;
    apply bind_Ok in H as (x & st1 & Hrun & H);
    unfold mret, M_ret in H; injection H as <-.
  - eapply IdToRefTx_new_entry; eauto.
  - eapply IdToRef_new_entry; eauto.
  - eapply RefToIdTx_new_entry; eauto.
  - eapply RefToId_new_entry; eauto.
Qed.

Lemma C6_lookup_ttl_witness :
  "itr-post-2" = lookup_key (IdToRef true "post" 2)
  /\ e_ttl example_itr_entry = lookup_ttl (IdToRef true "post" 2).
Proof.
  apply (C6_lookup_ttl (IdToRef true "post" 2) example_state example_state_after_itr).
  - vm_compute. reflexivity.
  - split; vm_compute; reflexivity.
Defined.

(** C6 as stated fails: the transactional id-to-reference lookup puts its
    entry with five minutes, not the documented one minute. *)
Lemma C6_documented_ttl_counterexample :
  ~ (forall op st st' k e,
        run_lookup op st = Ok (tt, st') -> new_entry st st' k e ->
        e_ttl e = documented_ttl op).
Proof.
  intros Hall.
  specialize (Hall (IdToRef true "post" 2) example_state example_state_after_itr
                 "itr-post-2" example_itr_entry).
  assert (Hrun : run_lookup (IdToRef true "post" 2) example_state
                 = Ok (tt, example_state_after_itr)) by (vm_compute; reflexivity).
  assert (Hnew : new_entry example_state example_state_after_itr "itr-post-2" example_itr_entry)
    by (split; vm_compute; reflexivity).
  specialize (Hall Hrun Hnew). vm_compute in Hall. discriminate.
Qed.

(** ** The password.reset.verify performer *)

Section ResetVerifyFacts.

Variable ext : Externals.
Variable base64_DecodeString : string -> string * option error.
Variable jwt_Parse : string -> string -> jwt_result.

(** C10 (as the code has it): when the account lookup completes and either
    finds no account (or fails with an error) or the [token] field holds a
    string, [DoAction] returns a nil responder, no errors and exactly one
    [client.notify] response, whose attributes are those of the case at
    hand: account not found, token not base64, token invalid or expired,
    token valid. *)
Theorem C10_reset_verify_notifies (d : generatePasswordResetVerifyActionPerformer)
    (inFieldMap : Row) (st st1 : State) (users : list Row) (incl : list (list Row))
    (err : option error) (token : string) :
  find_account ext d inFieldMap st = Ok ((users, incl, err), st1) ->
  (err <> None \/ users = [] \/ index inFieldMap "token" = VStr token) ->
  exists r,
    DoAction ext base64_DecodeString jwt_Parse d inFieldMap st = Ok ((None, [r], []), st1)
    /\ ResponseType r = "client.notify"
    /\ Attributes r =
         case_notification base64_DecodeString jwt_Parse (secret d)
           (bool_decide (err = None) && negb (bool_decide (users = []))) token.
Proof.
  unfold find_account, DoAction. intros Hfind Hcase.
  unfold mbind at 1. unfold M_bind. rewrite Hfind.
  destruct err as [e|].
  - simpl. eexists. split; [reflexivity|]. split; reflexivity.
  - destruct users as [|u us].
    + simpl. eexists. split; [reflexivity|]. split; reflexivity.
    + destruct Hcase as [Hc|[Hc|Hc]]; [done|done|].
      rewrite bool_decide_eq_false_2 by (intros [x Hx]; discriminate).
      simpl. rewrite Hc. unfold_M. simpl.
      unfold case_notification. simpl.
      destruct (base64_DecodeString token) as [tokenString [e|]].
      * eexists. split; [reflexivity|]. split; reflexivity.
      * destruct (jwt_Parse tokenString (secret d)) as [e|[|]];
          (eexists; split; [reflexivity|]; split; reflexivity).
Qed.

End ResetVerifyFacts.

Lemma C10_reset_verify_notifies_witness :
  exists r,
    DoAction example_externals (fun s => (s, None)) (fun _ _ => Parsed true)
      example_performer {[ "email" := VStr "a@x"; "token" := VStr "abc" ]} example_accounts
    = Ok ((None, [r], []),
          {| Connection := Connection example_accounts; OlricCache := None;
             Queried := [select_star "user_account"
                           [sql.Eq (sql.I "user_account" "email") (VStr "a@x")]] |})
    /\ ResponseType r = "client.notify"
    /\ Attributes r = notification "success" "Logged in" "Success".
Proof.
  apply (C10_reset_verify_notifies example_externals (fun s => (s, None)) (fun _ _ => Parsed true)
           example_performer {[ "email" := VStr "a@x"; "token" := VStr "abc" ]}
           example_accounts _
           [ {[ "__type" := VStr "user_account"; "id" := VInt 1;
                "reference_id" := VStr "u-1"; "email" := VStr "a@x" ]} ]
           [[]] None "abc").
  - vm_compute. reflexivity.
  - right. right. vm_compute. reflexivity.
Defined.

(** C10 as stated fails: with a registered account and no [token] field the
    assertion [token.(string)] panics and nothing is returned. *)
Lemma C10_missing_token_counterexample :
  DoAction example_externals (fun s => (s, None)) (fun _ _ => Parsed true)
    example_performer {[ "email" := VStr "a@x" ]} example_accounts
  = Panic "interface conversion: interface {} is not string".
Proof. vm_compute. reflexivity. Qed.

(** ** Facts about the relational engine *)

Lemma assoc_head {A} (k : string) (a : A) l : sql.assoc ((k, a) :: l) k = Some a.
Proof. simpl. by rewrite String.eqb_refl. Qed.

Lemma filter_numbered {A} (P : A -> bool) (l : list A) (k : nat) :
  map snd (List.filter (fun ne : nat * A => P ne.2) (imap (fun n e => (k + n, e)%nat) l))
  = List.filter P l.
Proof.
  revert k. induction l as [|a l IH]; intros k; [done|].
  simpl. destruct (P a) eqn:Ha; simpl.
  - f_equal. rewrite <- (IH (S k)). f_equal. f_equal.
    apply imap_ext. intros i x _. simpl. f_equal. lia.
  - rewrite <- (IH (S k)). f_equal. f_equal.
    apply imap_ext. intros i x _. simpl. f_equal. lia.
Qed.

Lemma query_select_where db t cs k v :
  sql.query db (select_where t cs k v) =
  match db !! t with
  | None => None
  | Some tab =>
      if forallb (fun c => bool_decide (c ∈ columns tab)) (cs ++ [k])
      then Some (map (fun r => list_to_map (map (fun c => (c, index r c)) cs))
                   (List.filter (matches k v) (rows tab)))
      else None
  end.
Proof.
  unfold sql.query, sql.exec_select, sql.prepare, sql.open_scope, select_where. simpl.
  destruct (db !! t) as [tab|] eqn:Ht; [|done].
  unfold sql.idents. simpl.
  rewrite !forallb_app. simpl.
  replace (forallb (sql.resolves [(t, tab)]) (map fst (map (fun c => (sql.I t c, c)) cs)))
    with (forallb (fun c => bool_decide (c ∈ columns tab)) cs).
  2:{ rewrite map_map. simpl. induction cs as [|c cs IH]; [done|].
      simpl. unfold sql.resolves at 1. simpl. rewrite String.eqb_refl. by rewrite IH. }
  unfold sql.resolves at 1. simpl. rewrite String.eqb_refl.
  destruct (forallb _ cs && _) eqn:Hok; [|done].
  f_equal. unfold sql.limited, sql.ordered, sql.candidates. simpl.
  set (P := fun e : sql.env =>
              forallb (sql.holds sql.no_literal 0%nat e) [sql.Eq (sql.I t k) v]).
  rewrite (List.filter_ext _ (fun ne : nat * sql.env => P ne.2)).
  2:{ intros [n e]. unfold P. simpl. by destruct v. }
  rewrite (imap_ext _ (fun n e => (0 + n, e)%nat)) by done.
  rewrite filter_numbered.
  induction (rows tab) as [|r rs IH]; [done|].
  simpl. replace (P [(t, r)]) with (matches k v r).
  2:{ unfold P, matches. simpl. unfold sql.cell. simpl. rewrite String.eqb_refl.
      destruct v; simpl; by rewrite ?andb_true_r. }
  destruct (matches k v r); simpl; [|exact IH].
  f_equal; [|exact IH].
  unfold sql.project. simpl. f_equal. rewrite map_map. apply map_ext.
  intros c. unfold sql.cell. simpl. by rewrite String.eqb_refl.
Qed.

(** ** The identity round trip *)




Lemma sql_eq_sym a b : sql.sql_eq a b = sql.sql_eq b a.
Proof.
  unfold sql.sql_eq.
  destruct a, b; simpl; try done; try apply andb_comm; apply String.eqb_sym.
Qed.

Lemma columns_ok (tab : Table) (cs : list string) :
  Forall (fun c => c ∈ columns tab) cs ->
  forallb (fun c => bool_decide (c ∈ columns tab)) cs = true.
Proof.
  induction 1 as [|c cs Hc _ IH]; [done|]. simpl.
  by rewrite bool_decide_eq_true_2, IH.
Qed.








(** ** The administrator bootstrap *)

Lemma Exec_update_Ok t sets conds st err st' :
  Exec_update t sets conds st = Ok (err, st') ->
  Connection st' = try_update (Connection st) t sets conds
  /\ OlricCache st' = OlricCache st /\ Queried st' = Queried st
  /\ (err = None <-> is_Some (sql.exec_update (Connection st) t sets conds)).
Proof.
  unfold Exec_update, try_update. unfold_M.
  destruct (sql.exec_update (Connection st) t sets conds) as [db'|]; simpl.
  - intros [= <- <-]. simpl. repeat split; eauto.
  - intros [= <- <-]. repeat split; try done; by intros [x Hx].
Qed.

Lemma Exec_insert_Ok t cells st err st' :
  Exec_insert t cells st = Ok (err, st') ->
  OlricCache st' = OlricCache st /\ Queried st' = Queried st
  /\ match err with
     | None => sql.exec_insert (Connection st) t cells = Some (Connection st')
     | Some _ => st' = st
     end.
Proof.
  unfold Exec_insert. unfold_M.
  destruct (sql.exec_insert (Connection st) t cells) as [db'|]; simpl.
  - by intros [= <- <-].
  - by intros [= <- <-].
Qed.

Lemma CanBecomeAdmin_Ok st b st' :
  CanBecomeAdmin st = Ok (b, st') ->
  Connection st' = Connection st /\ OlricCache st' = OlricCache st
  /\ b = match sql.query (Connection st) administrators_query with
         | Some (_ :: _) => false
         | _ => true
         end.
Proof.
  unfold CanBecomeAdmin, GetAdminReferenceId. unfold_M. unfold sql.query.
  destruct (sql.exec_select _ _ _) as [[|r rs]|]; simpl; by intros [= <- <-].
Qed.

Lemma UserGroupNameToId_Ok name st r st' :
  UserGroupNameToIdWithTransaction name st = Ok (r, st') ->
  Connection st' = Connection st /\ OlricCache st' = OlricCache st
  /\ r = match sql.query (Connection st) (select_where "usergroup" ["id"] "name" (VStr name)) with
         | Some rs => scan_first scan_uint64 0 "id" rs
         | None => (0, Some "failed to prepare statement")
         end.
Proof.
  unfold UserGroupNameToIdWithTransaction. unfold_M. unfold sql.query.
  destruct (sql.exec_select _ _ _) as [rs|]; simpl; by intros [= <- <-].
Qed.

Lemma BecomeAdmin_true d userId reference_id st st' :
  BecomeAdmin d userId reference_id st = Ok (true, st') ->
  exists sa sb db1,
    CanBecomeAdmin st = Ok (true, sa)
    /\ for_each (own_table userId) (map snd (map_to_list (Cruds d))) sa = Ok (tt, sb)
    /\ sql.exec_insert (Connection sb) USER_USERGROUP_LINK
         (admin_cells userId
            (match sql.query (Connection sb)
                     (select_where "usergroup" ["id"] "name" (VStr "administrators")) with
             | Some rs => scan_first scan_uint64 0 "id" rs
             | None => (0, Some "failed to prepare statement")
             end).1 reference_id) = Some db1
    /\ Connection st' = set_action_permissions (set_world_permissions db1)
    /\ OlricCache st' = OlricCache sb.
Proof.
  unfold BecomeAdmin. intros H.
  apply bind_Ok in H as (can & sa & Hcan & H).
  destruct can; simpl in H; [|unfold_M; discriminate].
  apply bind_Ok in H as ([] & sb & Hloop & H).
  apply bind_Ok in H as ([z e] & sc & Hid & H).
  apply UserGroupNameToId_Ok in Hid as (Hdbc & Hcc & Hz).
  apply bind_Ok in H as (err & sd & Hins & H).
  apply Exec_insert_Ok in Hins as (Hcd & _ & Hins).
  destruct err as [err|]; [unfold_M; discriminate|].
  apply bind_Ok in H as (err & se & Hw1 & H).
  apply Exec_update_Ok in Hw1 as (Hdbe & Hce & _ & _).
  destruct err as [err|]; [unfold_M; discriminate|].
  apply bind_Ok in H as (err & sf & Hw2 & H).
  apply Exec_update_Ok in Hw2 as (Hdbf & Hcf & _ & _).
  apply bind_Ok in H as (err2 & sg & Ha1 & H).
  apply Exec_update_Ok in Ha1 as (Hdbg & Hcg & _ & _).
  apply bind_Ok in H as (err3 & sh & Ha2 & H).
  apply Exec_update_Ok in Ha2 as (Hdbh & Hch & _ & _).
  unfold_M. injection H as <-.
  exists sa, sb, (Connection sd). split; [done|]. split; [done|]. split.
  - rewrite <- Hz. simpl. rewrite <- Hdbc. exact Hins.
  - split.
    + unfold set_action_permissions, set_world_permissions. congruence.
    + congruence.
Qed.

Lemma index_insert_eq (r : Row) k v : index (<[k := v]> r) k = v.
Proof. unfold index. by rewrite lookup_insert_eq. Qed.

Lemma index_insert_ne (r : Row) k k' v : k <> k' -> index (<[k := v]> r) k' = index r k'.
Proof. intros H. unfold index. by rewrite lookup_insert_ne. Qed.

Lemma set_action_permissions_rows db t r :
  set_action_permissions db !! "action" = Some t ->
  "permission" ∈ columns t -> "action_name" ∈ columns t ->
  r ∈ rows t ->
  index r "permission" =
    VInt (if sql.sql_eq (index r "action_name") (VStr "signin")
          then signin_permission else action_permission).
Proof.
  unfold set_action_permissions, try_update, sql.exec_update.
  destruct (db !! "action") as [t0|] eqn:Ht0; simpl.
  2:{ rewrite Ht0. simpl. rewrite Ht0. discriminate. }
  destruct (bool_decide ("permission" ∈ columns t0)) eqn:Hp; simpl.
  - rewrite lookup_insert_eq. simpl. rewrite Hp. simpl.
    destruct (bool_decide ("action_name" ∈ columns t0)) eqn:Ha; simpl.
    + rewrite lookup_insert_eq. intros [= <-]. simpl. intros _ _ Hin.
      rewrite map_map in Hin. apply list_elem_of_fmap in Hin as (r0 & -> & Hin).
      unfold sql.cell. simpl. rewrite index_insert_ne by done.
      destruct (sql.sql_eq (index r0 "action_name") (VStr "signin")) eqn:Hs; simpl.
      * rewrite index_insert_eq, !index_insert_ne by done. by rewrite Hs.
      * rewrite index_insert_eq, index_insert_ne by done. by rewrite Hs.
    + rewrite lookup_insert_eq. intros [= <-]. simpl. intros _ Hc.
      apply bool_decide_eq_false in Ha. done.
  - rewrite Ht0. simpl. rewrite Hp. simpl. rewrite Ht0. intros [= <-] Hc.
    apply bool_decide_eq_false in Hp. done.
Qed.

(** C5 (as the code has it): when [BecomeAdmin] succeeds and the [action]
    table has the [permission] and [action_name] columns, every action row
    carries UserRead|UserExecute|GroupCRUD|GroupExecute|GroupRefer, except
    the rows named [signin], which carry
    GuestPeek|GuestExecute|UserRead|UserExecute|GroupRead|GroupExecute. *)
Theorem C5_action_permissions (d : DbResource) (userId : Z) (reference_id : string)
    (st st' : State) (t : Table) (r : Row) :
  BecomeAdmin d userId reference_id st = Ok (true, st') ->
  Connection st' !! "action" = Some t ->
  "permission" ∈ columns t -> "action_name" ∈ columns t ->
  r ∈ rows t ->
  index r "permission" =
    VInt (if sql.sql_eq (index r "action_name") (VStr "signin")
          then auth.GuestPeek .| auth.GuestExecute .| auth.UserRead .| auth.UserExecute
                 .| auth.GroupRead .| auth.GroupExecute
          else auth.UserRead .| auth.UserExecute .| auth.GroupCRUD .| auth.GroupExecute
                 .| auth.GroupRefer).
Proof.
  intros H Ht Hp Ha Hin.
  apply BecomeAdmin_true in H as (sa & sb & db1 & _ & _ & _ & Hdb & _).
  rewrite Hdb in Ht.
  exact (set_action_permissions_rows _ _ _ Ht Hp Ha Hin).
Qed.

Lemma C5_action_permissions_witness :
  index ({[ "id" := VInt 1; "action_name" := VStr "signin"; "permission" := VInt 561441 ]} : Row)
    "permission" =
    VInt (if sql.sql_eq
               (index ({[ "id" := VInt 1; "action_name" := VStr "signin";
                          "permission" := VInt 561441 ]} : Row) "action_name")
               (VStr "signin")
          then auth.GuestPeek .| auth.GuestExecute .| auth.UserRead .| auth.UserExecute
                 .| auth.GroupRead .| auth.GroupExecute
          else auth.UserRead .| auth.UserExecute .| auth.GroupCRUD .| auth.GroupExecute
                 .| auth.GroupRefer).
Proof.
  apply (C5_action_permissions example_install_resource 1 "m-1" example_install
           example_installed
           {| columns := ["id"; "action_name"; "permission"];
              rows := [ {[ "id" := VInt 1; "action_name" := VStr "signin";
                           "permission" := VInt 561441 ]};
                        {[ "id" := VInt 2; "action_name" := VStr "signup";
                           "permission" := VInt 2068736 ]} ] |}).
  - vm_compute. reflexivity.
  - vm_compute. reflexivity.
  - simpl. set_solver.
  - simpl. set_solver.
  - simpl. set_solver.
Defined.

(** C5 as stated fails on the [signin] action: its final permission is not
    the permission of the other actions with the two guest bits added; the
    group create, update, delete and refer bits are gone. *)
Lemma C5_signin_counterexample :
  BecomeAdmin example_install_resource 1 "m-1" example_install = Ok (true, example_installed)
  /\ action_permissions example_installed "signup" = [VInt action_permission]
  /\ action_permissions example_installed "signin" = [VInt signin_permission]
  /\ signin_permission <> action_permission .| auth.GuestPeek .| auth.GuestExecute
  /\ Z.land signin_permission action_permission <> action_permission.
Proof.
  split; [vm_compute; reflexivity|].
  split; [vm_compute; reflexivity|].
  split; [vm_compute; reflexivity|].
  split; vm_compute; discriminate.
Qed.

Lemma index_foldl_insert (sets : list (string * value)) (r : Row) (c : string) :
  c ∉ map fst sets ->
  index (foldl (fun r' cv => <[cv.1 := cv.2]> r') r sets) c = index r c.
Proof.
  revert r. induction sets as [|[k v] sets IH]; intros r Hc; [done|].
  simpl in *. rewrite IH.
  - apply index_insert_ne. intros ->. apply Hc. by left.
  - intros H. apply Hc. by right.
Qed.

Lemma filter_map_same {A B} (P : A -> bool) (f : A -> A) (g : A -> B) (l : list A) :
  (forall a, P (f a) = P a) -> (forall a, g (f a) = g a) ->
  map g (List.filter P (map f l)) = map g (List.filter P l).
Proof.
  intros HP Hg. induction l as [|a l IH]; [done|]. simpl.
  rewrite HP. destruct (P a); simpl; [by rewrite Hg, IH|done].
Qed.

Lemma try_update_other db t t' sets conds :
  t <> t' -> try_update db t sets conds !! t' = db !! t'.
Proof.
  intros Hne. unfold try_update, sql.exec_update.
  destruct (db !! t) as [tab|]; [|done].
  destruct (forallb _ _); [|done]. simpl. by rewrite lookup_insert_ne.
Qed.

(** An update of other columns does not change what the lookup of the
    administrators group finds. *)
Lemma try_update_group_id db t sets :
  "id" ∉ map fst sets -> "name" ∉ map fst sets ->
  administrators_group_id (try_update db t sets []) = administrators_group_id db.
Proof.
  intros Hid Hname. unfold administrators_group_id. rewrite !query_select_where.
  destruct (decide (t = "usergroup")) as [->|Hne].
  2:{ by rewrite try_update_other. }
  unfold try_update, sql.exec_update.
  destruct (db !! "usergroup") as [tab|] eqn:Ht; simpl; [|by rewrite Ht].
  destruct (forallb _ (map fst sets ++ _)); simpl; [|by rewrite Ht].
  rewrite lookup_insert_eq. simpl.
  destruct (bool_decide ("id" ∈ columns tab) && _); [|done].
  erewrite filter_map_same; [done| |].
  - intros r. unfold matches. by rewrite index_foldl_insert.
  - intros r. simpl. by rewrite index_foldl_insert.
Qed.

Lemma own_table_group_id userId m st u st' :
  own_table userId m st = Ok (u, st') ->
  administrators_group_id (Connection st') = administrators_group_id (Connection st)
  /\ OlricCache st' = OlricCache st.
Proof.
  unfold own_table.
  destruct (String.eqb (GetName m) USER_USERGROUP_LINK).
  { unfold_M. by intros [= <- <-]. }
  destruct (HasColumn m USER_ACCOUNT_ID_COLUMN).
  2:{ unfold_M. by intros [= <- <-]. }
  intros H. apply bind_Ok in H as (err & st1 & Hup & H).
  unfold_M. injection H as <- <-.
  apply Exec_update_Ok in Hup as (Hdb & Hc & _ & _).
  split; [|done]. rewrite Hdb. apply try_update_group_id; simpl.
  - intros H. repeat (apply elem_of_cons in H as [H|H]; [discriminate|]).
    by apply elem_of_nil in H.
  - intros H. repeat (apply elem_of_cons in H as [H|H]; [discriminate|]).
    by apply elem_of_nil in H.
Qed.

Lemma own_tables_group_id userId ms st u st' :
  for_each (own_table userId) ms st = Ok (u, st') ->
  administrators_group_id (Connection st') = administrators_group_id (Connection st)
  /\ OlricCache st' = OlricCache st.
Proof.
  revert st. induction ms as [|m ms IH]; intros st; simpl.
  - unfold_M. by intros [= <- <-].
  - intros H. apply bind_Ok in H as (x & st1 & Hm & H).
    apply own_table_group_id in Hm as [Hg Hc].
    apply IH in H as [Hg' Hc']. split; congruence.
Qed.

Lemma holds_no_literal n e c :
  sql.holds sql.no_literal n e c = sql.holds sql.no_literal 0 e c.
Proof. by destruct c. Qed.

Lemma candidates_no_literal db q t :
  sql.candidates sql.no_literal db q t =
  List.filter (fun e => forallb (sql.holds sql.no_literal 0 e) (sql.s_where q))
    (foldl (sql.join_step db) (map (fun r => [(sql.s_alias q, r)]) (rows t)) (sql.s_joins q)).
Proof.
  unfold sql.candidates.
  rewrite (List.filter_ext _
             (fun ne : nat * sql.env =>
                (fun e => forallb (sql.holds sql.no_literal 0 e) (sql.s_where q)) ne.2)).
  2:{ intros [n e]. simpl. induction (sql.s_where q) as [|c cs IH]; [done|].
      simpl. by rewrite holds_no_literal, IH. }
  rewrite (imap_ext _ (fun n e => (0 + n, e)%nat)) by done.
  exact (filter_numbered
           (fun e => forallb (sql.holds sql.no_literal 0 e) (sql.s_where q)) _ 0%nat).
Qed.


Lemma filter_cons_inv {A} (P : A -> bool) (l : list A) a rest :
  List.filter P l = a :: rest -> a ∈ l /\ P a = true.
Proof.
  intros H. assert (Hin : List.In a (List.filter P l)) by (rewrite H; by left).
  apply filter_In in Hin as [Hin Hp]. split; [by apply list_elem_of_In|done].
Qed.



Lemma exec_insert_Some db t cells db' :
  sql.exec_insert db t cells = Some db' ->
  exists tab,
    db !! t = Some tab
    /\ Forall (fun c => c ∈ columns tab) (map fst cells)
    /\ db' = <[t := {| columns := columns tab;
                       rows := rows tab ++ [list_to_map cells] |}]> db.
Proof.
  unfold sql.exec_insert. destruct (db !! t) as [tab|]; [|discriminate].
  destruct (forallb _ _) eqn:Hc; [|discriminate]. intros [= <-].
  exists tab. split; [done|]. split; [|done].
  apply Forall_forall. intros c Hin.
  apply list_elem_of_In in Hin.
  rewrite forallb_forall in Hc. specialize (Hc c Hin). by apply bool_decide_eq_true in Hc.
Qed.







(** ** Action authorisation *)

Lemma allowed_by_loads (load : string -> string -> string -> M PermissionInstance)
    (u : string) (gs : list auth.GroupPermission) (typeName actionName : string)
    (st st' : State) (b : bool) :
  (permission ← load "world" "table_name" typeName;
   actionPermission ← load "action" "action_name" actionName;
   mret (CanExecute permission u gs && CanExecute actionPermission u gs)) st = Ok (b, st')
  <-> exists p st1 pa,
        load "world" "table_name" typeName st = Ok (p, st1)
        /\ load "action" "action_name" actionName st1 = Ok (pa, st')
        /\ b = CanExecute p u gs && CanExecute pa u gs.
Proof.
  split.
  - intros H. apply bind_Ok in H as (p & st1 & H1 & H).
    apply bind_Ok in H as (pa & st2 & H2 & H).
    unfold_M. injection H as <- <-. by exists p, st1, pa.
  - intros (p & st1 & pa & H1 & H2 & ->).
    unfold mbind, M_bind. rewrite H1, H2. done.
Qed.

(** C1: [IsUserActionAllowed] (and likewise its transactional variant)
    returns true exactly when the permission loaded from [world] by
    [table_name] and the permission loaded from [action] by [action_name]
    both grant Execute to the caller, and returns false exactly when both
    were loaded and one of the two [CanExecute] checks is false. *)
Theorem C1_action_allowed (d : DbResource) (u : string) (gs : list auth.GroupPermission)
    (typeName actionName : string) (st st' : State) :
  (IsUserActionAllowed d u gs typeName actionName st = Ok (true, st')
   <-> exists p st1 pa,
         GetObjectPermissionByWhereClause d "world" "table_name" typeName st = Ok (p, st1)
         /\ GetObjectPermissionByWhereClause d "action" "action_name" actionName st1 = Ok (pa, st')
         /\ CanExecute p u gs = true /\ CanExecute pa u gs = true)
  /\ (IsUserActionAllowed d u gs typeName actionName st = Ok (false, st')
      <-> exists p st1 pa,
            GetObjectPermissionByWhereClause d "world" "table_name" typeName st = Ok (p, st1)
            /\ GetObjectPermissionByWhereClause d "action" "action_name" actionName st1 = Ok (pa, st')
            /\ (CanExecute p u gs = false \/ CanExecute pa u gs = false))
  /\ (IsUserActionAllowedWithTransaction d u gs typeName actionName st = Ok (true, st')
      <-> exists p st1 pa,
            GetObjectPermissionByWhereClauseWithTransaction d "world" "table_name" typeName st
              = Ok (p, st1)
            /\ GetObjectPermissionByWhereClauseWithTransaction d "action" "action_name"
                 actionName st1 = Ok (pa, st')
            /\ CanExecute p u gs = true /\ CanExecute pa u gs = true)
  /\ (IsUserActionAllowedWithTransaction d u gs typeName actionName st = Ok (false, st')
      <-> exists p st1 pa,
            GetObjectPermissionByWhereClauseWithTransaction d "world" "table_name" typeName st
              = Ok (p, st1)
            /\ GetObjectPermissionByWhereClauseWithTransaction d "action" "action_name"
                 actionName st1 = Ok (pa, st')
            /\ (CanExecute p u gs = false \/ CanExecute pa u gs = false)).
Proof.
  unfold IsUserActionAllowed, IsUserActionAllowedWithTransaction.
  repeat split.
  all: try (intros H; apply allowed_by_loads in H as (p & st1 & pa & H1 & H2 & Hb);
            exists p, st1, pa; split; [done|]; split; [done|];
            symmetry in Hb;
            first [ by apply andb_true_iff in Hb | by apply andb_false_iff in Hb ]).
  all: intros (p & st1 & pa & H1 & H2 & Hb);
       apply allowed_by_loads; exists p, st1, pa; split; [done|]; split; [done|];
       symmetry;
       first [ by apply andb_true_iff | by apply andb_false_iff ].
Qed.

(** The scenario of the specification: the owner may run [publish] on
    [blog] while the action grants UserExecute, and no longer when the bit
    is removed; a stranger never may. *)
Example action_allowed_scenario :
  result (IsUserActionAllowed example_resource "u-1" [] "blog" "publish"
            (example_blog auth.UserExecute)) = Ok true
  /\ result (IsUserActionAllowed example_resource "u-1" [] "blog" "publish"
               (example_blog 0)) = Ok false
  /\ result (IsUserActionAllowed example_resource "u-2" [] "blog" "publish"
               (example_blog auth.UserExecute)) = Ok false
  /\ result (IsUserActionAllowedWithTransaction example_resource "u-1" [] "blog" "publish"
               (example_blog auth.UserExecute)) = Ok true.
Proof. repeat split; vm_compute; reflexivity. Qed.

(** ** The row loader: how many rows come back *)

(** Taking apart a hypothesis that a computation returned. *)
Ltac mstep :=
  match goal with
  | H : (_ ≫= _) _ = Ok _ |- _ => apply bind_Ok in H as (? & ? & ? & H)
  | H : mret _ _ = Ok _ |- _ => unfold mret, M_ret in H; simplify_eq
  | H : panic _ _ = Ok _ |- _ => discriminate H
  | H : lift ?o _ = Ok _ |- _ =>
      unfold lift in H; destruct o eqn:?; [simplify_eq | discriminate H]
  | H : (match ?x with _ => _ end) _ = Ok _ |- _ => destruct x eqn:?
  | H : (let '(_, _) := ?x in _) _ = Ok _ |- _ => destruct x eqn:?
  end.

Section LoaderFacts.

Variable ext : Externals.

Lemma loop_return {A B} (P : Loaded -> Prop) (body : A -> B -> M (flow A)) :
  (forall a b st r st', body a b st = Ok (Return r, st') -> P r) ->
  forall l a st r st', loop body a l st = Ok (Return r, st') -> P r.
Proof.
  intros Hbody. induction l as [|b l IH]; intros a st r st' H; simpl in H.
  - unfold mret, M_ret in H. simplify_eq.
  - apply bind_Ok in H as (x & st1 & Hb & H). destruct x as [a'|r'].
    + by eapply IH.
    + unfold mret, M_ret in H. simplify_eq. by eapply Hbody.
Qed.

Lemma column_step_return tx load_object d columnMap inc s key val st r st' :
  column_step ext tx load_object d columnMap inc s key val st = Ok (Return r, st') ->
  r.1.1 = [].
Proof.
  unfold column_step. intros H. repeat mstep; done.
Qed.

Lemma attach_related_return load_all d holder typeName name ids row localInclude st r st' :
  attach_related load_all d holder typeName name ids row localInclude st = Ok (Return r, st') ->
  r.1.1 = [].
Proof.
  unfold attach_related. intros H. repeat mstep; done.
Qed.

Lemma relation_step_return load_all d inc acc relation st r st' :
  relation_step load_all d inc acc relation st = Ok (Return r, st') ->
  r.1.1 = [].
Proof.
  unfold relation_step. intros H.
  repeat mstep; try done; by eapply attach_related_return.
Qed.

Lemma row_step_return tx load_object load_all d columnMap inc g row st r st' :
  row_step ext tx load_object load_all d columnMap inc g row st = Ok (Return r, st') ->
  r.1.1 = [].
Proof.
  unfold row_step. intros H.
  apply bind_Ok in H as (x & st1 & Hc & H). destruct x as [s|r1].
  - apply bind_Ok in H as (y & st2 & Hr & H). destruct y as [[row' li]|r2].
    + unfold mret, M_ret in H. simplify_eq.
    + unfold mret, M_ret in H. simplify_eq.
      eapply (loop_return (fun r => r.1.1 = [])); [|exact Hr].
      intros. by eapply relation_step_return.
  - unfold mret, M_ret in H. simplify_eq.
    eapply (loop_return (fun r => r.1.1 = [])); [|exact Hc].
    intros a [k v] ? ? ? Hs. by eapply column_step_return.
Qed.

Lemma row_step_next tx load_object load_all d columnMap inc g row st g' st' :
  row_step ext tx load_object load_all d columnMap inc g row st = Ok (Next g', st') ->
  length (g_rows g') = S (length (g_rows g)).
Proof.
  unfold row_step. intros H.
  apply bind_Ok in H as (x & st1 & Hc & H). destruct x as [s|r1].
  - apply bind_Ok in H as (y & st2 & Hr & H). destruct y as [[row' li]|r2].
    + unfold mret, M_ret in H. simplify_eq. simpl. rewrite length_app. simpl. lia.
    + unfold mret, M_ret in H. simplify_eq.
  - unfold mret, M_ret in H. simplify_eq.
Qed.

Lemma rows_loop_next tx load_object load_all d columnMap inc l g st g' st' :
  loop (row_step ext tx load_object load_all d columnMap inc) g l st = Ok (Next g', st') ->
  length (g_rows g') = (length (g_rows g) + length l)%nat.
Proof.
  revert g st. induction l as [|row l IH]; intros g st H; simpl in H.
  - unfold mret, M_ret in H. simplify_eq. simpl. lia.
  - apply bind_Ok in H as (x & st1 & Hb & H). destruct x as [g1|r1].
    + apply IH in H. apply row_step_next in Hb. simpl. lia.
    + unfold mret, M_ret in H. simplify_eq.
Qed.

(** [RowsToMap] tags the rows it could read: all of them when it returns
    no error, those before the first row that does not scan otherwise. *)
Lemma RowsToMap_from_read typeName rows : forall acc resp err,
  RowsToMap_from ext acc rows typeName = (resp, err) ->
  exists n, resp = acc ++ map (fun dbRow => <["__type" := VStr typeName]> dbRow) (take n rows)
    /\ match err with
       | None => n = length rows
       | Some e => (n < length rows)%nat
                   /\ (MapStringScan_Update ext <$> rows !! n) = Some (Some e)
       end.
Proof.
  induction rows as [|dbRow rest IH]; intros acc resp err H; simpl in H.
  - injection H as <- <-. exists 0%nat. by rewrite app_nil_r.
  - destruct (MapStringScan_Update ext dbRow) as [e|] eqn:Hu.
    + injection H as <- <-. exists 0%nat. rewrite app_nil_r. simpl. rewrite Hu.
      split; [done|]. split; [lia|done].
    + apply IH in H as (n & -> & Hn). exists (S n). simpl. rewrite <- app_assoc.
      split; [done|]. destruct err; [|lia]. destruct Hn. split; [lia|done].
Qed.

Lemma RowsToMap_read rows typeName resp err :
  RowsToMap ext rows typeName = (resp, err) ->
  exists n, resp = map (fun dbRow => <["__type" := VStr typeName]> dbRow) (take n rows)
    /\ match err with
       | None => n = length rows
       | Some e => (n < length rows)%nat
                   /\ (MapStringScan_Update ext <$> rows !! n) = Some (Some e)
       end.
Proof. intros H. by apply RowsToMap_from_read in H. Qed.

Lemma RowsToMap_length rows typeName resp err :
  RowsToMap ext rows typeName = (resp, err) ->
  (length resp <= length rows)%nat /\ (err = None -> length resp = length rows).
Proof.
  intros H. apply RowsToMap_read in H as (n & -> & Hn).
  rewrite length_map, length_take. split; [lia|]. intros ->. lia.
Qed.


(** The loader gives one map per result row, or no map when it leaves
    with an error. *)
Lemma load_rows_length tx load_object load_all d rows columnMap inc st resp incl err st' :
  load_rows ext tx load_object load_all d rows columnMap inc st = Ok ((resp, incl, err), st') ->
  (length resp <= length rows)%nat /\ (err = None -> length resp = length rows).
Proof.
  unfold load_rows. intros H.
  destruct (RowsToMap ext rows (GetName (tableInfo d))) as [responseArray [e|]] eqn:Hread;
    apply RowsToMap_length in Hread as [Hle Hall].
  { unfold mret, M_ret in H. simplify_eq. split; [done|done]. }
  specialize (Hall eq_refl).
  apply bind_Ok in H as (x & st1 & Hl & H). destruct x as [g|r].
  - unfold mret, M_ret in H. simplify_eq.
    apply rows_loop_next in Hl. simpl in Hl. lia.
  - unfold mret, M_ret in H. simplify_eq.
    assert (Hr : (resp, incl, err).1.1 = []).
    { eapply (loop_return (fun r => r.1.1 = [])); [|exact Hl].
      intros. by eapply row_step_return. }
    simpl in Hr. subst resp. simpl. split; [lia|].
    intros ->.
    (* a return out of the loop always carries an error *)
    exfalso. revert Hl.
    generalize ({| g_rows := []; g_includes := []; g_refs := ∅; g_err := None |}).
    generalize responseArray. clear.
    intros l p Hl.
    assert (Herr : (([] : list Row), incl, (None : option error)).2 <> None).
    { eapply (loop_return (fun r => r.2 <> None)); [|exact Hl].
      clear. intros g row st r st' H. unfold row_step in H.
      apply bind_Ok in H as (x & st1 & Hc & H). destruct x as [s|r1].
      - apply bind_Ok in H as (y & st2 & Hr & H). destruct y as [[row' li]|r2].
        + unfold mret, M_ret in H. simplify_eq.
        + unfold mret, M_ret in H. simplify_eq.
          eapply (loop_return (fun r => r.2 <> None)); [|exact Hr].
          clear. intros acc rel st r st' H. unfold relation_step, attach_related in H.
          repeat mstep; done.
      - unfold mret, M_ret in H. simplify_eq.
        eapply (loop_return (fun r => r.2 <> None)); [|exact Hc].
        clear. intros s [k v] st r st' H. unfold column_step in H.
        repeat mstep; done. }
    done.
Qed.

Lemma ResultToArrayOfMap_length depth tx d rows columnMap inc st resp incl err st' :
  ResultToArrayOfMap_at ext depth tx d rows columnMap inc st = Ok ((resp, incl, err), st') ->
  (length resp <= length rows)%nat /\ (err = None -> length resp = length rows).
Proof. destruct depth; simpl; apply load_rows_length. Qed.

End LoaderFacts.

Lemma Queryx_with_Ok lit q st r st' :
  Queryx_with lit q st = Ok (r, st') ->
  r = sql.exec_select lit (Connection st) q /\ st' = logged st [q].
Proof. unfold Queryx_with, logged. by intros [= <- <-]. Qed.

(** ** Which statements a call sends *)

Section Statements.

Variable ext : Externals.
Variable P : sql.select -> Prop.
Hypothesis P_select_where : forall t cs k v, P (select_where t cs k v).
Hypothesis P_select_star : forall t conds, P (select_star t conds).

Lemma logs_only_ret {A} (a : A) : logs_only P (mret a).
Proof.
  intros st a' st' H. unfold mret, M_ret in H. simplify_eq.
  exists []. by rewrite app_nil_r.
Qed.

Lemma logs_only_bind {A B} (m : M A) (f : A -> M B) :
  logs_only P m -> (forall a, logs_only P (f a)) -> logs_only P (m ≫= f).
Proof.
  intros Hm Hf st b st' H. apply bind_Ok in H as (a & st1 & H1 & H2).
  apply Hm in H1 as (l1 & E1 & F1). apply Hf in H2 as (l2 & E2 & F2).
  exists (l1 ++ l2). rewrite E2, E1, app_assoc. split; [done|]. by apply Forall_app.
Qed.

Lemma logs_only_lift {A} (o : outcome A) : logs_only P (lift o).
Proof.
  intros st a st' H. unfold lift in H. destruct o; simplify_eq.
  exists []. by rewrite app_nil_r.
Qed.

Lemma logs_only_panic {A} msg : logs_only P (@panic A msg).
Proof. intros st a st' H. discriminate. Qed.

Lemma logs_only_get_state : logs_only P get_state.
Proof.
  intros st a st' H. unfold get_state in H. simplify_eq.
  exists []. by rewrite app_nil_r.
Qed.

Lemma logs_only_cache_lookup k : logs_only P (cache_lookup k).
Proof.
  intros st a st' H. apply cache_lookup_Ok in H as [-> _].
  exists []. by rewrite app_nil_r.
Qed.

Lemma logs_only_cache_store k v ttl : logs_only P (cache_store k v ttl).
Proof.
  intros st a st' H. unfold cache_store, OlricCache_PutIfEx in H. unfold_M.
  exists []. rewrite app_nil_r. split; [|done].
  destruct (OlricCache st) as [c|]; [destruct (c !! k)|]; by simplify_eq.
Qed.

Lemma logs_only_Queryx_with lit q : P q -> logs_only P (Queryx_with lit q).
Proof.
  intros HP st a st' H. apply Queryx_with_Ok in H as [-> ->].
  exists [q]. split; [done|]. by constructor.
Qed.

Lemma logs_only_Queryx q : P q -> logs_only P (Queryx q).
Proof. apply logs_only_Queryx_with. Qed.

Lemma logs_only_loop {A B} (body : A -> B -> M (flow A)) :
  (forall a b, logs_only P (body a b)) -> forall l a, logs_only P (loop body a l).
Proof.
  intros Hbody. induction l as [|b l IH]; intros a; simpl.
  - apply logs_only_ret.
  - apply logs_only_bind; [apply Hbody|]. intros [a'|r]; [apply IH|apply logs_only_ret].
Qed.

Ltac logs_step :=
  first
    [ apply logs_only_ret
    | apply logs_only_panic
    | apply logs_only_lift
    | apply logs_only_get_state
    | apply logs_only_cache_lookup
    | apply logs_only_cache_store
    | apply logs_only_Queryx; solve [auto]
    | apply logs_only_bind; [|intros]
    | match goal with
      | |- logs_only _ (match ?x with _ => _ end) => destruct x eqn:?
      | |- logs_only _ (let '(_, _) := ?x in _) => destruct x eqn:?
      end ].

Lemma logs_only_GetIdToReferenceId t i : logs_only P (GetIdToReferenceId t i).
Proof. unfold GetIdToReferenceId. repeat logs_step. Qed.

Lemma logs_only_GetIdToReferenceIdWithTransaction t i :
  logs_only P (GetIdToReferenceIdWithTransaction t i).
Proof. unfold GetIdToReferenceIdWithTransaction. repeat logs_step. Qed.

Section WithCallees.

Variable tx : bool.
Variable load_object : DbResource -> string -> Z -> M (option Row * option error).
Variable load_all : option DbResource -> string -> list sql.cond -> M (list Row * option error).
Variable inc : gmap string bool.
Hypothesis load_object_logs : forall d t i, logs_only P (load_object d t i).
Hypothesis load_all_logs : forall d t c, logs_only P (load_all d t c).
Hypothesis P_relations :
  forall r v,
    included inc (GetObjectName r) || included inc (GetSubjectName r) = true ->
    P (objects_of_subject_query r v) /\ P (owners_of_object_query r v)
    /\ P (subjects_of_object_query r v).

Lemma logs_only_column_step d columnMap s key val :
  logs_only P (column_step ext tx load_object d columnMap inc s key val).
Proof.
  unfold column_step.
  repeat first [ apply logs_only_GetIdToReferenceId
               | apply logs_only_GetIdToReferenceIdWithTransaction
               | apply load_object_logs
               | logs_step ].
Qed.

Lemma logs_only_attach_related d holder typeName name ids row localInclude :
  logs_only P (attach_related load_all d holder typeName name ids row localInclude).
Proof. unfold attach_related. repeat first [ apply load_all_logs | logs_step ]. Qed.

Lemma logs_only_relation_step d acc relation :
  logs_only P (relation_step load_all d inc acc relation).
Proof.
  unfold relation_step. destruct acc as [row localInclude].
  destruct (included inc (GetObjectName relation) || included inc (GetSubjectName relation))
    eqn:Hinc; simpl; [|apply logs_only_ret].
  destruct (P_relations relation (index row "reference_id") Hinc) as (P1 & P2 & P3).
  repeat first [ apply logs_only_attach_related | logs_step ].
Qed.

Lemma logs_only_load_rows d rows columnMap :
  logs_only P (load_rows ext tx load_object load_all d rows columnMap inc).
Proof.
  unfold load_rows.
  destruct (RowsToMap ext rows (GetName (tableInfo d))) as [responseArray [e|]];
    [apply logs_only_ret|].
  apply logs_only_bind.
  - apply logs_only_loop. intros g row. unfold row_step.
    apply logs_only_bind.
    + apply logs_only_loop. intros s [k v]. apply logs_only_column_step.
    + intros [s|r]; [|apply logs_only_ret].
      apply logs_only_bind.
      * apply logs_only_loop. intros. apply logs_only_relation_step.
      * intros [[row' li]|r]; apply logs_only_ret.
  - intros [g|r]; apply logs_only_ret.
Qed.

End WithCallees.

Lemma no_relation_requested r :
  included (∅ : gmap string bool) (GetObjectName r)
  || included (∅ : gmap string bool) (GetSubjectName r) = true -> False.
Proof. unfold included. by rewrite !lookup_empty. Qed.

Lemma logs_only_GetIdToObject_with tx rec d t i :
  (forall d rows columnMap, logs_only P (rec d rows columnMap ∅)) ->
  logs_only P (GetIdToObject_with tx rec d t i).
Proof.
  intros Hrec. unfold GetIdToObject_with.
  repeat first [ apply Hrec | logs_step ].
Qed.

Lemma logs_only_GetAllObjectsWithWhere_with tx rec d t c :
  (forall d rows columnMap, logs_only P (rec d rows columnMap ∅)) ->
  logs_only P (GetAllObjectsWithWhere_with tx rec d t c).
Proof.
  intros Hrec. unfold GetAllObjectsWithWhere_with.
  repeat first [ apply Hrec | logs_step ].
Qed.

Lemma logs_only_ResultToArrayOfMap_at depth tx inc d rows columnMap :
  (forall r v,
      included inc (GetObjectName r) || included inc (GetSubjectName r) = true ->
      P (objects_of_subject_query r v) /\ P (owners_of_object_query r v)
      /\ P (subjects_of_object_query r v)) ->
  logs_only P (ResultToArrayOfMap_at ext depth tx d rows columnMap inc).
Proof.
  revert inc d rows columnMap. induction depth as [|depth IH]; intros inc d rows columnMap Hrel.
  - simpl. apply logs_only_load_rows; [intros; apply logs_only_panic..|done].
  - simpl. apply logs_only_load_rows; [| |done].
    + intros. apply logs_only_GetIdToObject_with. intros. apply IH.
      intros r v H. by apply no_relation_requested in H.
    + intros. apply logs_only_GetAllObjectsWithWhere_with. intros. apply IH.
      intros r v H. by apply no_relation_requested in H.
Qed.

End Statements.

(** ** Random rows *)

Lemma exec_select_limit lit db q n rs :
  sql.s_limit q = Some n ->
  sql.exec_select lit db q = Some rs ->
  (length rs <= n)%nat.
Proof.
  unfold sql.exec_select, sql.limited. intros Hn.
  destruct (sql.prepare db q) as [sc|]; [|discriminate].
  destruct (db !! sql.s_from q) as [t|]; [|discriminate].
  intros [= <-]. rewrite Hn, length_map, length_take. lia.
Qed.

Lemma logs_anything_ResultToArrayOfMap_at ext depth tx inc d rows columnMap :
  logs_only (fun _ => True) (ResultToArrayOfMap_at ext depth tx d rows columnMap inc).
Proof. by apply logs_only_ResultToArrayOfMap_at. Qed.

Lemma numbered_filter {A B} (g : A -> B) (P : nat -> B -> bool) (l : list A) : forall k,
  map snd (List.filter (fun ne : nat * B => P ne.1 ne.2)
             (imap (fun n e => ((k + n)%nat, e)) (map g l)))
  = map g (map snd (List.filter (fun nr : nat * A => P nr.1 (g nr.2))
                      (imap (fun n r => ((k + n)%nat, r)) l))).
Proof.
  induction l as [|a l IH]; intros k; [done|].
  cbn [map imap List.filter]. simpl fst. simpl snd.
  rewrite (imap_ext _ (fun n e => ((S k + n)%nat, e)) (map g l))
    by (intros; simpl; f_equal; lia).
  rewrite (imap_ext _ (fun n r => ((S k + n)%nat, r)) l)
    by (intros; simpl; f_equal; lia).
  destruct (P (k + 0)%nat (g a)); cbn [map]; [f_equal|]; apply (IH (S k)).
Qed.

Lemma exec_select_random lit db driverName typeName count :
  sql.exec_select lit db (random_row_query driverName typeName count)
  = match db !! typeName with
    | Some tab =>
        if bool_decide ("id" ∈ columns tab)
        then Some (map (sql.star tab)
                     (random_selection lit
                        (randomFunc driverName +:+ " ( " +:+ max_id_sql typeName +:+ " ) ")
                        count tab))
        else None
    | None => None
    end.
Proof.
  unfold sql.exec_select, sql.prepare, sql.open_scope, random_row_query. simpl.
  destruct (db !! typeName) as [tab|] eqn:Ht; [|done].
  unfold sql.idents, sql.resolves. simpl. rewrite String.eqb_refl, andb_true_r.
  destruct (bool_decide ("id" ∈ columns tab)); [|done].
  f_equal. unfold sql.limited, sql.ordered, sql.candidates, random_selection. simpl.
  set (frag := randomFunc driverName +:+ " ( " +:+ max_id_sql typeName +:+ " ) ").
  rewrite (imap_ext _ (fun n e => ((0 + n)%nat, e))) by done.
  rewrite (List.filter_ext _
             (fun ne : nat * sql.env =>
                (fun n (e : sql.env) => sql.sql_ge (sql.cell e (sql.I typeName "id")) (lit frag n))
                  ne.1 ne.2)).
  2:{ intros [n e]. simpl. by rewrite andb_true_r. }
  rewrite (numbered_filter (fun r : Row => [(typeName, r)])
             (fun n (e : sql.env) => sql.sql_ge (sql.cell e (sql.I typeName "id")) (lit frag n))).
  rewrite <- fmap_take, map_map.
  rewrite (List.filter_ext _
             (fun nr : nat * Row => sql.sql_ge (index nr.2 "id") (lit frag nr.1))).
  2:{ intros [n r]. unfold sql.cell. simpl. by rewrite String.eqb_refl. }
  rewrite (imap_ext _ (fun n r => (n, r)) (rows tab)) by done.
  apply map_ext_in. intros r _. unfold sql.project. simpl. by rewrite String.eqb_refl.
Qed.

Section RandomRow.

Variable ext : Externals.

(** C8: [GetRandomRow] sends one statement first,
    [SELECT * FROM <type> WHERE id >= <random> ( SELECT max(id) FROM <type> ) LIMIT count],
    where [<random>] is [RAND() *] for the mysql driver and [RANDOM() *]
    for every other driver.  What it returns is what the loader makes of
    the result of that statement, which is, in storage order, the first
    [count] rows whose id is at least the value the server computes for
    the fragment at that row; so it returns at most [count] rows, and one
    per selected row when there is no error.  On a table the server does
    not know, or one without an [id], it returns nil and an error.  The
    driver name matters through the random function only: two drivers that
    agree on being mysql give the same call. *)
Theorem C8_random_row (lit : string -> nat -> value) (driverName : string) (d : DbResource)
    (typeName : string) (count : nat) (st st' : State) (m1 : list Row) (err : option error) :
  GetRandomRow ext lit driverName d typeName count st = Ok ((m1, err), st') ->
  let random := if String.eqb driverName "mysql" then "RAND() * " else "RANDOM() * " in
  let frag := random +:+ " ( "
                +:+ ("SELECT max(id) FROM " +:+ dquote +:+ typeName +:+ dquote) +:+ " ) " in
  let q := {| sql.s_cols := None; sql.s_from := typeName; sql.s_alias := typeName;
              sql.s_joins := [];
              sql.s_where := [sql.GteL (sql.I typeName "id") frag];
              sql.s_order := None; sql.s_limit := Some count |} in
  (length m1 <= count)%nat
  /\ (exists later, Queried st' = Queried st ++ q :: later)
  /\ match Connection st !! typeName with
     | Some tab =>
         if bool_decide ("id" ∈ columns tab) then
           exists m incl,
             Cruds d !! typeName = Some m
             /\ ResultToArrayOfMap ext d
                  (map (sql.star tab) (random_selection lit frag count tab))
                  (GetColumnMap m) ∅ (logged st [q])
                = Ok ((m1, incl, err), st')
             /\ (err = None -> length m1 = length (random_selection lit frag count tab))
         else m1 = [] /\ err <> None /\ st' = logged st [q]
     | None => m1 = [] /\ err <> None /\ st' = logged st [q]
     end
  /\ (forall other,
        String.eqb other "mysql" = String.eqb driverName "mysql" ->
        GetRandomRow ext lit other d typeName count st
        = GetRandomRow ext lit driverName d typeName count st).
Proof.
  intros H random frag q.
  assert (Hq : q = random_row_query driverName typeName count) by reflexivity.
  assert (Hsel : forall tab, (length (random_selection lit frag count tab) <= count)%nat).
  { intros tab. unfold random_selection. rewrite length_take. lia. }
  unfold GetRandomRow in H.
  apply bind_Ok in H as (rs & st1 & Hrs & H).
  apply Queryx_with_Ok in Hrs as [-> ->].
  rewrite exec_select_random in H. rewrite <- Hq in H.
  change (randomFunc driverName +:+ " ( " +:+ max_id_sql typeName +:+ " ) ") with frag in H.
  assert (Hdrivers : forall other,
    String.eqb other "mysql" = String.eqb driverName "mysql" ->
    GetRandomRow ext lit other d typeName count st
    = GetRandomRow ext lit driverName d typeName count st).
  { intros other Hf. unfold GetRandomRow, random_row_query, randomFunc. by rewrite Hf. }
  destruct (Connection st !! typeName) as [tab|] eqn:Ht.
  - destruct (bool_decide ("id" ∈ columns tab)) eqn:Hid.
    + apply bind_Ok in H as (m & st2 & Hm & H).
      unfold lift, crud_model in Hm.
      destruct (Cruds d !! typeName) as [m'|] eqn:Hc; [|done]. simplify_eq.
      apply bind_Ok in H as ([[resp incl] e] & st3 & Hl & H).
      unfold mret, M_ret in H. simplify_eq.
      pose proof (ResultToArrayOfMap_length _ _ _ _ _ _ _ _ _ _ _ _ Hl) as [Hle Hall].
      rewrite length_map in Hle, Hall. specialize (Hsel tab).
      split; [lia|]. split.
      * apply logs_anything_ResultToArrayOfMap_at in Hl as (l & -> & _).
        exists l. simpl. by rewrite <- app_assoc.
      * split; [|done]. by exists m, incl.
    + unfold mret, M_ret in H. simplify_eq. simpl.
      split; [lia|]. split; [by exists []|]. done.
  - unfold mret, M_ret in H. simplify_eq. simpl.
    split; [lia|]. split; [by exists []|]. done.
Qed.

End RandomRow.

Lemma C8_random_row_witness :
  let lit := fun (_ : string) (_ : nat) => VInt 2 in
  let frag := "RAND() * " +:+ " ( "
                +:+ ("SELECT max(id) FROM " +:+ dquote +:+ "post" +:+ dquote) +:+ " ) " in
  let q := {| sql.s_cols := None; sql.s_from := "post"; sql.s_alias := "post";
              sql.s_joins := [];
              sql.s_where := [sql.GteL (sql.I "post" "id") frag];
              sql.s_order := None; sql.s_limit := Some 1%nat |} in
  let m1 := [example_second_post_loaded] in
  let err : option error := None in
  (length m1 <= 1)%nat
  /\ (exists later, Queried (logged example_state [q]) = Queried example_state ++ q :: later)
  /\ match Connection example_state !! "post" with
     | Some tab =>
         if bool_decide ("id" ∈ columns tab) then
           exists m incl,
             Cruds example_post_resource !! "post" = Some m
             /\ ResultToArrayOfMap example_externals example_post_resource
                  (map (sql.star tab) (random_selection lit frag 1 tab))
                  (GetColumnMap m) ∅ (logged example_state [q])
                = Ok ((m1, incl, err), logged example_state [q])
             /\ (err = None -> length m1 = length (random_selection lit frag 1 tab))
         else m1 = [] /\ err <> None /\ logged example_state [q] = logged example_state [q]
     | None => m1 = [] /\ err <> None /\ logged example_state [q] = logged example_state [q]
     end
  /\ (forall other,
        String.eqb other "mysql" = String.eqb "mysql" "mysql" ->
        GetRandomRow example_externals lit other example_post_resource "post" 1 example_state
        = GetRandomRow example_externals lit "mysql" example_post_resource "post" 1
            example_state).
Proof.
  intros lit frag q m1 err.
  apply (C8_random_row example_externals lit "mysql" example_post_resource "post" 1
           example_state (logged example_state [q]) m1 err).
  vm_compute. reflexivity.
Defined.

(** ** Permissions of guest-readable rows *)

Lemma no_join_not_group_resolution q : sql.s_joins q = [] -> ~ group_resolution q.
Proof.
  intros Hq [(t & c & v & ->)|(t & i & ->)]; discriminate.
Qed.

Lemma logs_only_owner_lookup ext tx d t ref c :
  logs_only (fun q => sql.s_joins q = [])
    (GetReferenceIdToObjectColumn_gen ext tx d t ref c).
Proof.
  unfold GetReferenceIdToObjectColumn_gen.
  apply logs_only_bind; [by apply logs_only_Queryx|].
  intros [rows|]; [|apply logs_only_ret].
  apply logs_only_bind; [apply logs_only_lift|]. intros m.
  apply logs_only_bind.
  - apply logs_only_ResultToArrayOfMap_at; [done|done|].
    intros r v H. by apply no_relation_requested in H.
  - intros [[results incl] [e|]]; [apply logs_only_ret|].
    destruct results; apply logs_only_ret.
Qed.

Lemma guest_only_not_usergroup rowType :
  guest_only rowType = true -> String.eqb rowType "usergroup" = false.
Proof.
  intros H. destruct (String.eqb_spec rowType "usergroup") as [->|]; [|done].
  vm_compute in H. discriminate.
Qed.

Section GuestOnly.

Variable ext : Externals.

(** C4 (as the code has it): for a row whose [__type] begins with [file.]
    or equals [none], and which either carries a [user_account_id] or has a
    string reference for which the owner lookup completes (and, for the
    transactional variant, has no cached permission), [GetRowPermission]
    and its transactional variant return a permission whose group list is
    the single entry with empty group, object and relation references and
    the bits GuestRead, and no statement they send resolves groups. *)
Theorem C4_guest_only_rows (tx : bool) (d : DbResource) (row : Row) (rowType : string)
    (st : State) :
  index row "__type" = VStr rowType ->
  guest_only rowType = true ->
  (tx = true -> cache_of st !! row_permission_key ext rowType row = None) ->
  (is_nil (index row USER_ACCOUNT_ID_COLUMN) = false
   \/ exists ref,
        row_reference row = VStr ref
        /\ returns (GetReferenceIdToObjectColumn_gen ext tx d rowType ref
                      USER_ACCOUNT_ID_COLUMN st)) ->
  exists p st' sent,
    row_permission ext tx d row st = Ok (p, st')
    /\ UserGroupId p =
         [{| auth.GroupReferenceId := ""; auth.ObjectReferenceId := "";
             auth.RelationReferenceId := ""; auth.Permission := auth.GuestRead |}]
    /\ Queried st' = Queried st ++ sent
    /\ Forall (fun q => ~ group_resolution q) sent.
Proof.
  intros Htype Hguest Hmiss Howner.
  pose proof (guest_only_not_usergroup _ Hguest) as Hug.
  assert (Hbody :
    exists p st' sent,
      (owner ← (if negb (String.eqb rowType "usergroup") then
                  if negb (is_nil (index row USER_ACCOUNT_ID_COLUMN))
                  then mret (string_or_empty (index row USER_ACCOUNT_ID_COLUMN))
                  else
                    ref ← lift (assert_string (row_reference row));
                    '(u, _) ← GetReferenceIdToObjectColumn_gen ext tx d rowType ref
                                USER_ACCOUNT_ID_COLUMN;
                    mret (string_or_empty u)
                else mret "");
       mret {| UserId := owner; UserGroupId := [guest_read_group]; Permission := 0 |}) st
      = Ok (p, st')
      /\ UserGroupId p = [guest_read_group]
      /\ Queried st' = Queried st ++ sent
      /\ Forall (fun q => ~ group_resolution q) sent).
  { rewrite Hug. simpl.
    destruct Howner as [Hown|(ref & Href & [[[u e] st1] Hret])].
    - rewrite Hown. simpl. unfold_M. eexists _, _, []. split; [reflexivity|].
      split; [done|]. by rewrite app_nil_r.
    - destruct (is_nil (index row USER_ACCOUNT_ID_COLUMN)); simpl.
      + rewrite Href. unfold_M. simpl. rewrite Hret.
        destruct (logs_only_owner_lookup _ _ _ _ _ _ _ _ _ Hret) as (l & Hl & Fl).
        eexists _, _, l. split; [reflexivity|]. split; [done|]. split; [done|].
        eapply Forall_impl; [exact Fl|]. intros q. apply no_join_not_group_resolution.
      + unfold_M. eexists _, _, []. split; [reflexivity|].
        split; [done|]. by rewrite app_nil_r. }
  destruct Hbody as (p & st' & sent & Hrun & Hp & Hq & Hs).
  exists p, st', sent. split; [|done].
  destruct tx; simpl.
  - unfold GetRowPermissionWithTransaction.
    fold (row_reference row). rewrite Htype. simpl.
    unfold mbind at 1. unfold M_bind. simpl.
    fold (row_permission_key ext rowType row).
    unfold mbind at 1. unfold M_bind.
    destruct (cache_lookup (row_permission_key ext rowType row) st) as [[hit st0]|] eqn:Hl.
    2:{ unfold cache_lookup in Hl. unfold_M. discriminate. }
    apply cache_lookup_Ok in Hl as [-> ->]. rewrite (Hmiss eq_refl). simpl.
    fold (guest_only rowType). rewrite Hguest.
    unfold GetReferenceIdToObjectColumnWithTransaction. exact Hrun.
  - unfold GetRowPermission.
    fold (row_reference row). rewrite Htype. simpl.
    unfold mbind at 1. unfold M_bind. simpl.
    fold (guest_only rowType). rewrite Hguest.
    unfold GetReferenceIdToObjectColumn. exact Hrun.
Qed.

End GuestOnly.

Lemma C4_guest_only_rows_witness :
  exists p st' sent,
    row_permission example_externals false example_resource
      {[ "__type" := VStr "file.image"; "reference_id" := VStr "r"; "permission" := VInt 0 ]}
      example_accounts = Ok (p, st')
    /\ UserGroupId p =
         [{| auth.GroupReferenceId := ""; auth.ObjectReferenceId := "";
             auth.RelationReferenceId := ""; auth.Permission := auth.GuestRead |}]
    /\ Queried st' = Queried example_accounts ++ sent
    /\ Forall (fun q => ~ group_resolution q) sent.
Proof.
  apply (C4_guest_only_rows example_externals false example_resource
           {[ "__type" := VStr "file.image"; "reference_id" := VStr "r";
              "permission" := VInt 0 ]} "file.image" example_accounts).
  - vm_compute. reflexivity.
  - vm_compute. reflexivity.
  - discriminate.
  - right. exists "r". split; [vm_compute; reflexivity|].
    eexists. vm_compute. reflexivity.
Defined.

(** C4 as stated fails: a row of type [none] that is known by its integer
    id and carries no owner makes both variants panic on [refId.(string)]
    before the guest entry is built. *)
Lemma C4_integer_id_counterexample :
  GetRowPermission example_externals example_resource
    {[ "__type" := VStr "none"; "id" := VInt 5 ]} example_accounts
  = Panic "interface conversion: interface {} is not string"
  /\ GetRowPermissionWithTransaction example_externals example_resource
       {[ "__type" := VStr "none"; "id" := VInt 5 ]} example_accounts
     = Panic "interface conversion: interface {} is not string".
Proof. split; vm_compute; reflexivity. Qed.

(** ** The identity round trip on the example table *)





(** ** Sorting and limits of the engine *)

Lemma dyadic_le_total a b : sql.dyadic_le a b = true \/ sql.dyadic_le b a = true.
Proof.
  unfold sql.dyadic_le. rewrite (Z.min_comm b.2 a.2).
  destruct (Z.leb_spec (a.1 * 2 ^ (a.2 - Z.min a.2 b.2)) (b.1 * 2 ^ (b.2 - Z.min a.2 b.2)));
    [by left|right]. apply Z.leb_le. lia.
Qed.

Lemma order_le_total a b : sql.order_le a b = true \/ sql.order_le b a = true.
Proof.
  unfold sql.order_le.
  destruct (Z.ltb_spec (sql.rank a) (sql.rank b)) as [Hab|Hab]; [by left|].
  destruct (Z.ltb_spec (sql.rank b) (sql.rank a)) as [Hba|Hba]; [by right|].
  destruct a, b; simpl in *; try lia; try (by left);
    try apply dyadic_le_total; apply String.leb_total.
Qed.

Section Sorting.

Context {A : Type} (le : A -> A -> bool).
Hypothesis le_total : forall x y, le x y = true \/ le y x = true.

Lemma insert_by_perm x l : Permutation (sql.insert_by le x l) (x :: l).
Proof.
  induction l as [|y l IH]; simpl; [done|].
  destruct (le x y); [done|]. rewrite IH. apply perm_swap.
Qed.

Lemma sort_by_perm l : Permutation (sql.sort_by le l) l.
Proof.
  induction l as [|x l IH]; simpl; [done|].
  unfold sql.sort_by in *. simpl. rewrite insert_by_perm. by constructor.
Qed.

Lemma insert_by_HdRel y x l :
  le y x = true -> HdRel (fun a b => le a b = true) y l ->
  HdRel (fun a b => le a b = true) y (sql.insert_by le x l).
Proof.
  intros Hyx Hl. destruct l as [|z l]; simpl; [by constructor|].
  destruct (le x z); constructor; [done|]. by inversion Hl.
Qed.

Lemma insert_by_sorted x l :
  Sorted (fun a b => le a b = true) l ->
  Sorted (fun a b => le a b = true) (sql.insert_by le x l).
Proof.
  induction l as [|y l IH]; intros Hl; simpl.
  - by repeat constructor.
  - destruct (le x y) eqn:Hxy.
    + constructor; [done|]. by constructor.
    + inversion Hl as [|? ? Hs Hh]; subst. constructor; [by apply IH|].
      apply insert_by_HdRel; [|done].
      destruct (le_total x y); [congruence|done].
Qed.

Lemma sort_by_sorted l : Sorted (fun a b => le a b = true) (sql.sort_by le l).
Proof.
  induction l as [|x l IH]; simpl; [constructor|].
  unfold sql.sort_by in *. simpl. by apply insert_by_sorted.
Qed.

End Sorting.

(** A statement with [ORDER BY c DESC LIMIT n] gives the first [n] of the
    matching candidates, newest first. *)
Lemma exec_select_newest db q c n found :
  sql.s_order q = Some (c, true) -> sql.s_limit q = Some n ->
  sql.query db q = Some found ->
  newest_of db q c n found /\ (length found <= n)%nat.
Proof.
  intros Ho Hn. unfold sql.query, sql.exec_select, newest_of.
  destruct (sql.prepare db q) as [sc|]; [|discriminate].
  destruct (db !! sql.s_from q) as [t|]; [|discriminate].
  intros [= <-]. unfold sql.limited, sql.ordered. rewrite Ho, Hn.
  split; [|rewrite length_map, length_take; lia].
  eexists sc, t, _. repeat split; [apply sort_by_perm|].
  unfold newest_first.
  apply (sort_by_sorted (fun x y => sql.order_le (sql.cell y c) (sql.cell x c))).
  intros x y. apply order_le_total.
Qed.

Lemma scan_ids_length rs : (length (scan_ids rs) <= length rs)%nat.
Proof.
  unfold scan_ids. induction rs as [|r rs IH]; [done|].
  cbn [omap list_omap]. destruct (scan_int64 _) as [z [e|]]; cbn [length]; lia.
Qed.

(** ** Counting the rows behind a list of ids *)

Lemma filter_or_length {A} (P Q : A -> bool) (l : list A) :
  (length (List.filter (fun a => P a || Q a) l)
   <= length (List.filter P l) + length (List.filter Q l))%nat.
Proof.
  induction l as [|a l IH]; simpl; [lia|].
  destruct (P a), (Q a); simpl; lia.
Qed.

Lemma ids_identify_tail r rs : ids_identify (r :: rs) -> ids_identify rs.
Proof.
  intros H i j ri rj z Hi Hj Ei Ej.
  assert (S i = S j) by (eapply (H (S i) (S j)); eauto). lia.
Qed.

Lemma filter_id_length rs z :
  ids_identify rs ->
  (length (List.filter (fun r => sql.sql_eq (index r "id") (VInt z)) rs) <= 1)%nat.
Proof.
  induction rs as [|r rs IH]; intros Hk; simpl; [lia|].
  destruct (sql.sql_eq (index r "id") (VInt z)) eqn:Hr.
  - simpl. destruct (List.filter _ rs) as [|r' rest] eqn:Hf; [simpl; lia|].
    exfalso. apply filter_cons_inv in Hf as [Hin Hr'].
    apply list_elem_of_lookup in Hin as [j Hj].
    assert (0 = S j)%nat by (eapply (Hk 0%nat (S j)); eauto). lia.
  - apply IH. by eapply ids_identify_tail.
Qed.

Lemma filter_ids_length rs (ids : list Z) :
  ids_identify rs ->
  (length (List.filter (fun r => existsb (sql.sql_eq (index r "id")) (map VInt ids)) rs)
   <= length ids)%nat.
Proof.
  intros Hk. induction ids as [|z ids IH]; simpl.
  - induction rs as [|r rs IHr]; simpl; [lia|].
    apply IHr. by eapply ids_identify_tail.
  - etransitivity; [apply filter_or_length|].
    pose proof (filter_id_length rs z Hk). lia.
Qed.

Lemma query_select_by_ids db t (ids : list Z) :
  sql.query db (select_star t [sql.In (sql.I t "id") (map VInt ids)]) =
  match db !! t with
  | None => None
  | Some tab =>
      if bool_decide ("id" ∈ columns tab)
      then Some (map (sql.star tab)
                   (List.filter (fun r => existsb (sql.sql_eq (index r "id")) (map VInt ids))
                      (rows tab)))
      else None
  end.
Proof.
  unfold sql.query, sql.exec_select, sql.prepare, sql.open_scope, select_star. simpl.
  destruct (db !! t) as [tab|] eqn:Ht; [|done].
  unfold sql.idents. simpl. unfold sql.resolves at 1. simpl. rewrite String.eqb_refl.
  destruct (bool_decide ("id" ∈ columns tab)); simpl; [|done].
  f_equal. unfold sql.limited, sql.ordered. rewrite candidates_no_literal. simpl.
  induction (rows tab) as [|r rs IH]; [done|].
  simpl. unfold sql.cell at 1. simpl. rewrite String.eqb_refl. rewrite andb_true_r.
  destruct (existsb _ _); simpl; [|exact IH].
  f_equal; [|exact IH].
  unfold sql.project. simpl. by rewrite String.eqb_refl.
Qed.

(** ** The relation pass *)

Lemma is_to_many_not_to_one r : is_to_many r = true -> is_to_one r = false.
Proof.
  unfold is_to_many, is_to_one. intros H.
  apply orb_true_iff in H as [H|H]; apply String.eqb_eq in H; by rewrite H.
Qed.

Lemma append_reference_ids_Ok name includes1 : forall row old row',
  row !! name = Some (VStrs old) ->
  append_reference_ids row name includes1 = Ok row' ->
  exists refs,
    map VStr refs = map (fun incl => index incl "reference_id") includes1
    /\ row' = <[name := VStrs (old ++ refs)]> row.
Proof.
  induction includes1 as [|incl rest IH]; intros row old row' Hold H; simpl in H.
  - simplify_eq. exists []. split; [done|].
    rewrite app_nil_r. by rewrite insert_id.
  - unfold index in H at 1. rewrite Hold in H. simpl in H.
    destruct (index incl "reference_id") eqn:Hr; simpl in H; try discriminate.
    eapply IH in H as (refs & Hrefs & ->); [|by rewrite lookup_insert_eq].
    exists (s :: refs). split; [simpl; by rewrite Hr, Hrefs|].
    rewrite insert_insert_eq. by rewrite <- app_assoc.
Qed.

Lemma attach_reference_ids_Ok row name includes1 row' :
  attach_reference_ids row name includes1 = Ok row' -> attached row name includes1 row'.
Proof.
  unfold attach_reference_ids, attached. destruct (row !! name) as [v|] eqn:Hv.
  - destruct v; try (by apply append_reference_ids_Ok);
      (destruct includes1 as [|incl rest]; simpl;
       [intros [= <-]; by exists []
       |unfold index at 1; rewrite Hv; simpl; discriminate]).
  - intros H. eapply append_reference_ids_Ok in H as (refs & Hrefs & ->);
      [|by rewrite lookup_insert_eq].
    exists refs. split; [done|]. by rewrite insert_insert_eq.
Qed.

Lemma attach_related_Next load_all d holder typeName name ids row localInclude st
    row' localInclude' st' :
  attach_related load_all d holder typeName name ids row localInclude st
    = Ok (Next (row', localInclude'), st') ->
  (ids = [] /\ row' = row /\ localInclude' = localInclude /\ st' = st)
  \/ (ids <> []
      /\ exists includes1 err,
           load_all (crud d holder) typeName [sql.In (sql.I typeName "id") (map VInt ids)] st
             = Ok ((includes1, err), st')
           /\ attached row name includes1 row'
           /\ localInclude' = localInclude ++ includes1).
Proof.
  unfold attach_related. destruct ids as [|z ids].
  - intros H. mstep. by left.
  - intros H. right. split; [done|].
    apply bind_Ok in H as ([includes1 err] & st1 & Hload & H).
    repeat mstep. exists includes1, err.
    split; [done|]. split; [by apply attach_reference_ids_Ok|done].
Qed.

Section RelationPass.

Variable ext : Externals.

Lemma batched_load_length tx depth dopt typeName ids st includes1 err st' :
  GetAllObjectsWithWhere_with tx (ResultToArrayOfMap_at ext depth tx) dopt typeName
    [sql.In (sql.I typeName "id") (map VInt ids)] st = Ok ((includes1, err), st') ->
  ids_identify_in (Connection st) typeName ->
  (length includes1 <= length ids)%nat.
Proof.
  intros H Hk. unfold GetAllObjectsWithWhere_with in H.
  assert (Hq : forall rs st1,
    Queryx (select_star typeName [sql.In (sql.I typeName "id") (map VInt ids)]) st
      = Ok (Some rs, st1) -> (length rs <= length ids)%nat).
  { intros rs st1 Hrs. apply Queryx_Ok in Hrs as (Hrs & _).
    rewrite query_select_by_ids in Hrs.
    destruct (Connection st !! typeName) as [tab|] eqn:Ht; [|discriminate].
    destruct (bool_decide _); [|discriminate]. simplify_eq.
    rewrite length_map. apply filter_ids_length. by apply Hk. }
  destruct tx, dopt as [d0|]; try discriminate H;
    repeat mstep; simpl; try lia;
    match goal with
    | Hl : ResultToArrayOfMap_at _ _ _ _ _ _ _ _ = Ok _, Hx : Queryx _ _ = Ok _ |- _ =>
        apply ResultToArrayOfMap_length in Hl as [Hl _]; apply Hq in Hx; lia
    end.
Qed.

(** C3 (as the code has it): for a requested to-many relation the id
    query finds the first 50 related ids, newest join-table row first.
    With no id the row and its includes stay as they are and the relation
    field is not created; otherwise the rows of the batched load are added
    to the includes and their reference ids are appended to the relation
    field, which starts empty when the row has none.  Where integer ids
    identify the rows of the related table, no more rows are attached than
    ids were found, so never more than 50. *)
Theorem C3_relation_cap (tx : bool) (depth : nat) (d : DbResource) (inc : gmap string bool)
    (relation : TableRelation) (row : Row) (localInclude : list Row) (st : State)
    (row' : Row) (localInclude' : list Row) (st' : State) :
  is_to_many relation = true ->
  included inc (GetObjectName relation) || included inc (GetSubjectName relation) = true ->
  relation_step (GetAllObjectsWithWhere_with tx (ResultToArrayOfMap_at ext depth tx))
    d inc (row, localInclude) relation st = Ok (Next (row', localInclude'), st') ->
  exists found includes1,
    newest_of (Connection st) (related_ids_query d relation (index row "reference_id"))
      (sql.I (GetJoinTableName relation) "created_at") 50 found
    /\ (length (scan_ids found) <= 50)%nat
    /\ localInclude' = localInclude ++ includes1
    /\ (scan_ids found = [] -> includes1 = [] /\ row' = row)
    /\ (scan_ids found <> [] ->
        (exists err, batched_load ext tx depth d relation (scan_ids found)
                       (logged st [related_ids_query d relation (index row "reference_id")])
                     = Ok ((includes1, err), st'))
        /\ attached row (relation_field d relation) includes1 row')
    /\ (ids_identify_in (Connection st) (related_type d relation) ->
        (length includes1 <= length (scan_ids found) <= 50)%nat).
Proof.
  intros Hmany Hinc H.
  unfold relation_step in H. rewrite Hinc in H. simpl in H.
  unfold batched_load, related_ids_query, related_type, relation_field, subject_side.
  assert (Hfound : forall q found st1,
    sql.s_order q = Some (sql.I (GetJoinTableName relation) "created_at", true) ->
    sql.s_limit q = Some 50%nat ->
    Queryx q st = Ok (Some found, st1) ->
    newest_of (Connection st) q (sql.I (GetJoinTableName relation) "created_at") 50 found
    /\ (length (scan_ids found) <= 50)%nat /\ st1 = logged st [q]).
  { intros q found st1 Ho Hl Hq.
    pose proof (Queryx_with_Ok _ _ _ _ _ Hq) as [_ ->].
    apply Queryx_Ok in Hq as (Hq & _). symmetry in Hq.
    destruct (exec_select_newest _ _ _ _ _ Ho Hl Hq) as [Hn Hlen].
    split; [done|]. split; [|done].
    pose proof (scan_ids_length found). lia. }
  assert (Hrest : forall q found name typeName st1,
    newest_of (Connection st) q (sql.I (GetJoinTableName relation) "created_at") 50 found
    /\ (length (scan_ids found) <= 50)%nat /\ st1 = logged st [q] ->
    attach_related (GetAllObjectsWithWhere_with tx (ResultToArrayOfMap_at ext depth tx))
      d (GetObject relation) typeName name (scan_ids found) row localInclude st1
      = Ok (Next (row', localInclude'), st') ->
    exists found includes1,
      newest_of (Connection st) q (sql.I (GetJoinTableName relation) "created_at") 50 found
      /\ (length (scan_ids found) <= 50)%nat
      /\ localInclude' = localInclude ++ includes1
      /\ (scan_ids found = [] -> includes1 = [] /\ row' = row)
      /\ (scan_ids found <> [] ->
          (exists err,
             GetAllObjectsWithWhere_with tx (ResultToArrayOfMap_at ext depth tx)
               (crud d (GetObject relation)) typeName
               [sql.In (sql.I typeName "id") (map VInt (scan_ids found))] (logged st [q])
             = Ok ((includes1, err), st'))
          /\ attached row name includes1 row')
      /\ (ids_identify_in (Connection st) typeName ->
          (length includes1 <= length (scan_ids found) <= 50)%nat)).
  { intros q found name typeName st1 (Hn & Hlen & ->) Ha.
    apply attach_related_Next in Ha
      as [(Hids & -> & -> & ->)|(Hids & includes1 & err & Hload & Hatt & ->)].
    - exists found, []. rewrite app_nil_r.
      do 4 (split; [done|]). split; [done|]. intros _. simpl. lia.
    - exists found, includes1.
      do 3 (split; [done|]). split; [done|]. split; [eauto|].
      intros Hk. split; [|done]. by eapply batched_load_length. }
  destruct (String.eqb (Subject relation) (TableName (tableInfo d))).
  - rewrite Hmany in H. apply bind_Ok in H as ([found|] & st1 & Hq & H); [|by mstep].
    eapply Hrest; [|exact H]. by eapply Hfound.
  - rewrite (is_to_many_not_to_one _ Hmany), Hmany in H.
    apply bind_Ok in H as ([found|] & st1 & Hq & H); [|by mstep].
    eapply Hrest; [|exact H]. by eapply Hfound.
Qed.

End RelationPass.

(** Closed equations are settled by evaluating both sides. *)
Ltac computes :=
  lazymatch goal with
  | |- @eq ?T _ ?b => vm_cast_no_check (@eq_refl T b)
  end.

Lemma sql_eq_int_inv a z : sql.sql_eq (VInt a) (VInt z) = true -> a = z.
Proof.
  unfold sql.sql_eq, sql.dyadic_le. simpl. rewrite Z.min_id, Z.sub_diag. simpl.
  intros H. apply andb_true_iff in H as [H1 H2].
  apply Z.leb_le in H1. apply Z.leb_le in H2. lia.
Qed.

Lemma example_authored_posts_ids : ids_identify (rows example_authored_posts).
Proof.
  intros i j ri rj z Hi Hj Ei Ej.
  destruct i as [|[|[|i]]]; simpl in Hi; simplify_eq;
    destruct j as [|[|[|j]]]; simpl in Hj; simplify_eq; try done;
    apply sql_eq_int_inv in Ei; apply sql_eq_int_inv in Ej; lia.
Qed.

Lemma C3_relation_cap_witness :
  let row := example_author_row 1 "a-1" "Ann" in
  let row' := <["post_id" := VStrs ["p-1"; "p-2"; "p-3"]]> row in
  let localInclude' := (RowsToMap example_externals (rows example_authored_posts) "post").1 in
  let st' := logged example_library
               [objects_of_subject_query author_has_posts (VStr "a-1");
                select_star "post" [sql.In (sql.I "post" "id") [VInt 3; VInt 2; VInt 1]]] in
  ids_identify_in (Connection example_library)
    (related_type example_author_resource author_has_posts)
  /\ exists found includes1,
       newest_of (Connection example_library)
         (related_ids_query example_author_resource author_has_posts
            (index row "reference_id"))
         (sql.I (GetJoinTableName author_has_posts) "created_at") 50 found
       /\ (length (scan_ids found) <= 50)%nat
       /\ localInclude' = [] ++ includes1
       /\ (scan_ids found = [] -> includes1 = [] /\ row' = row)
       /\ (scan_ids found <> [] ->
           (exists err,
              batched_load example_externals false 0 example_author_resource
                author_has_posts (scan_ids found)
                (logged example_library
                   [related_ids_query example_author_resource author_has_posts
                      (index row "reference_id")])
              = Ok ((includes1, err), st'))
           /\ attached row (relation_field example_author_resource author_has_posts)
                includes1 row')
       /\ (ids_identify_in (Connection example_library)
             (related_type example_author_resource author_has_posts) ->
           (length includes1 <= length (scan_ids found) <= 50)%nat).
Proof.
  intros row row' localInclude' st'. split.
  - intros tab Htab. vm_compute in Htab. simplify_eq. exact example_authored_posts_ids.
  - apply (C3_relation_cap example_externals false 0 example_author_resource
             {[ "post_id" := true ]} author_has_posts row [] example_library
             row' localInclude' st').
    + reflexivity.
    + reflexivity.
    + computes.
Defined.

(** C3 as stated fails: for an author without posts the loader leaves
    the requested relation field out of the row instead of making it the
    empty list of reference ids. *)
Lemma C3_no_related_rows_counterexample :
  result (GetRowsByWhereClause example_externals example_author_resource "author"
            {[ "post_id" := true ]}
            [sql.Eq (sql.I "author" "reference_id") (VStr "a-2")] example_library)
  = Ok ([example_author_row 2 "a-2" "Bob"], [[]], None)
  /\ example_author_row 2 "a-2" "Bob" !! "post_id" = None
  /\ example_author_row 2 "a-2" "Bob" !! "post_id" <> Some (VStrs []).
Proof.
  split; [computes|].
  assert (H : example_author_row 2 "a-2" "Bob" !! "post_id" = None) by computes.
  split; [exact H|]. rewrite H. discriminate.
Qed.

(** The field lists the posts in the order of the batched load, which is
    the order of the table, not of the id query. *)
Example authored_posts_scenario :
  result (GetRowsByWhereClause example_externals example_author_resource "author"
            {[ "post_id" := true ]}
            [sql.Eq (sql.I "author" "reference_id") (VStr "a-1")] example_library)
  = Ok ([<["post_id" := VStrs ["p-1"; "p-2"; "p-3"]]> (example_author_row 1 "a-1" "Ann")],
        [(RowsToMap example_externals (rows example_authored_posts) "post").1], None)
  /\ scan_ids <$> sql.query (Connection example_library)
       (related_ids_query example_author_resource author_has_posts (VStr "a-1"))
     = Some [3; 2; 1].
Proof. split; computes. Qed.

(** Of 60 posts the newest 50 are attached. *)
Example relation_cap_scenario :
  let newest := seqZ 11 50 in
  let row := <["post_id" := VStrs (map (fun i => "p-" +:+ pretty i) newest)]>
               (example_author_row 1 "a-1" "Ann") in
  let includes :=
    map (fun i => ({[ "__type" := VStr "post"; "id" := VInt i;
                      "reference_id" := VStr ("p-" +:+ pretty i); "title" := VNil ]} : Row))
      newest in
  result (GetRowsByWhereClause example_externals example_author_resource "author"
            {[ "post_id" := true ]}
            [sql.Eq (sql.I "author" "reference_id") (VStr "a-1")] (example_prolific 60))
  = Ok ([row], [includes], None)
  /\ length includes = 50%nat.
Proof. intros newest row includes. split; computes. Qed.

(** * Further properties of the sources *)

(** ** Scanning a reference id *)

(** X1: whatever the receiver held, scanning the bytes [MarshalBinary]
    gives for a 16-byte id sets the receiver to that id without error;
    a cell that is not a byte slice is refused and leaves the receiver
    alone; a byte slice shorter than 16 panics; and a receiver that held
    16 bytes still holds 16 bytes when [Scan] returns. *)
Theorem X1_scan_round_trip (dr d : DaptinId.DaptinReferenceId) (v : DaptinIdSql.driver_value) :
  DaptinId.well_sized d -> DaptinId.well_sized dr ->
  DaptinIdSql.Scan dr (DaptinIdSql.DBytes (DaptinId.MarshalBinary d).1) = Ok (d, None)
  /\ (forall b, (length b < 16)%nat ->
        exists msg, DaptinIdSql.Scan dr (DaptinIdSql.DBytes b) = Panic msg)
  /\ ((forall b, v <> DaptinIdSql.DBytes b) ->
        DaptinIdSql.Scan dr v = Ok (dr, Some "Conversion failed"))
  /\ (forall dr' e, DaptinIdSql.Scan dr v = Ok (dr', e) -> DaptinId.well_sized dr').
Proof.
  unfold DaptinId.well_sized, DaptinIdSql.Scan, DaptinIdSql.to_array, DaptinId.MarshalBinary.
  intros Hd Hdr. simpl. repeat split.
  - rewrite Hd. simpl. rewrite <- Hd. by rewrite firstn_all.
  - intros b Hb. apply Nat.ltb_lt in Hb. rewrite Hb. eauto.
  - intros Hv. destruct v; try done. by destruct (Hv b).
  - intros dr' e. destruct v; try (by intros [= <- <-]).
    destruct (length b <? 16)%nat eqn:Hb; [discriminate|].
    intros [= <- <-]. apply Nat.ltb_ge in Hb. rewrite length_take. lia.
Qed.

Lemma X1_scan_round_trip_witness :
  let d := repeat x2a 16 in
  DaptinIdSql.Scan DaptinId.NullReferenceId
    (DaptinIdSql.DBytes (DaptinId.MarshalBinary d).1) = Ok (d, None)
  /\ (forall b, (length b < 16)%nat ->
        exists msg, DaptinIdSql.Scan DaptinId.NullReferenceId (DaptinIdSql.DBytes b)
                    = Panic msg)
  /\ ((forall b, DaptinIdSql.DString "0123456789abcdef" <> DaptinIdSql.DBytes b) ->
        DaptinIdSql.Scan DaptinId.NullReferenceId (DaptinIdSql.DString "0123456789abcdef")
        = Ok (DaptinId.NullReferenceId, Some "Conversion failed"))
  /\ (forall dr' e,
        DaptinIdSql.Scan DaptinId.NullReferenceId (DaptinIdSql.DString "0123456789abcdef")
        = Ok (dr', e) -> DaptinId.well_sized dr').
Proof.
  intros d.
  apply (X1_scan_round_trip DaptinId.NullReferenceId d
           (DaptinIdSql.DString "0123456789abcdef")); reflexivity.
Defined.

(** ** The tables of the web client's store *)

Lemma foldl_Vue_set_tables {V} (l : list (string * V)) : forall st : mutations.state V,
  NoDup l.*1 ->
  mutations.tables (foldl (fun st kv => mutations.Vue_set st kv.1 kv.2) st l)
  = list_to_map l ∪ mutations.tables st
  /\ mutations.token (foldl (fun st kv => mutations.Vue_set st kv.1 kv.2) st l)
     = mutations.token st
  /\ mutations.defaultCloudStore (foldl (fun st kv => mutations.Vue_set st kv.1 kv.2) st l)
     = mutations.defaultCloudStore st
  /\ mutations.selectedTable (foldl (fun st kv => mutations.Vue_set st kv.1 kv.2) st l)
     = mutations.selectedTable st.
Proof.
  induction l as [|[k v] l IH]; intros st Hnd; simpl.
  - by rewrite (left_id_L ∅ (∪)).
  - apply NoDup_cons in Hnd as [Hk Hnd].
    destruct (IH (mutations.Vue_set st k v) Hnd) as (Ht & H1 & H2 & H3).
    rewrite Ht, H1, H2, H3. simpl. split; [|done].
    rewrite <- insert_union_l.
    rewrite insert_union_r; [done|].
    by apply not_elem_of_list_to_map_1.
Qed.

(** X2: [setTables] adds the given tables to the ones the store holds: a
    name that is given gets the given value, every other name keeps what it
    had, whatever the order of the enumeration; the other fields of the
    store are not touched. *)
Theorem X2_setTables_merges {V} (st : mutations.state V) (ts : gmap string V) :
  mutations.tables (mutations.setTables st ts) = ts ∪ mutations.tables st
  /\ (forall name, mutations.tables (mutations.setTables st ts) !! name
                   = match ts !! name with
                     | Some v => Some v
                     | None => mutations.tables st !! name
                     end)
  /\ mutations.token (mutations.setTables st ts) = mutations.token st
  /\ mutations.defaultCloudStore (mutations.setTables st ts) = mutations.defaultCloudStore st
  /\ mutations.selectedTable (mutations.setTables st ts) = mutations.selectedTable st.
Proof.
  unfold mutations.setTables.
  destruct (foldl_Vue_set_tables (map_to_list ts) st (NoDup_fst_map_to_list ts))
    as (Ht & H1 & H2 & H3).
  rewrite list_to_map_to_list in Ht.
  split; [done|]. split; [|done].
  intros name. rewrite Ht, lookup_union.
  destruct (ts !! name), (mutations.tables st !! name); done.
Qed.

(** ** Evaluating the monad's primitives *)

Lemma bind_eq {A B} (m : M A) (f : A -> M B) st :
  (m ≫= f) st = match m st with
                | Ok (a, st1) => f a st1
                | Panic msg => Panic msg
                end.
Proof. reflexivity. Qed.

Lemma cache_lookup_eq k st :
  cache_lookup k st = Ok (e_value <$> cache_of st !! k, st).
Proof.
  unfold cache_lookup, cache_of, OlricCache_Get. unfold_M.
  destruct (OlricCache st); simpl; [done|]. by rewrite lookup_empty.
Qed.

Lemma Queryx_eq q st :
  Queryx q st = Ok (sql.query (Connection st) q, logged st [q]).
Proof. reflexivity. Qed.

Lemma cache_store_eq k v ttl st :
  cache_store k v ttl st =
  match OlricCache st with
  | Some c =>
      match c !! k with
      | Some _ => Ok (Some "key found", set_OlricCache st (Some c))
      | None =>
          Ok (None, set_OlricCache st (Some (<[k := {| e_value := v; e_ttl := ttl |}]> c)))
      end
  | None => Ok (None, st)
  end.
Proof.
  unfold cache_store, OlricCache_PutIfEx. unfold_M.
  destruct (OlricCache st) as [c|]; [|done]. by destruct (c !! k).
Qed.

Lemma cache_of_logged st l : cache_of (logged st l) = cache_of st.
Proof. reflexivity. Qed.

Lemma cache_of_Some st c : OlricCache st = Some c -> cache_of st = c.
Proof. unfold cache_of. by intros ->. Qed.

(** ** What the identity lookups leave in the cache *)

(** X3: with a cache, a plain lookup that could send its statement
    answers its repetition from the cache: the same value, no error and
    no statement, also when the first call found no row and returned the
    zero value with an error. *)
Theorem X3_plain_lookup_repeats (typeName : string) (st : State) (c : gmap string entry) :
  OlricCache st = Some c ->
  (forall id s e st1,
     prepares (Connection st) (select_where typeName ["reference_id"] "id" (VInt id)) ->
     GetIdToReferenceId typeName id st = Ok ((s, e), st1) ->
     GetIdToReferenceId typeName id st1 = Ok ((s, None), st1))
  /\ (forall referenceId z e st1,
        prepares (Connection st)
          (select_where typeName ["id"] "reference_id" (VStr referenceId)) ->
        GetReferenceIdToId typeName referenceId st = Ok ((z, e), st1) ->
        GetReferenceIdToId typeName referenceId st1 = Ok ((z, None), st1)).
Proof.
  intros Hc. split.
  - intros id s e st1 [rs Hq]. unfold GetIdToReferenceId.
    rewrite !bind_eq, !cache_lookup_eq. rewrite (cache_of_Some _ _ Hc).
    destruct (c !! itr_key typeName id) as [old|] eqn:Hk; simpl.
    + rewrite bind_eq. unfold lift at 1.
      destruct (cached_string (e_value old)) as [s0|] eqn:Hs; [|discriminate].
      intros [= <- <- <-].
      rewrite (cache_of_Some _ _ Hc), Hk. simpl.
      rewrite bind_eq. unfold lift. by rewrite Hs.
    + rewrite bind_eq, Queryx_eq, Hq.
      destruct (scan_first scan_string "" "reference_id" rs) as [str err].
      rewrite bind_eq, cache_store_eq. simpl. rewrite Hc, Hk.
      intros [= <- <- <-]. simpl. unfold cache_of. simpl.
      rewrite lookup_insert_eq. simpl. by rewrite bind_eq.
  - intros referenceId z e st1 [rs Hq]. unfold GetReferenceIdToId.
    rewrite !bind_eq, !cache_lookup_eq. rewrite (cache_of_Some _ _ Hc).
    destruct (c !! riti_key typeName referenceId) as [old|] eqn:Hk; simpl.
    + rewrite bind_eq. unfold lift at 1.
      destruct (cached_int64 (e_value old)) as [z0|] eqn:Hs; [|discriminate].
      intros [= <- <- <-].
      rewrite (cache_of_Some _ _ Hc), Hk. simpl.
      rewrite bind_eq. unfold lift. by rewrite Hs.
    + rewrite bind_eq, Queryx_eq, Hq.
      destruct (scan_first scan_int64 0 "id" rs) as [i err].
      rewrite bind_eq, cache_store_eq. simpl. rewrite Hc, Hk.
      intros [= <- <- <-]. simpl. unfold cache_of. simpl.
      rewrite lookup_insert_eq. simpl. by rewrite bind_eq.
Qed.

Lemma X3_plain_lookup_repeats_witness :
  (GetIdToReferenceId "post" 9 example_state
     = Ok (("", Some "sql: no rows in result set"), example_state_after_miss)
   /\ GetIdToReferenceId "post" 9 example_state_after_miss
      = Ok (("", None), example_state_after_miss))
  /\ (GetReferenceIdToId "post" "r-9" example_state
        = Ok ((0, Some "sql: no rows in result set"), example_state_after_reference_miss)
      /\ GetReferenceIdToId "post" "r-9" example_state_after_reference_miss
         = Ok ((0, None), example_state_after_reference_miss)).
Proof.
  destruct (X3_plain_lookup_repeats "post" example_state ∅ eq_refl) as [H1 H2].
  split; (split; [computes|]).
  - apply (H1 9 "" (Some "sql: no rows in result set")); [exists []|]; computes.
  - apply (H2 "r-9" 0 (Some "sql: no rows in result set")); [exists []|]; computes.
Defined.

(** X4: with a cache, the transactional id-to-reference lookup reports
    the error of the cache put instead of the error of the scan: whenever
    its statement can be sent it returns no error, and for an id without
    a row it returns the empty reference without error.  Without a cache
    the same lookup reports the missing row. *)
Theorem X4_transactional_lookup_hides_miss (typeName : string) (id : Z) (st : State) :
  prepares (Connection st) (select_where typeName ["reference_id"] "id" (VInt id)) ->
  (forall c s e st1,
     OlricCache st = Some c ->
     GetIdToReferenceIdWithTransaction typeName id st = Ok ((s, e), st1) ->
     e = None
     /\ (c !! itr_key typeName id = None ->
         sql.query (Connection st) (select_where typeName ["reference_id"] "id" (VInt id))
         = Some [] -> s = ""))
  /\ (OlricCache st = None ->
      sql.query (Connection st) (select_where typeName ["reference_id"] "id" (VInt id))
      = Some [] ->
      GetIdToReferenceIdWithTransaction typeName id st
      = Ok (("", Some "sql: no rows in result set"),
            logged st [select_where typeName ["reference_id"] "id" (VInt id)])).
Proof.
  intros [rs Hq]. unfold GetIdToReferenceIdWithTransaction. split.
  - intros c s e st1 Hc.
    rewrite !bind_eq, !cache_lookup_eq. rewrite (cache_of_Some _ _ Hc).
    destruct (c !! itr_key typeName id) as [old|] eqn:Hk; simpl.
    + rewrite bind_eq. unfold lift.
      destruct (cached_string (e_value old)); [|discriminate].
      by intros [= <- <- <-].
    + rewrite bind_eq, Queryx_eq, Hq.
      destruct (scan_first scan_string "" "reference_id" rs) as [str err] eqn:Hscan.
      rewrite bind_eq. unfold get_state. simpl. rewrite Hc.
      rewrite bind_eq, cache_store_eq. simpl. rewrite Hc, Hk.
      intros [= <- <- <-]. split; [done|].
      intros _ [= ->]. simpl in Hscan. by injection Hscan as <- _.
  - intros Hc Hrows. rewrite Hq in Hrows. injection Hrows as ->.
    rewrite !bind_eq, !cache_lookup_eq. unfold cache_of. rewrite Hc. simpl.
    rewrite lookup_empty. simpl.
    rewrite bind_eq, Queryx_eq, Hq. simpl.
    rewrite bind_eq. unfold get_state. simpl. by rewrite Hc.
Qed.

Lemma X4_transactional_lookup_hides_miss_witness :
  (forall c s e st1,
     OlricCache example_state = Some c ->
     GetIdToReferenceIdWithTransaction "post" 9 example_state = Ok ((s, e), st1) ->
     e = None
     /\ (c !! itr_key "post" 9 = None ->
         sql.query (Connection example_state)
           (select_where "post" ["reference_id"] "id" (VInt 9)) = Some [] -> s = ""))
  /\ (OlricCache example_state = None ->
      sql.query (Connection example_state)
        (select_where "post" ["reference_id"] "id" (VInt 9)) = Some [] ->
      GetIdToReferenceIdWithTransaction "post" 9 example_state
      = Ok (("", Some "sql: no rows in result set"),
            logged example_state [select_where "post" ["reference_id"] "id" (VInt 9)])).
Proof.
  apply (X4_transactional_lookup_hides_miss "post" 9 example_state).
  exists []. computes.
Defined.

Example transactional_lookup_scenario :
  result (GetIdToReferenceIdWithTransaction "post" 9 example_state) = Ok ("", None)
  /\ result (GetIdToReferenceIdWithTransaction "post" 9 example_state_uncached)
     = Ok ("", Some "sql: no rows in result set").
Proof. split; computes. Qed.

(** X5: the transactional reference-to-id lookup caches only what a
    successful scan read: a call that returns an error leaves the cache as
    it was, and an entry it adds sits under the key of the lookup and holds
    the id it returned without error. *)
Theorem X5_transactional_reference_lookup_caches_successes
    (typeName referenceId : string) (st : State) (z : Z) (e : option error) (st1 : State) :
  GetReferenceIdToIdWithTransaction typeName referenceId st = Ok ((z, e), st1) ->
  (e <> None -> OlricCache st1 = OlricCache st)
  /\ (forall k en, new_entry st st1 k en ->
        e = None /\ k = riti_key typeName referenceId /\ e_value en = CInt64 z).
Proof.
  unfold GetReferenceIdToIdWithTransaction.
  rewrite !bind_eq, !cache_lookup_eq.
  destruct (cache_of st !! riti_key typeName referenceId) as [old|] eqn:Hk; simpl.
  - rewrite bind_eq. unfold lift.
    destruct (cached_int64 (e_value old)); [|discriminate].
    intros [= <- <- <-]. split; [done|].
    intros k en Hnew. by apply same_cache_no_new in Hnew.
  - rewrite bind_eq, Queryx_eq.
    destruct (sql.query (Connection st) _) as [rs|]; simpl.
    + destruct (scan_first scan_int64 0 "id" rs) as [i [err|]].
      * rewrite bind_eq. simpl. intros [= <- <- <-]. split; [done|].
        intros k en Hnew. by apply same_cache_no_new in Hnew.
      * rewrite bind_eq, cache_store_eq. simpl.
        destruct (OlricCache st) as [c|] eqn:Hc.
        -- unfold cache_of in Hk. rewrite Hc in Hk. simpl in Hk. rewrite Hk.
           intros [= <- <- <-]. split; [done|].
           intros k en [Hold Hnew]. split; [done|].
           unfold cache_of in Hold, Hnew. rewrite Hc in Hold. simpl in Hold, Hnew.
           destruct (decide (k = riti_key typeName referenceId)) as [->|Hne].
           ++ rewrite lookup_insert_eq in Hnew. by injection Hnew as <-.
           ++ rewrite lookup_insert_ne in Hnew by done. congruence.
        -- intros [= <- <- <-]. split; [done|].
           intros k en Hnew. by apply same_cache_no_new in Hnew.
    + intros [= <- <- <-]. split; [done|].
      intros k en Hnew. by apply same_cache_no_new in Hnew.
Qed.

Lemma X5_transactional_reference_lookup_caches_successes_witness :
  (Some "sql: no rows in result set" <> None ->
   OlricCache (logged example_state [select_where "post" ["id"] "reference_id" (VStr "r-9")])
   = OlricCache example_state)
  /\ (forall k en,
        new_entry example_state
          (logged example_state [select_where "post" ["id"] "reference_id" (VStr "r-9")]) k en ->
        Some "sql: no rows in result set" = None
        /\ k = riti_key "post" "r-9" /\ e_value en = CInt64 0).
Proof.
  apply (X5_transactional_reference_lookup_caches_successes "post" "r-9" example_state 0
           (Some "sql: no rows in result set")
           (logged example_state [select_where "post" ["id"] "reference_id" (VStr "r-9")])).
  computes.
Defined.

(** ** Permissions found by a where clause *)

Lemma ensure_cache_eq d st : ensure_cache d st = Ok (tt, with_cache_of d st).
Proof.
  unfold ensure_cache, with_cache_of. unfold_M. by destruct (OlricCache st).
Qed.

Lemma permission_by_where_unfold tx d objectType colName colValue st :
  permission_by_where tx d objectType colName colValue st =
  match cache_of (with_cache_of d st) !! permission_where_key tx objectType colName colValue with
  | Some old => lift (cached_permission (e_value old)) (with_cache_of d st)
  | None =>
      match sql.query (Connection st) (permission_where_query objectType colName colValue) with
      | None | Some [] =>
          Ok (zero_perm,
              logged (with_cache_of d st) [permission_where_query objectType colName colValue])
      | Some (m :: _) =>
          (owner ← (if is_nil (index m "user_account_id") then mret ""
                    else
                      uid ← lift (assert_int64 (index m USER_ACCOUNT_ID_COLUMN));
                      '(user, err) ← (if tx
                                      then GetIdToReferenceIdWithTransaction
                                             USER_ACCOUNT_TABLE_NAME uid
                                      else GetIdToReferenceId USER_ACCOUNT_TABLE_NAME uid);
                      mret (match err with None => user | Some _ => "" end));
           id ← lift (assert_int64 (index m "id"));
           gs ← (if tx then GetObjectGroupsByObjectIdWithTransaction objectType id
                 else GetObjectGroupsByObjectId d objectType id);
           p ← lift (assert_int64 (index m "permission"));
           let perm := {| UserId := owner; UserGroupId := gs; Permission := p |} in
           _ ← cache_store (permission_where_key tx objectType colName colValue)
                 (CPermission perm) (if tx then 10 * Minute else 10 * Second);
           mret perm)
            (logged (with_cache_of d st) [permission_where_query objectType colName colValue])
      end
  end.
Proof.
  assert (Hdb : Connection (with_cache_of d st) = Connection st).
  { unfold with_cache_of. by destruct (OlricCache st). }
  unfold permission_by_where, permission_where_key, permission_where_query.
  destruct tx; simpl.
  - unfold GetObjectPermissionByWhereClauseWithTransaction.
    rewrite bind_eq, ensure_cache_eq, bind_eq, cache_lookup_eq.
    destruct (cache_of (with_cache_of d st) !! _) as [old|]; simpl; [done|].
    rewrite bind_eq, Queryx_eq, Hdb.
    by destruct (sql.query (Connection st) _) as [[|m rest]|].
  - unfold GetObjectPermissionByWhereClause.
    rewrite bind_eq, ensure_cache_eq, bind_eq, cache_lookup_eq.
    destruct (cache_of (with_cache_of d st) !! _) as [old|]; simpl; [done|].
    rewrite bind_eq, Queryx_eq, Hdb.
    by destruct (sql.query (Connection st) _) as [[|m rest]|].
Qed.

(** X6: for an object that no row answers to, or a table or column the
    server does not know, both permission lookups return the zero
    permission (no owner, no group, no bit) and put nothing in the cache,
    so that the next call asks the database again. *)
Theorem X6_missing_object_has_no_permission (tx : bool) (d : DbResource)
    (objectType colName colValue : string) (st : State) :
  cache_of (with_cache_of d st) !! permission_where_key tx objectType colName colValue = None ->
  sql.query (Connection st) (permission_where_query objectType colName colValue) = None
  \/ sql.query (Connection st) (permission_where_query objectType colName colValue) = Some [] ->
  permission_by_where tx d objectType colName colValue st
  = Ok (zero_perm,
        logged (with_cache_of d st) [permission_where_query objectType colName colValue]).
Proof.
  intros Hk Hq. rewrite permission_by_where_unfold, Hk.
  by destruct Hq as [-> | ->].
Qed.

Lemma X6_missing_object_has_no_permission_witness :
  permission_by_where false example_resource "world" "table_name" "blog" example_accounts
  = Ok (zero_perm,
        logged (with_cache_of example_resource example_accounts)
          [permission_where_query "world" "table_name" "blog"]).
Proof.
  apply (X6_missing_object_has_no_permission false example_resource "world" "table_name"
           "blog" example_accounts).
  - computes.
  - left. computes.
Defined.

(** X7: when no permission is cached and a row answers, the permission
    the lookups return is read off the first such row: its bits are the
    integer in the [permission] cell, the row carries an integer [id], and
    a row without owner gives the empty owner.  (A row whose [id] or
    [permission] is not an integer makes the call panic.) *)
Theorem X7_permission_of_first_row (tx : bool) (d : DbResource)
    (objectType colName colValue : string) (st st' : State) (m : Row) (rest : list Row)
    (p : PermissionInstance) :
  cache_of (with_cache_of d st) !! permission_where_key tx objectType colName colValue = None ->
  sql.query (Connection st) (permission_where_query objectType colName colValue)
    = Some (m :: rest) ->
  permission_by_where tx d objectType colName colValue st = Ok (p, st') ->
  index m "permission" = VInt (Permission p)
  /\ (exists id, index m "id" = VInt id)
  /\ (index m "user_account_id" = VNil -> UserId p = "").
Proof.
  intros Hk Hq. rewrite permission_by_where_unfold, Hk, Hq. intros H.
  apply bind_Ok in H as (owner & s1 & Howner & H).
  apply bind_Ok in H as (id & s2 & Hid & H).
  apply bind_Ok in H as (gs & s3 & Hgs & H).
  apply bind_Ok in H as (pz & s4 & Hp & H).
  apply bind_Ok in H as (u & s5 & Hput & H).
  unfold mret, M_ret in H. injection H as <- <-. simpl.
  unfold lift in Hid, Hp.
  destruct (index m "id") as [|i| | | | |] eqn:Ei; try discriminate.
  destruct (index m "permission") as [|z| | | | |] eqn:Ep; try discriminate.
  simpl in Hp. injection Hp as <- <-.
  split; [done|]. split; [by exists i|].
  intros Hnil. rewrite Hnil in Howner. simpl in Howner.
  unfold mret, M_ret in Howner. by injection Howner as <- <-.
Qed.

Lemma X7_permission_of_first_row_witness :
  index ({[ "user_account_id" := VInt 1; "permission" := VInt 4352; "id" := VInt 7 ]} : Row)
    "permission"
  = VInt (Permission {| UserId := "u-1"; UserGroupId := []; Permission := 4352 |})
  /\ (exists id,
        index ({[ "user_account_id" := VInt 1; "permission" := VInt 4352;
                  "id" := VInt 7 ]} : Row) "id" = VInt id)
  /\ (index ({[ "user_account_id" := VInt 1; "permission" := VInt 4352;
                "id" := VInt 7 ]} : Row) "user_account_id" = VNil ->
      UserId {| UserId := "u-1"; UserGroupId := []; Permission := 4352 |} = "").
Proof.
  apply (X7_permission_of_first_row false example_resource "world" "table_name" "blog"
           (example_blog auth.UserExecute) example_blog_after_lookup
           {[ "user_account_id" := VInt 1; "permission" := VInt 4352; "id" := VInt 7 ]} []
           {| UserId := "u-1"; UserGroupId := []; Permission := 4352 |}); computes.
Defined.

(** ** The groups of a user group *)

(** X8: the groups of a user-group id that has no row, with a cache.  The
    plain method returns no group on the first call and, the failed lookup
    being cached as the empty reference, one entry with empty references
    and the default permission of [usergroup] on the second; the
    transactional function returns such an entry on the first call. *)
Theorem X8_groups_of_missing_usergroup (d : DbResource) (ug : TableInfo) (id : Z)
    (st : State) (c : gmap string entry) :
  OlricCache st = Some c ->
  c !! itr_key "usergroup" id = None ->
  sql.query (Connection st) (select_where "usergroup" ["reference_id"] "id" (VInt id))
    = Some [] ->
  Cruds d !! "usergroup" = Some ug ->
  (exists st1,
     GetObjectGroupsByObjectId d "usergroup" id st = Ok ([], st1)
     /\ GetObjectGroupsByObjectId d "usergroup" id st1
        = Ok ([self_group "" (DefaultPermission ug)], st1))
  /\ (c !! ("object-groups-usergroup-" +:+ pretty id) = None ->
      exists st2,
        GetObjectGroupsByObjectIdWithTransaction "usergroup" id st
        = Ok ([self_group "" auth.DEFAULT_PERMISSION], st2)).
Proof.
  intros Hc Hk Hq Hug. split.
  - unfold GetObjectGroupsByObjectId.
    rewrite bind_eq. unfold GetIdToReferenceId at 1.
    rewrite bind_eq, cache_lookup_eq, (cache_of_Some _ _ Hc), Hk. simpl.
    rewrite bind_eq, Queryx_eq, Hq. simpl.
    rewrite bind_eq, cache_store_eq. simpl. rewrite Hc, Hk. simpl.
    eexists. split; [reflexivity|].
    rewrite bind_eq. unfold GetIdToReferenceId.
    rewrite bind_eq, cache_lookup_eq. unfold cache_of. simpl.
    rewrite lookup_insert_eq. simpl.
    rewrite bind_eq. unfold lift, crud_model. by rewrite Hug.
  - intros Hg. unfold GetObjectGroupsByObjectIdWithTransaction.
    rewrite bind_eq, cache_lookup_eq, (cache_of_Some _ _ Hc). simpl.
    change ("object-groups-" +:+ "usergroup" +:+ "-" +:+ pretty id)
      with ("object-groups-usergroup-" +:+ pretty id).
    rewrite Hg. simpl.
    rewrite bind_eq. unfold GetIdToReferenceIdWithTransaction.
    rewrite bind_eq, cache_lookup_eq, (cache_of_Some _ _ Hc), Hk. simpl.
    rewrite bind_eq, Queryx_eq, Hq. simpl.
    rewrite bind_eq. unfold get_state. simpl. rewrite Hc.
    rewrite bind_eq, cache_store_eq. simpl. rewrite Hc, Hk. simpl.
    eexists. reflexivity.
Qed.

Lemma X8_groups_of_missing_usergroup_witness :
  (exists st1,
     GetObjectGroupsByObjectId example_usergroup_resource "usergroup" 5 example_groups
     = Ok ([], st1)
     /\ GetObjectGroupsByObjectId example_usergroup_resource "usergroup" 5 st1
        = Ok ([self_group "" (DefaultPermission example_usergroup_info)], st1))
  /\ ((∅ : gmap string entry) !! ("object-groups-usergroup-" +:+ pretty 5) = None ->
      exists st2,
        GetObjectGroupsByObjectIdWithTransaction "usergroup" 5 example_groups
        = Ok ([self_group "" auth.DEFAULT_PERMISSION], st2)).
Proof.
  apply (X8_groups_of_missing_usergroup example_usergroup_resource example_usergroup_info 5
           example_groups ∅); computes.
Defined.

(** ** Row permissions read off the row *)



Section RowPermission.

Variable ext : Externals.



End RowPermission.



(** ** What the administrator bootstrap writes *)

Lemma BecomeAdmin_steps d userId reference_id st st' :
  BecomeAdmin d userId reference_id st = Ok (true, st') ->
  exists sa sb db1,
    CanBecomeAdmin st = Ok (true, sa)
    /\ for_each (own_table userId) (map snd (map_to_list (Cruds d))) sa = Ok (tt, sb)
    /\ sql.exec_insert (Connection sb) USER_USERGROUP_LINK
         (admin_cells userId
            (default 0 (administrators_group_id (Connection sb))) reference_id) = Some db1
    /\ is_Some (sql.exec_update db1 "world"
                  [("permission", VInt auth.DEFAULT_PERMISSION);
                   ("default_permission", VInt auth.DEFAULT_PERMISSION)]
                  [sql.NotLike (sql.I "world" "table_name") "%_audit"])
    /\ Connection st' = set_action_permissions (set_world_permissions db1).
Proof.
  unfold BecomeAdmin. intros H.
  apply bind_Ok in H as (can & sa & Hcan & H).
  destruct can; simpl in H; [|unfold_M; discriminate].
  apply bind_Ok in H as ([] & sb & Hloop & H).
  apply bind_Ok in H as ([z e] & sc & Hid & H).
  apply UserGroupNameToId_Ok in Hid as (Hdbc & Hcc & Hz).
  apply bind_Ok in H as (err & sd & Hins & H).
  apply Exec_insert_Ok in Hins as (Hcd & _ & Hins).
  destruct err as [err|]; [unfold_M; discriminate|].
  apply bind_Ok in H as (err & se & Hw1 & H).
  apply Exec_update_Ok in Hw1 as (Hdbe & Hce & _ & Hok).
  destruct err as [err|]; [unfold_M; discriminate|].
  apply bind_Ok in H as (err & sf & Hw2 & H).
  apply Exec_update_Ok in Hw2 as (Hdbf & Hcf & _ & _).
  apply bind_Ok in H as (err2 & sg & Ha1 & H).
  apply Exec_update_Ok in Ha1 as (Hdbg & Hcg & _ & _).
  apply bind_Ok in H as (err3 & sh & Ha2 & H).
  apply Exec_update_Ok in Ha2 as (Hdbh & Hch & _ & _).
  unfold_M. injection H as <-.
  exists sa, sb, (Connection sd). split; [done|]. split; [done|]. split.
  - assert (Hz1 : default 0 (administrators_group_id (Connection sb)) = z).
    { unfold administrators_group_id.
      destruct (sql.query (Connection sb) _) as [rs|]; [|by injection Hz as -> _].
      destruct rs as [|r rs]; [by injection Hz as -> _|]. simpl in *.
      unfold scan_uint64 in *. destruct (index r "id"); try (by injection Hz as -> _).
      destruct (_ && _); by injection Hz as -> _. }
    rewrite Hz1, <- Hdbc. exact Hins.
  - split; [by apply Hok|].
    unfold set_action_permissions, set_world_permissions. congruence.
Qed.

Lemma exec_update_Some db t sets conds db' :
  sql.exec_update db t sets conds = Some db' ->
  exists tab,
    db !! t = Some tab
    /\ Forall (fun c => c ∈ columns tab)
         (map fst sets ++ map (fun c => sql.col (sql.cond_ident c)) conds)
    /\ db' = <[t := {| columns := columns tab;
                       rows := map (fun r =>
                                 if forallb (sql.holds sql.no_literal 0%nat [(t, r)]) conds
                                 then foldl (fun r' cv => <[cv.1 := cv.2]> r') r sets
                                 else r) (rows tab) |}]> db.
Proof.
  unfold sql.exec_update. destruct (db !! t) as [tab|]; [|discriminate].
  destruct (forallb _ _) eqn:Hc; [|discriminate]. intros [= <-].
  exists tab. split; [done|]. split; [|done].
  apply Forall_forall. intros c Hin.
  apply list_elem_of_In in Hin.
  rewrite forallb_forall in Hc. specialize (Hc c Hin). by apply bool_decide_eq_true in Hc.
Qed.

Lemma exec_update_is_Some db t sets conds tab :
  db !! t = Some tab ->
  Forall (fun c => c ∈ columns tab)
    (map fst sets ++ map (fun c => sql.col (sql.cond_ident c)) conds) ->
  is_Some (sql.exec_update db t sets conds).
Proof.
  intros Ht Hc. unfold sql.exec_update. rewrite Ht.
  rewrite columns_ok by done. eauto.
Qed.

Lemma cell_single t c (r : Row) : sql.cell [(t, r)] (sql.I t c) = index r c.
Proof. unfold sql.cell. cbn [sql.assoc sql.tbl sql.col]. by rewrite String.eqb_refl. Qed.

Lemma holds_notlike_row t c pat (r : Row) :
  forallb (sql.holds sql.no_literal 0%nat [(t, r)]) [sql.NotLike (sql.I t c) pat]
  = match index r c with
    | VStr _ => negb (sql.sql_like (index r c) pat)
    | _ => false
    end.
Proof.
  unfold forallb, sql.holds, sql.cell. cbn [sql.assoc sql.tbl sql.col].
  rewrite String.eqb_refl, andb_true_r. done.
Qed.

Lemma holds_like_row t c pat (r : Row) :
  forallb (sql.holds sql.no_literal 0%nat [(t, r)]) [sql.Like (sql.I t c) pat]
  = sql.sql_like (index r c) pat.
Proof.
  unfold forallb, sql.holds, sql.cell. cbn [sql.assoc sql.tbl sql.col].
  rewrite String.eqb_refl, andb_true_r. done.
Qed.

Lemma set_world_permissions_rows db t r name :
  is_Some (sql.exec_update db "world"
             [("permission", VInt auth.DEFAULT_PERMISSION);
              ("default_permission", VInt auth.DEFAULT_PERMISSION)]
             [sql.NotLike (sql.I "world" "table_name") "%_audit"]) ->
  set_world_permissions db !! "world" = Some t ->
  r ∈ rows t ->
  index r "table_name" = VStr name ->
  index r "permission" = VInt (world_permission name)
  /\ index r "default_permission" = VInt (world_default_permission name).
Proof.
  intros [db1 H1]. unfold set_world_permissions, try_update. rewrite H1.
  cbn [default from_option id].
  apply exec_update_Some in H1 as (tab & Ht & Hc & ->).
  match goal with
  | |- context [sql.exec_update ?db0 "world" ?sets ?conds] =>
      assert (H2 : is_Some (sql.exec_update db0 "world" sets conds))
  end.
  { eapply exec_update_is_Some; [apply lookup_insert_eq|]. exact Hc. }
  destruct H2 as [db2 H2]. rewrite H2. cbn [default from_option id].
  apply exec_update_Some in H2 as (tab2 & Ht2 & _ & ->).
  rewrite lookup_insert_eq in Ht2. injection Ht2 as <-.
  rewrite lookup_insert_eq. intros [= <-]. cbn [rows].
  rewrite map_map. intros Hin. apply list_elem_of_fmap in Hin as (r0 & -> & Hin).
  rewrite !cell_single, !andb_true_r.
  unfold world_permission, world_default_permission.
  destruct (index r0 "table_name") as [|z|m e|s|z|l|l] eqn:Et;
    try (rewrite Et; cbn [sql.sql_like]; rewrite Et; discriminate).
  destruct (sql.sql_like (VStr s) "%_audit") eqn:Hl; cbn [negb].
  - rewrite Et, Hl. rewrite !index_insert_ne by done. rewrite Et. intros [= <-].
    rewrite Hl, !index_insert_eq. done.
  - rewrite !index_insert_ne by done. rewrite Et, Hl.
    rewrite !index_insert_ne by done. rewrite Et. intros [= <-].
    rewrite Hl, !index_insert_eq. done.
Qed.

(** X12: after a successful bootstrap every row of [world] with a table
    name carries the permissions of its kind: a name that matches
    [%_audit] has UserCreate|GroupCreate and the default permission
    UserRead|GroupRead, every other name has the default permission of the
    system in both cells. *)
Theorem X12_world_permissions (d : DbResource) (userId : Z) (reference_id : string)
    (st st' : State) (t : Table) (r : Row) (name : string) :
  BecomeAdmin d userId reference_id st = Ok (true, st') ->
  Connection st' !! "world" = Some t ->
  r ∈ rows t ->
  index r "table_name" = VStr name ->
  index r "permission" = VInt (world_permission name)
  /\ index r "default_permission" = VInt (world_default_permission name).
Proof.
  intros H Ht Hin Hname.
  apply BecomeAdmin_steps in H as (sa & sb & db1 & _ & _ & _ & Hok & Hdb).
  rewrite Hdb in Ht. unfold set_action_permissions in Ht.
  rewrite !try_update_other in Ht by done.
  exact (set_world_permissions_rows _ _ _ _ Hok Ht Hin Hname).
Qed.

Lemma X12_world_permissions_witness :
  let r : Row := {[ "id" := VInt 2; "table_name" := VStr "user_account_audit";
                    "permission" := VInt (auth.UserCreate .| auth.GroupCreate);
                    "default_permission" := VInt (auth.UserRead .| auth.GroupRead) ]} in
  index r "permission" = VInt (world_permission "user_account_audit")
  /\ index r "default_permission" = VInt (world_default_permission "user_account_audit").
Proof.
  intros r.
  apply (X12_world_permissions example_install_resource 1 "m-1" example_install
           example_installed
           {| columns := ["id"; "table_name"; "permission"; "default_permission"];
              rows := [ {[ "id" := VInt 1; "table_name" := VStr "user_account";
                           "permission" := VInt auth.DEFAULT_PERMISSION;
                           "default_permission" := VInt auth.DEFAULT_PERMISSION ]}; r ] |}).
  - computes.
  - computes.
  - apply list_elem_of_further, list_elem_of_here.
  - computes.
Defined.

(** The pattern [%_audit] asks for one more character before [audit],
    whatever it is. *)
Example audit_names :
  world_permission "post_audit" = auth.UserCreate .| auth.GroupCreate
  /\ world_permission "preaudit" = auth.UserCreate .| auth.GroupCreate
  /\ world_permission "audit" = auth.DEFAULT_PERMISSION
  /\ world_permission "post" = auth.DEFAULT_PERMISSION.
Proof. repeat split. Qed.

(** Updates and the cells they leave alone. *)
Lemma index_foldl_insert_same (sets : list (string * value)) (r : Row) (c : string) v :
  index r c = v ->
  (forall v', (c, v') ∈ sets -> v' = v) ->
  index (foldl (fun r' cv => <[cv.1 := cv.2]> r') r sets) c = v.
Proof.
  revert r. induction sets as [|[k w] sets IH]; intros r Hr Hs; [done|].
  simpl. apply IH.
  - destruct (decide (k = c)) as [->|Hne].
    + rewrite index_insert_eq. apply Hs. by left.
    + by rewrite index_insert_ne.
  - intros v' Hin. apply Hs. by right.
Qed.

Lemma try_update_all_rows db t sets conds T c v :
  all_rows db T c v ->
  (forall v', (c, v') ∈ sets -> v' = v) ->
  all_rows (try_update db t sets conds) T c v.
Proof.
  intros Hall Hs. unfold try_update.
  destruct (sql.exec_update db t sets conds) as [db'|] eqn:Hu; [|done]. simpl.
  apply exec_update_Some in Hu as (tab & Ht & _ & ->).
  intros tab' r. destruct (decide (t = T)) as [->|Hne].
  - rewrite lookup_insert_eq. intros [= <-]. simpl. intros Hin.
    apply list_elem_of_fmap in Hin as (r0 & -> & Hin).
    destruct (forallb _ conds).
    + apply index_foldl_insert_same; [|done]. by eapply Hall.
    + by eapply Hall.
  - rewrite lookup_insert_ne by done. apply Hall.
Qed.

Lemma try_update_has_columns db t sets conds T cs :
  has_columns db T cs -> has_columns (try_update db t sets conds) T cs.
Proof.
  intros (tab & HT & Hcs). unfold try_update.
  destruct (sql.exec_update db t sets conds) as [db'|] eqn:Hu; [|by exists tab]. simpl.
  apply exec_update_Some in Hu as (tab0 & Ht & _ & ->).
  destruct (decide (t = T)) as [->|Hne].
  - rewrite HT in Ht. injection Ht as <-.
    eexists. rewrite lookup_insert_eq. split; [done|]. done.
  - exists tab. by rewrite lookup_insert_ne.
Qed.

Lemma own_table_Connection userId m st u st' :
  own_table userId m st = Ok (u, st') ->
  Connection st' =
    if String.eqb (GetName m) USER_USERGROUP_LINK then Connection st
    else if HasColumn m USER_ACCOUNT_ID_COLUMN
         then try_update (Connection st) (GetName m)
                [(USER_ACCOUNT_ID_COLUMN, VInt userId);
                 ("permission", VInt auth.DEFAULT_PERMISSION)] []
         else Connection st.
Proof.
  unfold own_table.
  destruct (String.eqb (GetName m) USER_USERGROUP_LINK).
  { unfold_M. by intros [= <- <-]. }
  destruct (HasColumn m USER_ACCOUNT_ID_COLUMN).
  2:{ unfold_M. by intros [= <- <-]. }
  intros H. apply bind_Ok in H as (err & st1 & Hup & H).
  unfold_M. injection H as <- <-.
  by apply Exec_update_Ok in Hup as (Hdb & _).
Qed.

Lemma own_cell userId c v v' :
  (c, v') ∈ [(USER_ACCOUNT_ID_COLUMN, VInt userId);
             ("permission", VInt auth.DEFAULT_PERMISSION)] ->
  (c = USER_ACCOUNT_ID_COLUMN -> v = VInt userId) ->
  (c = "permission" -> v = VInt auth.DEFAULT_PERMISSION) ->
  v' = v.
Proof.
  intros Hin Hu Hp.
  apply elem_of_cons in Hin as [[= -> ->]|Hin]; [by rewrite Hu|].
  apply elem_of_cons in Hin as [[= -> ->]|Hin]; [by rewrite Hp|].
  by apply elem_of_nil in Hin.
Qed.

Lemma own_table_keeps userId m st u st' T c v :
  own_table userId m st = Ok (u, st') ->
  (c = USER_ACCOUNT_ID_COLUMN -> v = VInt userId) ->
  (c = "permission" -> v = VInt auth.DEFAULT_PERMISSION) ->
  all_rows (Connection st) T c v -> all_rows (Connection st') T c v.
Proof.
  intros H Hu Hp Hall. apply own_table_Connection in H. rewrite H.
  destruct (String.eqb _ _); [done|]. destruct (HasColumn _ _); [|done].
  apply try_update_all_rows; [done|]. intros v' Hin. by eapply own_cell.
Qed.

Lemma own_tables_keep userId ms : forall st u st' T c v,
  for_each (own_table userId) ms st = Ok (u, st') ->
  (c = USER_ACCOUNT_ID_COLUMN -> v = VInt userId) ->
  (c = "permission" -> v = VInt auth.DEFAULT_PERMISSION) ->
  all_rows (Connection st) T c v -> all_rows (Connection st') T c v.
Proof.
  induction ms as [|m ms IH]; intros st u st' T c v; simpl.
  - unfold_M. by intros [= <- <-].
  - intros H Hu Hp Hall. apply bind_Ok in H as (x & st1 & Hm & H).
    eapply IH; [exact H|done|done|]. by eapply own_table_keeps.
Qed.

Lemma own_table_has_columns userId m st u st' T cs :
  own_table userId m st = Ok (u, st') ->
  has_columns (Connection st) T cs -> has_columns (Connection st') T cs.
Proof.
  intros H Hc. apply own_table_Connection in H. rewrite H.
  destruct (String.eqb _ _); [done|]. destruct (HasColumn _ _); [|done].
  by apply try_update_has_columns.
Qed.

Lemma own_table_sets userId m st u st' c v :
  own_table userId m st = Ok (u, st') ->
  String.eqb (GetName m) USER_USERGROUP_LINK = false ->
  HasColumn m USER_ACCOUNT_ID_COLUMN = true ->
  has_columns (Connection st) (GetName m) [USER_ACCOUNT_ID_COLUMN; "permission"] ->
  (c, v) ∈ [(USER_ACCOUNT_ID_COLUMN, VInt userId);
            ("permission", VInt auth.DEFAULT_PERMISSION)] ->
  all_rows (Connection st') (GetName m) c v.
Proof.
  intros H Hl Hh (tab & Ht & Hcs) Hin. apply own_table_Connection in H.
  rewrite Hl, Hh in H. rewrite H. unfold try_update.
  destruct (exec_update_is_Some (Connection st) (GetName m)
              [(USER_ACCOUNT_ID_COLUMN, VInt userId);
               ("permission", VInt auth.DEFAULT_PERMISSION)] [] tab Ht)
    as [db' Hu].
  { exact Hcs. }
  rewrite Hu. simpl. apply exec_update_Some in Hu as (tab0 & Ht0 & _ & ->).
  rewrite Ht in Ht0. injection Ht0 as <-.
  intros tab' r. rewrite lookup_insert_eq. intros [= <-]. simpl. intros Hr.
  apply list_elem_of_fmap in Hr as (r0 & -> & _).
  apply elem_of_cons in Hin as [[= -> ->]|Hin].
  { by rewrite index_insert_ne, index_insert_eq. }
  apply elem_of_cons in Hin as [[= -> ->]|Hin]; [by rewrite index_insert_eq|].
  by apply elem_of_nil in Hin.
Qed.

Lemma own_tables_set userId ms : forall st u st' m c v,
  for_each (own_table userId) ms st = Ok (u, st') ->
  m ∈ ms ->
  String.eqb (GetName m) USER_USERGROUP_LINK = false ->
  HasColumn m USER_ACCOUNT_ID_COLUMN = true ->
  has_columns (Connection st) (GetName m) [USER_ACCOUNT_ID_COLUMN; "permission"] ->
  (c, v) ∈ [(USER_ACCOUNT_ID_COLUMN, VInt userId);
            ("permission", VInt auth.DEFAULT_PERMISSION)] ->
  all_rows (Connection st') (GetName m) c v.
Proof.
  induction ms as [|m0 ms IH]; intros st u st' m c v; simpl.
  - intros _ Hin. by apply elem_of_nil in Hin.
  - intros H Hin Hl Hh Hcs Hcv. apply bind_Ok in H as (x & st1 & Hm & H).
    apply elem_of_cons in Hin as [->|Hin].
    + eapply own_tables_keep; [exact H| | |].
      * intros ->. apply elem_of_cons in Hcv as [[= ->]|Hcv]; [done|].
        apply elem_of_cons in Hcv as [[=]|Hcv]. by apply elem_of_nil in Hcv.
      * intros ->. apply elem_of_cons in Hcv as [[=]|Hcv].
        apply elem_of_cons in Hcv as [[= ->]|Hcv]; [done|]. by apply elem_of_nil in Hcv.
      * by eapply own_table_sets.
    + eapply IH; try done. by eapply own_table_has_columns.
Qed.

Lemma all_rows_same_table db db' T c v :
  db' !! T = db !! T -> all_rows db T c v -> all_rows db' T c v.
Proof. intros Heq Hall tab r. rewrite Heq. apply Hall. Qed.

Lemma closing_updates_keep db T c v :
  (c = "permission" -> T <> "world" /\ T <> "action") ->
  c <> "default_permission" ->
  all_rows db T c v ->
  all_rows (set_action_permissions (set_world_permissions db)) T c v.
Proof.
  intros Hp Hd Hall. unfold set_action_permissions, set_world_permissions.
  destruct (decide (c = "permission")) as [->|Hne].
  - destruct (Hp eq_refl) as [Hw Ha].
    apply (all_rows_same_table db); [|done].
    by rewrite !try_update_other.
  - repeat (apply try_update_all_rows;
            [|intros v' Hin;
              repeat (apply elem_of_cons in Hin as [[= ? ?]|Hin]; [congruence|]);
              by apply elem_of_nil in Hin]).
    done.
Qed.

(** X13: after a successful bootstrap the new administrator owns every
    row of every registered table that has an owner column (the
    user-to-group link table apart), and the rows of these tables, [world]
    and [action] apart, carry the default permission of the system. *)
Theorem X13_admin_owns_tables (d : DbResource) (userId : Z) (reference_id : string)
    (st st' : State) (k : string) (m : TableInfo) :
  BecomeAdmin d userId reference_id st = Ok (true, st') ->
  Cruds d !! k = Some m ->
  GetName m <> USER_USERGROUP_LINK ->
  HasColumn m USER_ACCOUNT_ID_COLUMN = true ->
  has_columns (Connection st) (GetName m) [USER_ACCOUNT_ID_COLUMN; "permission"] ->
  owned_by (Connection st') (GetName m) userId
  /\ (GetName m <> "world" -> GetName m <> "action" ->
      all_rows (Connection st') (GetName m) "permission" (VInt auth.DEFAULT_PERMISSION)).
Proof.
  intros H Hk Hlink Hcol Hcs.
  apply BecomeAdmin_steps in H as (sa & sb & db1 & Hcan & Hloop & Hins & _ & Hdb).
  apply CanBecomeAdmin_Ok in Hcan as (Hdba & _ & _). rewrite <- Hdba in Hcs.
  assert (Hm : m ∈ map snd (map_to_list (Cruds d))).
  { apply list_elem_of_fmap. exists (k, m). split; [done|]. by apply elem_of_map_to_list. }
  assert (Hl : String.eqb (GetName m) USER_USERGROUP_LINK = false)
    by (by apply String.eqb_neq).
  apply exec_insert_Some in Hins as (tabL & HL & _ & ->).
  assert (Hstep : forall c v,
    (c, v) ∈ [(USER_ACCOUNT_ID_COLUMN, VInt userId);
              ("permission", VInt auth.DEFAULT_PERMISSION)] ->
    all_rows (<[USER_USERGROUP_LINK := {| columns := columns tabL;
                 rows := rows tabL ++
                   [list_to_map (admin_cells userId
                      (default 0 (administrators_group_id (Connection sb))) reference_id)] |}]>
                (Connection sb)) (GetName m) c v).
  { intros c v Hcv. apply (all_rows_same_table (Connection sb)).
    - by rewrite lookup_insert_ne.
    - by eapply own_tables_set. }
  rewrite Hdb. split.
  - apply closing_updates_keep; [discriminate|discriminate|].
    apply Hstep. by left.
  - intros Hw Ha. apply closing_updates_keep; [done|discriminate|].
    apply Hstep. right. by left.
Qed.

Lemma own_tables_link userId ms : forall st u st',
  for_each (own_table userId) ms st = Ok (u, st') ->
  Connection st' !! USER_USERGROUP_LINK = Connection st !! USER_USERGROUP_LINK.
Proof.
  induction ms as [|m ms IH]; intros st u st'; simpl.
  - unfold_M. by intros [= <- <-].
  - intros H. apply bind_Ok in H as (x & st1 & Hm & H).
    rewrite (IH _ _ _ H). apply own_table_Connection in Hm. rewrite Hm.
    destruct (String.eqb_spec (GetName m) USER_USERGROUP_LINK) as [|Hne]; [done|].
    destruct (HasColumn _ _); [|done]. by rewrite try_update_other.
Qed.

(** X14: a successful bootstrap appends exactly one row to the
    user-to-group link table and leaves its other rows as they were: the
    row links the user to the id found for the group named
    [administrators], or to the id 0 when no such group is found, with the
    default permission and the drawn reference. *)
Theorem X14_admin_membership_row (d : DbResource) (userId : Z) (reference_id : string)
    (st st' : State) (tabL : Table) :
  BecomeAdmin d userId reference_id st = Ok (true, st') ->
  Connection st !! USER_USERGROUP_LINK = Some tabL ->
  Connection st' !! USER_USERGROUP_LINK
  = Some {| columns := columns tabL;
            rows := rows tabL ++
              [list_to_map
                 [(USER_ACCOUNT_ID_COLUMN, VInt userId);
                  ("usergroup_id",
                   VInt (default 0 (administrators_group_id (Connection st))));
                  ("permission", VInt auth.DEFAULT_PERMISSION);
                  ("reference_id", VStr reference_id)]] |}.
Proof.
  intros H HL.
  apply BecomeAdmin_steps in H as (sa & sb & db1 & Hcan & Hloop & Hins & _ & Hdb).
  apply CanBecomeAdmin_Ok in Hcan as (Hdba & _ & _).
  pose proof (own_tables_link _ _ _ _ _ Hloop) as Hlink.
  apply own_tables_group_id in Hloop as [Hg _].
  rewrite Hdba in Hlink, Hg. rewrite HL in Hlink. rewrite Hg in Hins.
  apply exec_insert_Some in Hins as (tab & Ht & _ & ->).
  rewrite Hlink in Ht. injection Ht as <-.
  rewrite Hdb. unfold set_action_permissions, set_world_permissions.
  rewrite !try_update_other by done. by rewrite lookup_insert_eq.
Qed.

Lemma X13_admin_owns_tables_witness :
  owned_by (Connection example_installed) "user_account" 1
  /\ ("user_account" <> "world" -> "user_account" <> "action" ->
      all_rows (Connection example_installed) "user_account" "permission"
        (VInt auth.DEFAULT_PERMISSION)).
Proof.
  apply (X13_admin_owns_tables example_install_resource 1 "m-1" example_install
           example_installed "user_account"
           {| TableName := "user_account";
              Columns := [{| ColumnName := "user_account_id"; ColumnType := "alias";
                             IsForeignKey := false;
                             ForeignKey := {| DataSource := ""; Namespace := "" |} |}];
              Relations := []; DefaultPermission := auth.DEFAULT_PERMISSION |}).
  - computes.
  - computes.
  - discriminate.
  - reflexivity.
  - eexists. split; [vm_compute; reflexivity|]. repeat constructor.
Defined.

Lemma X14_admin_membership_row_witness :
  Connection example_installed !! USER_USERGROUP_LINK
  = Some {| columns := ["id"; "reference_id"; "user_account_id"; "usergroup_id"; "permission"];
            rows := [] ++
              [list_to_map
                 [(USER_ACCOUNT_ID_COLUMN, VInt 1);
                  ("usergroup_id",
                   VInt (default 0 (administrators_group_id (Connection example_install))));
                  ("permission", VInt auth.DEFAULT_PERMISSION);
                  ("reference_id", VStr "m-1")]] |}.
Proof.
  apply (X14_admin_membership_row example_install_resource 1 "m-1" example_install
           example_installed
           {| columns := ["id"; "reference_id"; "user_account_id"; "usergroup_id"; "permission"];
              rows := [] |}); computes.
Defined.

(** ** The row loader: all rows or none *)

Section LoaderShape.

Variable ext : Externals.

Lemma column_step_failed tx load_object d columnMap inc s key val st r st' :
  column_step ext tx load_object d columnMap inc s key val st = Ok (Return r, st') ->
  failed r.
Proof. unfold column_step, failed. intros H. repeat mstep; done. Qed.

Lemma relation_step_failed load_all d inc acc relation st r st' :
  relation_step load_all d inc acc relation st = Ok (Return r, st') -> failed r.
Proof. unfold relation_step, attach_related, failed. intros H. repeat mstep; done. Qed.

Lemma row_step_failed tx load_object load_all d columnMap inc g row st r st' :
  row_step ext tx load_object load_all d columnMap inc g row st = Ok (Return r, st') ->
  failed r.
Proof.
  unfold row_step. intros H.
  apply bind_Ok in H as (x & st1 & Hc & H). destruct x as [s|r1].
  - apply bind_Ok in H as (y & st2 & Hr & H). destruct y as [[row' li]|r2].
    + unfold mret, M_ret in H. simplify_eq.
    + unfold mret, M_ret in H. simplify_eq.
      eapply (loop_return failed); [|exact Hr].
      intros. by eapply relation_step_failed.
  - unfold mret, M_ret in H. simplify_eq.
    eapply (loop_return failed); [|exact Hc].
    intros a [k v] ? ? ? Hs. by eapply column_step_failed.
Qed.

Lemma row_step_aligned tx load_object load_all d columnMap inc g row st g' st' :
  row_step ext tx load_object load_all d columnMap inc g row st = Ok (Next g', st') ->
  length (g_rows g') = S (length (g_rows g))
  /\ length (g_includes g') = S (length (g_includes g)).
Proof.
  unfold row_step. intros H.
  apply bind_Ok in H as (x & st1 & Hc & H). destruct x as [s|r1].
  - apply bind_Ok in H as (y & st2 & Hr & H). destruct y as [[row' li]|r2].
    + unfold mret, M_ret in H. simplify_eq. simpl. rewrite !length_app. simpl. lia.
    + unfold mret, M_ret in H. simplify_eq.
  - unfold mret, M_ret in H. simplify_eq.
Qed.

Lemma rows_loop_aligned tx load_object load_all d columnMap inc l : forall g st g' st',
  loop (row_step ext tx load_object load_all d columnMap inc) g l st = Ok (Next g', st') ->
  length (g_rows g') = (length (g_rows g) + length l)%nat
  /\ length (g_includes g') = (length (g_includes g) + length l)%nat.
Proof.
  induction l as [|row l IH]; intros g st g' st' H; simpl in H.
  - unfold mret, M_ret in H. simplify_eq. simpl. lia.
  - apply bind_Ok in H as (x & st1 & Hb & H). destruct x as [g1|r1].
    + apply IH in H. apply row_step_aligned in Hb. simpl. lia.
    + unfold mret, M_ret in H. simplify_eq.
Qed.

Lemma load_rows_shape tx load_object load_all d rows columnMap inc st resp incl err st' :
  load_rows ext tx load_object load_all d rows columnMap inc st
    = Ok ((resp, incl, err), st') ->
  (err = None /\ length resp = length rows /\ length incl = length rows)
  \/ (err <> None /\ incl = []
      /\ (resp = []
          \/ (st' = st /\ RowsToMap ext rows (GetName (tableInfo d)) = (resp, err)))).
Proof.
  intros H. unfold load_rows in H.
  destruct (RowsToMap ext rows (GetName (tableInfo d))) as [responseArray [e|]] eqn:Hread.
  { unfold mret, M_ret in H. simplify_eq. right. split; [done|]. split; [done|]. by right. }
  apply RowsToMap_length in Hread as [_ Hall]. specialize (Hall eq_refl).
  apply bind_Ok in H as (x & st1 & Hl & H). destruct x as [g|r].
  - unfold mret, M_ret in H. simplify_eq. left.
    apply rows_loop_aligned in Hl. simpl in Hl. split; [done|]. lia.
  - unfold mret, M_ret in H. simplify_eq. right.
    assert (Hf : failed (resp, incl, err)).
    { eapply (loop_return failed); [|exact Hl]. intros. by eapply row_step_failed. }
    destruct Hf as [Hf1 Hf2]. simpl in *. injection Hf1 as -> ->.
    split; [done|]. split; [done|]. by left.
Qed.

(** X15: the loader returns complete results or an error without include
    lists.  With no error there is one map per result row and one include
    list per map.  With an error there is no include list, and there is no
    map either unless a result row could not be scanned: then the maps are
    those [RowsToMap] made of the rows before it, the error is the one of
    the scan, and the state is as it was. *)
Theorem X15_loader_result_shape (depth : nat) (tx : bool) (d : DbResource)
    (rows : list Row) (columnMap : gmap string ColumnInfo) (inc : gmap string bool)
    (st : State) (resp : list Row) (incl : list (list Row)) (err : option error)
    (st' : State) :
  ResultToArrayOfMap_at ext depth tx d rows columnMap inc st = Ok ((resp, incl, err), st') ->
  (err = None /\ length resp = length rows /\ length incl = length rows)
  \/ (err <> None /\ incl = []
      /\ (resp = []
          \/ (st' = st /\ RowsToMap ext rows (GetName (tableInfo d)) = (resp, err)
              /\ exists n, (n < length rows)%nat
                   /\ resp = map (fun dbRow => <["__type" := VStr (GetName (tableInfo d))]> dbRow)
                              (take n rows)
                   /\ (MapStringScan_Update ext <$> rows !! n) = Some err))).
Proof.
  intros H.
  assert (Hs : (err = None /\ length resp = length rows /\ length incl = length rows)
    \/ (err <> None /\ incl = []
        /\ (resp = []
            \/ (st' = st /\ RowsToMap ext rows (GetName (tableInfo d)) = (resp, err)))))
    by (destruct depth; simpl in H; by eapply load_rows_shape).
  destruct Hs as [Hs|(He & Hi & [Hr|[Hst Hr]])]; [by left|right; by auto|].
  right. split; [done|]. split; [done|]. right. split; [done|]. split; [done|].
  pose proof (RowsToMap_read ext _ _ _ _ Hr) as (n & Hn & Herr).
  destruct err as [e|]; [|done]. destruct Herr as [Hlt Hu]. by exists n.
Qed.

End LoaderShape.

(** ** The row loader: how deep the nesting goes *)

Section LoaderDepth.

Variable ext : Externals.

Lemma bind_ext {A B} (m : M A) (f g : A -> M B) st :
  (forall a st1, f a st1 = g a st1) -> (m ≫= f) st = (m ≫= g) st.
Proof. intros H. rewrite !bind_eq. destruct (m st) as [[a st1]|]; [apply H|done]. Qed.

Lemma loop_ext {A B} (body body' : A -> B -> M (flow A)) l :
  (forall a b st, body a b st = body' a b st) ->
  forall a st, loop body a l st = loop body' a l st.
Proof.
  intros H. induction l as [|b l IH]; intros a st; [done|]. simpl.
  rewrite !bind_eq, H. destruct (body' a b st) as [[[a'|r] st1]|]; [apply IH|done|done].
Qed.

Lemma column_step_ext tx load_object load_object' d columnMap inc s key val st :
  (forall d t i st, load_object d t i st = load_object' d t i st) ->
  column_step ext tx load_object d columnMap inc s key val st
  = column_step ext tx load_object' d columnMap inc s key val st.
Proof.
  intros H. unfold column_step.
  destruct (columnMap !! key) as [columnInfo|]; [|done].
  destruct (negb (IsForeignKey columnInfo)); [done|].
  destruct (is_blank val); [done|].
  destruct (String.eqb (DataSource (ForeignKey columnInfo)) "self"); [|done].
  apply bind_ext. intros [referenceIdInt err] st1.
  apply bind_ext. intros [[refId err1] refs] st2.
  destruct err1; [done|].
  destruct (_ || _); [|done].
  rewrite !bind_eq. by rewrite H.
Qed.

Lemma attach_related_ext load_all load_all' d holder typeName name ids row localInclude st :
  (forall d t c st, load_all d t c st = load_all' d t c st) ->
  attach_related load_all d holder typeName name ids row localInclude st
  = attach_related load_all' d holder typeName name ids row localInclude st.
Proof.
  intros H. unfold attach_related. destruct ids; [done|].
  rewrite !bind_eq. by rewrite H.
Qed.

Lemma relation_step_ext load_all load_all' d inc acc relation st :
  (forall d t c st, load_all d t c st = load_all' d t c st) ->
  relation_step load_all d inc acc relation st
  = relation_step load_all' d inc acc relation st.
Proof.
  intros H. unfold relation_step. destruct acc as [row localInclude].
  destruct (negb _); [done|].
  destruct (String.eqb _ _).
  - destruct (is_to_many relation); [|done].
    apply bind_ext. intros [rows|] st1; [|done]. by apply attach_related_ext.
  - destruct (is_to_one relation).
    + apply bind_ext. intros [rows|] st1; [|done]. by apply attach_related_ext.
    + destruct (is_to_many relation); [|done].
      apply bind_ext. intros [rows|] st1; [|done]. by apply attach_related_ext.
Qed.

Lemma load_rows_ext tx load_object load_object' load_all load_all' d rows columnMap inc st :
  (forall d t i st, load_object d t i st = load_object' d t i st) ->
  (forall d t c st, load_all d t c st = load_all' d t c st) ->
  load_rows ext tx load_object load_all d rows columnMap inc st
  = load_rows ext tx load_object' load_all' d rows columnMap inc st.
Proof.
  intros Ho Ha. unfold load_rows.
  destruct (RowsToMap ext rows (GetName (tableInfo d))) as [responseArray [e|]]; [done|].
  rewrite !bind_eq. erewrite loop_ext; [reflexivity|].
  intros g row st1. unfold row_step.
  rewrite !bind_eq.
  erewrite (loop_ext (fun s kv => column_step ext tx load_object d columnMap inc s kv.1 kv.2));
    [|intros; by apply column_step_ext].
  destruct (loop _ _ _ st1) as [[[s|r] st2]|]; [|done|done].
  rewrite !bind_eq.
  erewrite (loop_ext (relation_step load_all d inc));
    [reflexivity|intros; by apply relation_step_ext].
Qed.

(** With nothing to include no callee is called. *)
Lemma column_step_alone tx load_object load_object' d columnMap s key val st :
  column_step ext tx load_object d columnMap ∅ s key val st
  = column_step ext tx load_object' d columnMap ∅ s key val st.
Proof.
  unfold column_step.
  destruct (columnMap !! key) as [columnInfo|]; [|done].
  destruct (negb (IsForeignKey columnInfo)); [done|].
  destruct (is_blank val); [done|].
  destruct (String.eqb (DataSource (ForeignKey columnInfo)) "self"); [|done].
  apply bind_ext. intros [referenceIdInt err] st1.
  apply bind_ext. intros [[refId err1] refs] st2.
  destruct err1; [done|]. unfold included. by rewrite !lookup_empty.
Qed.

Lemma relation_step_alone load_all load_all' d acc relation st :
  relation_step load_all d ∅ acc relation st = relation_step load_all' d ∅ acc relation st.
Proof.
  unfold relation_step, included. destruct acc. by rewrite !lookup_empty.
Qed.

Lemma load_rows_alone tx load_object load_object' load_all load_all' d rows columnMap st :
  load_rows ext tx load_object load_all d rows columnMap ∅ st
  = load_rows ext tx load_object' load_all' d rows columnMap ∅ st.
Proof.
  unfold load_rows.
  destruct (RowsToMap ext rows (GetName (tableInfo d))) as [responseArray [e|]]; [done|].
  rewrite !bind_eq.
  rewrite (loop_ext (row_step ext tx load_object load_all d columnMap ∅)
             (row_step ext tx load_object' load_all' d columnMap ∅)); [reflexivity|].
  intros g row st1. unfold row_step.
  rewrite !bind_eq.
  rewrite (loop_ext (fun s kv => column_step ext tx load_object d columnMap ∅ s kv.1 kv.2)
             (fun s kv => column_step ext tx load_object' d columnMap ∅ s kv.1 kv.2));
    [|intros; by apply column_step_alone].
  destruct (loop _ _ _ st1) as [[[s|r] st2]|]; [|done|done].
  rewrite !bind_eq.
  rewrite (loop_ext (relation_step load_all d ∅) (relation_step load_all' d ∅));
    [reflexivity|intros; by apply relation_step_alone].
Qed.

Lemma ResultToArrayOfMap_at_alone depth tx d rows columnMap st :
  ResultToArrayOfMap_at ext depth tx d rows columnMap ∅ st
  = ResultToArrayOfMap_at ext 0 tx d rows columnMap ∅ st.
Proof. destruct depth; [done|]. simpl. apply load_rows_alone. Qed.

Lemma GetIdToObject_with_ext tx rec rec' d typeName id st :
  (forall d rows columnMap st, rec d rows columnMap ∅ st = rec' d rows columnMap ∅ st) ->
  GetIdToObject_with tx rec d typeName id st = GetIdToObject_with tx rec' d typeName id st.
Proof.
  intros H. unfold GetIdToObject_with.
  apply bind_ext. intros [v|] st1; [done|].
  apply bind_ext. intros [row|] st2; [|done].
  apply bind_ext. intros m st3. rewrite !bind_eq. by rewrite H.
Qed.

Lemma GetAllObjectsWithWhere_with_ext tx rec rec' d typeName conds st :
  (forall d rows columnMap st, rec d rows columnMap ∅ st = rec' d rows columnMap ∅ st) ->
  GetAllObjectsWithWhere_with tx rec d typeName conds st
  = GetAllObjectsWithWhere_with tx rec' d typeName conds st.
Proof.
  intros H. unfold GetAllObjectsWithWhere_with.
  destruct tx, d as [d|]; try done;
    (apply bind_ext; intros [row|] st2; [|done]); simpl;
    try (destruct (crud d typeName); [|done]); rewrite ?bind_eq; by rewrite ?H.
Qed.

(** X16: a nested load asks for no includes, so the loader never nests
    deeper than one level: every nesting bound from one on gives the same
    result, and with an empty include set the loader calls neither
    [GetIdToObject] nor [GetAllObjectsWithWhere]. *)
Theorem X16_loader_nests_once (depth : nat) (tx : bool) (d : DbResource)
    (rows : list Row) (columnMap : gmap string ColumnInfo) (inc : gmap string bool)
    (st : State) :
  ResultToArrayOfMap_at ext (S depth) tx d rows columnMap inc st
  = ResultToArrayOfMap_at ext 1 tx d rows columnMap inc st
  /\ ResultToArrayOfMap_at ext depth tx d rows columnMap ∅ st
     = ResultToArrayOfMap_at ext 0 tx d rows columnMap ∅ st.
Proof.
  split; [|apply ResultToArrayOfMap_at_alone].
  simpl. apply load_rows_ext.
  - intros. apply GetIdToObject_with_ext. intros.
    by rewrite ResultToArrayOfMap_at_alone.
  - intros. apply GetAllObjectsWithWhere_with_ext. intros.
    by rewrite ResultToArrayOfMap_at_alone.
Qed.

End LoaderDepth.

(** ** The row loader on plain tables *)

Section LoaderPlain.

Variable ext : Externals.

Lemma loop_stays {A B} (body : A -> B -> M (flow A)) (a : A) (l : list B) st :
  (forall b, b ∈ l -> body a b st = Ok (Next a, st)) ->
  loop body a l st = Ok (Next a, st).
Proof.
  induction l as [|b l IH]; intros H; [done|]. simpl.
  rewrite bind_eq, H by left. apply IH. intros b' Hb'. apply H. by right.
Qed.

Lemma column_step_plain tx load_object d columnMap inc s key val st :
  plain_columns columnMap ->
  column_step ext tx load_object d columnMap inc s key val st = Ok (Next s, st).
Proof.
  intros Hplain. unfold column_step.
  destruct (columnMap !! key) as [columnInfo|] eqn:Hk; [|done].
  destruct (Hplain _ _ Hk) as [Hfk Hdt]. rewrite Hfk. simpl.
  unfold parse_datetime.
  destruct (String.eqb_spec (ColumnType columnInfo) "datetime") as [|_]; [done|].
  rewrite andb_false_r. by destruct s.
Qed.

Lemma relation_step_skipped load_all d inc acc relation st :
  included inc (GetObjectName relation) || included inc (GetSubjectName relation) = false ->
  relation_step load_all d inc acc relation st = Ok (Next acc, st).
Proof. intros H. unfold relation_step. destruct acc. by rewrite H. Qed.

Lemma rows_loop_plain tx load_object load_all d columnMap inc l : forall g st,
  plain_columns columnMap -> none_requested d inc ->
  loop (row_step ext tx load_object load_all d columnMap inc) g l st
  = Ok (Next {| g_rows := g_rows g ++ l;
                g_includes := g_includes g ++ map (fun _ => []) l;
                g_refs := g_refs g; g_err := g_err g |}, st).
Proof.
  induction l as [|row l IH]; intros g st Hplain Hnone; simpl.
  - rewrite !app_nil_r. by destruct g.
  - rewrite bind_eq. unfold row_step at 1.
    rewrite bind_eq, loop_stays by (intros [k v] _; by apply column_step_plain).
    rewrite bind_eq, loop_stays by (intros r Hr; apply relation_step_skipped; by apply Hnone).
    unfold mret at 1, M_ret at 1. rewrite IH by done. simpl.
    by rewrite <- !app_assoc.
Qed.

Lemma load_rows_plain tx load_object load_all d rows columnMap inc st :
  plain_columns columnMap -> none_requested d inc ->
  load_rows ext tx load_object load_all d rows columnMap inc st
  = Ok (match RowsToMap ext rows (GetName (tableInfo d)) with
        | (read, None) => (read, map (fun _ => []) read, None)
        | (read, Some err) => (read, [], Some err)
        end, st).
Proof.
  intros Hplain Hnone. unfold load_rows.
  destruct (RowsToMap ext rows (GetName (tableInfo d))) as [read [e|]]; [done|].
  by rewrite bind_eq, rows_loop_plain.
Qed.


End LoaderPlain.

Lemma example_post_plain : plain_columns (GetColumnMap example_post_info).
Proof.
  intros key columnInfo. unfold GetColumnMap. simpl.
  destruct (decide (key = "title")) as [->|Hne].
  - rewrite lookup_insert_eq. by intros [= <-].
  - rewrite lookup_insert_ne by done. by rewrite lookup_empty.
Qed.


Lemma X15_loader_result_shape_witness :
  let read := [ <["__type" := VStr "post"]>
                  ({[ "id" := VInt 1; "reference_id" := VStr "r-1" ]} : Row) ] in
  let err := Some "sql: Scan error" in
  (err = None /\ length read = length (rows example_posts)
   /\ length ([] : list (list Row)) = length (rows example_posts))
  \/ (err <> None /\ ([] : list (list Row)) = []
      /\ (read = []
          \/ (example_state = example_state
              /\ RowsToMap example_unscanned (rows example_posts)
                   (GetName (tableInfo example_post_resource)) = (read, err)
              /\ exists n, (n < length (rows example_posts))%nat
                   /\ read = map (fun dbRow =>
                                    <["__type" := VStr (GetName (tableInfo example_post_resource))]>
                                      dbRow)
                               (take n (rows example_posts))
                   /\ (MapStringScan_Update example_unscanned <$> rows example_posts !! n)
                      = Some err))).
Proof.
  intros read err.
  apply (X15_loader_result_shape example_unscanned 1 false example_post_resource
           (rows example_posts) (GetColumnMap example_post_info) ∅ example_state
           read [] err example_state).
  computes.
Defined.

(** ** The row loader: foreign keys and files *)

Section LoaderCells.

Variable ext : Externals.




End LoaderCells.


(** ** Statements on one table *)

Lemma holds_any_row (n : nat) (e : sql.env) (c : sql.cond) :
  sql.holds sql.no_literal n e c = sql.holds sql.no_literal 0%nat e c.
Proof. by destruct c. Qed.

Lemma all_hold_any_row (n : nat) (e : sql.env) (conds : list sql.cond) :
  forallb (sql.holds sql.no_literal n e) conds
  = forallb (sql.holds sql.no_literal 0%nat e) conds.
Proof.
  induction conds as [|c cs IH]; [done|].
  cbn [forallb]. by rewrite (holds_any_row n), IH.
Qed.

Lemma query_one_table (db : gmap string Table) (t : string)
    (cols : option (list (sql.ident * string))) (conds : list sql.cond) :
  let q := {| sql.s_cols := cols; sql.s_from := t; sql.s_alias := t; sql.s_joins := [];
              sql.s_where := conds; sql.s_order := None; sql.s_limit := None |} in
  sql.query db q =
  match db !! t with
  | None => None
  | Some tab =>
      if forallb (sql.resolves [(t, tab)]) (sql.idents q)
      then Some (map (fun r => sql.project [(t, tab)] q [(t, r)]) (kept t conds tab))
      else None
  end.
Proof.
  intros q. unfold sql.query, sql.exec_select, sql.prepare, sql.open_scope. simpl.
  destruct (db !! t) as [tab|] eqn:Ht; [|done].
  destruct (forallb _ _) eqn:Hok; [|done].
  f_equal. unfold sql.limited, sql.ordered, sql.candidates, kept. simpl.
  set (P := fun e : sql.env => forallb (sql.holds sql.no_literal 0%nat e) conds).
  rewrite (List.filter_ext _ (fun ne : nat * sql.env => P ne.2)).
  2:{ intros [n e]. unfold P. simpl. apply all_hold_any_row. }
  rewrite (imap_ext _ (fun n e => (0 + n, e)%nat)) by done.
  rewrite filter_numbered.
  induction (rows tab) as [|r rs IH]; [done|].
  simpl. fold (P [(t, r)]). destruct (P [(t, r)]); simpl; [f_equal|]; exact IH.
Qed.

Lemma kept_all (t : string) (tab : Table) : kept t [] tab = rows tab.
Proof. unfold kept. simpl. induction (rows tab) as [|r l IH]; [done|]. simpl. by rewrite IH. Qed.

Lemma query_select_star (db : gmap string Table) (t : string) (conds : list sql.cond)
    (tab : Table) :
  db !! t = Some tab ->
  sql.query db (select_star t conds)
  = if forallb (sql.resolves [(t, tab)]) (map sql.cond_ident conds)
    then Some (map (sql.star tab) (kept t conds tab))
    else None.
Proof.
  intros Ht. unfold select_star. rewrite query_one_table, Ht.
  unfold sql.idents. simpl. rewrite app_nil_r.
  destruct (forallb _ _); [|done]. f_equal. apply map_ext. intros r.
  unfold sql.project. simpl. by rewrite String.eqb_refl.
Qed.


Lemma query_select_columns (db : gmap string Table) (t : string) (cs : list string)
    (conds : list sql.cond) (res : list Row) :
  sql.query db (select_columns t cs conds) = Some res ->
  exists tab, db !! t = Some tab
    /\ res = map (fun r => list_to_map (map (fun c => (c, index r c)) cs)) (kept t conds tab).
Proof.
  unfold select_columns. rewrite query_one_table.
  destruct (db !! t) as [tab|]; [|done].
  destruct (forallb _ _); [|done]. intros [= <-]. exists tab. split; [done|].
  apply map_ext. intros r. unfold sql.project. simpl. f_equal. rewrite map_map.
  apply map_ext. intros c. unfold sql.cell. simpl. by rewrite String.eqb_refl.
Qed.


Section TableLoads.

Variable ext : Externals.

Lemma none_requested_empty (d : DbResource) : none_requested d ∅.
Proof. intros relation _. unfold included. by rewrite !lookup_empty. Qed.

(** X21: on a table with plain columns the two loaders of a whole table
    return what [RowsToMap] makes of its rows in storage order (all of
    them and no error when every row scans) and differ in the tag only:
    [GetAllObjects] runs the loader on its receiver and tags the rows with
    the receiver's table, [GetAllObjectsWithWhere] runs it on the resource
    of the table that is read. *)
Theorem X21_whole_table_tags (d : DbResource) (typeName : string) (m : TableInfo)
    (tab : Table) (st : State) :
  Connection st !! typeName = Some tab ->
  Cruds d !! typeName = Some m ->
  plain_columns (GetColumnMap m) ->
  GetAllObjects ext d typeName st
  = Ok (RowsToMap ext (map (sql.star tab) (rows tab)) (GetName (tableInfo d)),
        logged st [select_star typeName []])
  /\ GetAllObjectsWithWhere ext d typeName [] st
     = Ok (RowsToMap ext (map (sql.star tab) (rows tab)) (GetName m),
           logged st [select_star typeName []]).
Proof.
  intros Ht Hm Hplain. split.
  - unfold GetAllObjects.
    rewrite bind_eq, Queryx_eq, (query_select_star _ _ _ tab Ht). simpl.
    rewrite kept_all. unfold crud_model. rewrite Hm.
    rewrite bind_eq. unfold lift. rewrite bind_eq. cbn [ResultToArrayOfMap_at].
    rewrite load_rows_plain by (done || apply none_requested_empty).
    by destruct (RowsToMap ext _ _) as [read [e|]].
  - unfold GetAllObjectsWithWhere, GetAllObjectsWithWhere_with.
    rewrite bind_eq, Queryx_eq, (query_select_star _ _ _ tab Ht). simpl.
    rewrite kept_all. unfold crud. rewrite Hm. cbn [fmap option_fmap option_map mbind option_bind].
    rewrite bind_eq. cbn [ResultToArrayOfMap_at].
    rewrite load_rows_plain by (done || apply none_requested_empty).
    by destruct (RowsToMap ext _ _) as [read [e|]].
Qed.

Lemma single_row_first tx close_first d typeName c inc msg st rows m l st1 :
  sql.query (Connection st) (select_star typeName [c]) = Some rows ->
  Cruds d !! typeName = Some m ->
  ResultToArrayOfMap_at ext 1 tx d rows (GetColumnMap m) inc
    (logged st [select_star typeName [c]]) = Ok (l, st1) ->
  first_answer (single_row ext tx close_first d typeName c inc msg st) msg rows l st1.
Proof.
  intros Hq Hm Hl. unfold first_answer, single_row.
  rewrite bind_eq, Queryx_eq, Hq. unfold crud_model. rewrite Hm.
  rewrite bind_eq. unfold lift at 1. rewrite bind_eq, Hl.
  destruct l as [[resp incl] err].
  cbn [ResultToArrayOfMap_at] in Hl. apply load_rows_shape in Hl.
  destruct Hl as [(-> & Hr & Hi)|(He & _)].
  - destruct resp as [|m0 resp], incl as [|n0 incl], rows as [|r0 rows]; simpl in *; try lia.
    + exists None, [], (Some msg). split; [done|]. split; [done|]. split; [done|]. by right.
    + exists (Some m0), n0, None. done.
  - destruct err as [e|]; [|done].
    exists None, [], (Some e).
    split; [by destruct resp as [|m0 resp], incl as [|n0 incl]|].
    split; [done|]. split; [done|]. by left.
Qed.

(** X9: when the statement can be sent and the loader returns, the
    single-row loaders return: the unchecked [includeRows[0]] is in range.
    They return the first row the loader made with the first include list
    and no error, or no row, no include and an error, which is the error of
    the loader or the message that there is no such entity; the message
    is given only when the statement found no row, and then no row is
    returned. *)
Theorem X9_single_row (d : DbResource) (typeName : string) (m : TableInfo)
    (inc : gmap string bool) (st : State) :
  Cruds d !! typeName = Some m ->
  (forall referenceId rows l st1,
     let q := select_star typeName [sql.Eq (sql.I typeName "reference_id") (VStr referenceId)] in
     sql.query (Connection st) q = Some rows ->
     ResultToArrayOfMap ext d rows (GetColumnMap m) inc (logged st [q]) = Ok (l, st1) ->
     first_answer (GetSingleRowByReferenceId ext d typeName referenceId inc st)
       ("897 no such entity [" +:+ typeName +:+ "][" +:+ referenceId +:+ "]") rows l st1)
  /\ (forall id rows l st1,
        let q := select_star typeName [sql.Eq (sql.I typeName "id") (VInt id)] in
        sql.query (Connection st) q = Some rows ->
        ResultToArrayOfMap ext d rows (GetColumnMap m) inc (logged st [q]) = Ok (l, st1) ->
        first_answer (GetSingleRowById ext d typeName id inc st)
          ("923 no such entity [" +:+ typeName +:+ "][" +:+ pretty id +:+ "]") rows l st1).
Proof.
  intros Hm. split; intros; by eapply single_row_first.
Qed.


End TableLoads.

(** ** Lists of ids *)

Lemma scan_rows_aligned {A} (scan : value -> A * option error) (inj : A -> value)
    (c : string) (cs : list string) (l : list Row) :
  (forall v a, scan v = (a, None) -> v = inj a) ->
  c ∈ cs -> NoDup cs ->
  forall ret ids,
    scan_rows scan c ret
      (map (fun r : Row => list_to_map (map (fun c => (c, index r c)) cs)) l) = (ids, None) ->
    exists tail, ids = ret ++ tail /\ Forall2 (fun r a => index r c = inj a) l tail.
Proof.
  intros Hscan Hc Hnd. induction l as [|r l IH]; intros ret ids H; simpl in H.
  - injection H as <-. exists []. by rewrite app_nil_r.
  - assert (Hi : index (list_to_map (map (fun c => (c, index r c)) cs) : Row) c = index r c).
    { unfold index at 1. erewrite elem_of_list_to_map_1; [done| |].
      - by rewrite <- list_fmap_compose, list_fmap_id.
      - apply list_elem_of_fmap. by exists c. }
    rewrite Hi in H. destruct (scan (index r c)) as [a [e|]] eqn:Hs; [done|].
    apply IH in H as (tail & -> & Hall).
    exists (a :: tail). rewrite <- app_assoc. split; [done|].
    constructor; [by apply Hscan|done].
Qed.

Lemma scan_rows_failed {A} (scan : value -> A * option error) (c : string)
    (res : list Row) : forall ret ids e,
  scan_rows scan c ret res = (ids, Some e) -> ids = [].
Proof.
  induction res as [|r res IH]; intros ret ids e H; simpl in H; [done|].
  destruct (scan (index r c)) as [a [e'|]]; [by injection H as <- _|by eapply IH].
Qed.

(** X22: for one where clause [GetIdByWhereClause] and
    [GetReferenceIdByWhereClause] enumerate the same rows in the same
    order, the rows the clause keeps in storage order: without error the
    i-th id and the i-th reference id are those of the i-th such row.  With
    an error either list is nil. *)
Theorem X22_ids_and_references_aligned (typeName : string) (queries : list sql.cond)
    (st st1 st2 : State) (ids : list Z) (refs : list string) (e1 e2 : option error) :
  GetIdByWhereClause typeName queries st = Ok ((ids, e1), st1) ->
  GetReferenceIdByWhereClause typeName queries st1 = Ok ((refs, e2), st2) ->
  (e1 <> None -> ids = [])
  /\ (e2 <> None -> refs = [])
  /\ (e1 = None -> e2 = None ->
      exists tab, Connection st !! typeName = Some tab
        /\ Forall2 (fun r id => index r "id" = VInt id) (kept typeName queries tab) ids
        /\ Forall2 (fun r ref => index r "reference_id" = VStr ref)
             (kept typeName queries tab) refs).
Proof.
  unfold GetIdByWhereClause, GetReferenceIdByWhereClause. intros H1 H2.
  rewrite bind_eq, Queryx_eq in H1. rewrite bind_eq, Queryx_eq in H2.
  destruct (sql.query (Connection st) _) as [res1|] eqn:Hq1;
    destruct (sql.query (Connection st1) _) as [res2|] eqn:Hq2;
    unfold mret, M_ret in H1, H2; simplify_eq; simpl in *.
  - split; [|split].
    + intros He. destruct e1; [by eapply scan_rows_failed|done].
    + intros He. destruct e2; [by eapply scan_rows_failed|done].
    + intros -> ->.
      apply query_select_columns in Hq1 as (tab & Ht & ->).
      apply query_select_columns in Hq2 as (tab' & Ht' & ->). simplify_eq.
      exists tab. split; [done|].
      assert (Hnd : forall c : string, NoDup [c]) by (intros; apply NoDup_singleton).
      split.
      * apply (scan_rows_aligned scan_int64 VInt "id" ["id"]) in H1
          as (tail & -> & Hall); [done| |by left|done].
        intros [] a [=]; by subst.
      * apply (scan_rows_aligned scan_string VStr "reference_id" ["reference_id"]) in H2
          as (tail & -> & Hall); [done| |by left|done].
        intros [] a [=]; by subst.
  - split; [|split]; try done. intros He. destruct e1; [by eapply scan_rows_failed|done].
  - split; [|split]; try done. intros He. destruct e2; [by eapply scan_rows_failed|done].
  - done.
Qed.

Lemma projected_index (r : Row) (cs : list string) (c : string) :
  c ∈ cs -> NoDup cs ->
  index (list_to_map (map (fun c => (c, index r c)) cs) : Row) c = index r c.
Proof.
  intros Hc Hnd. unfold index at 1. erewrite elem_of_list_to_map_1; [done| |].
  - by rewrite <- list_fmap_compose, list_fmap_id.
  - apply list_elem_of_fmap. by exists c.
Qed.

Lemma kept_elem (t : string) (conds : list sql.cond) (tab : Table) (r : Row) :
  r ∈ kept t conds tab
  <-> r ∈ rows tab /\ forallb (sql.holds sql.no_literal 0%nat [(t, r)]) conds = true.
Proof. unfold kept. rewrite !list_elem_of_In. apply filter_In. Qed.

Lemma in_strings (s : string) (l : list string) :
  existsb (sql.sql_eq (VStr s)) (map VStr l) = true <-> s ∈ l.
Proof.
  induction l as [|x l IH]; simpl.
  - split; [done|]. intros H. by apply elem_of_nil in H.
  - rewrite orb_true_iff, IH, elem_of_cons, String.eqb_eq. done.
Qed.

Lemma in_ints (z : Z) (l : list Z) :
  existsb (sql.sql_eq (VInt z)) (map VInt l) = true <-> z ∈ l.
Proof.
  induction l as [|x l IH]; simpl.
  - split; [done|]. intros H. by apply elem_of_nil in H.
  - rewrite orb_true_iff, IH, elem_of_cons.
    unfold sql.sql_eq, sql.dyadic_le. simpl. rewrite Z.min_id, Z.sub_diag. simpl.
    rewrite andb_true_iff, !Z.leb_le. split; (intros [?|?]; [left; lia|by right]).
Qed.

Section IdMaps.

Context {K V : Type} `{Countable K}.

Lemma fill_map_spec {R} (F : gmap K V * option error -> R -> gmap K V * option error)
    (key : R -> K) (val : R -> V) (l : list R) :
  (forall acc r, r ∈ l -> F acc r = (<[key r := val r]> acc.1, None)) ->
  exists m, foldl F (∅, None) l = (m, None)
    /\ (forall k v, m !! k = Some v -> exists r, r ∈ l /\ key r = k /\ val r = v)
    /\ (forall r, r ∈ l -> is_Some (m !! key r)).
Proof.
  induction l as [|r l IH] using rev_ind; intros HF.
  - exists ∅. split; [done|]. split.
    + intros k v. by rewrite lookup_empty.
    + intros r Hr. by apply elem_of_nil in Hr.
  - destruct IH as (m & Hm & Hs & Hc).
    { intros acc r' Hr'. apply HF. apply elem_of_app. by left. }
    exists (<[key r := val r]> m). rewrite foldl_app, Hm. simpl.
    split; [apply HF; apply elem_of_app; right; by left|]. split.
    + intros k v Hk. destruct (decide (key r = k)) as [<-|Hne].
      * rewrite lookup_insert_eq in Hk. injection Hk as <-.
        exists r. split; [|done]. apply elem_of_app. right. by left.
      * rewrite lookup_insert_ne in Hk by done.
        destruct (Hs _ _ Hk) as (r' & Hr' & ? & ?).
        exists r'. split; [|done]. apply elem_of_app. by left.
    + intros r' Hr'. destruct (decide (key r = key r')) as [->|Hne].
      * rewrite lookup_insert_eq. by eexists.
      * rewrite lookup_insert_ne by done.
        apply elem_of_app in Hr' as [Hr'|Hr']; [by apply Hc|].
        apply list_elem_of_singleton in Hr'. by subst.
Qed.

End IdMaps.

Lemma foldl_map {A B C} (F : A -> B -> A) (g : C -> B) (l : list C) : forall a,
  foldl F a (map g l) = foldl (fun acc r => F acc (g r)) a l.
Proof. induction l as [|r l IH]; intros a; [done|]. simpl. apply IH. Qed.

Lemma query_select_columns_known (db : gmap string Table) (t : string) (cs : list string)
    (conds : list sql.cond) (tab : Table) :
  db !! t = Some tab ->
  forallb (sql.resolves [(t, tab)])
    (map (fun c => sql.I t c) cs ++ map sql.cond_ident conds) = true ->
  sql.query db (select_columns t cs conds)
  = Some (map (fun r => list_to_map (map (fun c => (c, index r c)) cs)) (kept t conds tab)).
Proof.
  intros Ht Hok. unfold select_columns. rewrite query_one_table, Ht.
  unfold sql.idents. simpl. rewrite app_nil_r, map_map. simpl.
  rewrite Hok. f_equal.
  apply map_ext. intros r. unfold sql.project. simpl. f_equal. rewrite map_map.
  apply map_ext. intros c. unfold sql.cell. simpl. by rewrite String.eqb_refl.
Qed.

(** X23: on a table whose rows carry an integer id and a text reference
    id, and for a list of keys that is not empty (what an empty IN list
    means is left to the server), the two list conversions return no error
    and a map of rows of the table: every entry pairs the reference id and
    the id of one row whose key was asked for, and every key asked for that
    has a row has an entry. *)
Theorem X23_id_maps (typeName : string) (tab : Table) (st : State)
    (referenceId : list string) (ids : list Z) :
  Connection st !! typeName = Some tab ->
  keyed tab ->
  "id" ∈ columns tab -> "reference_id" ∈ columns tab ->
  referenceId <> [] -> ids <> [] ->
  (exists m st1,
     GetReferenceIdListToIdList typeName referenceId st = Ok ((m, None), st1)
     /\ (forall ref id, m !! ref = Some id ->
           ref ∈ referenceId
           /\ exists r, r ∈ rows tab /\ index r "reference_id" = VStr ref
                        /\ index r "id" = VInt id)
     /\ (forall r ref, r ∈ rows tab -> index r "reference_id" = VStr ref ->
           ref ∈ referenceId -> is_Some (m !! ref)))
  /\ (exists m st1,
        GetIdListToReferenceIdList typeName ids st = Ok ((m, None), st1)
        /\ (forall id ref, m !! id = Some ref ->
              id ∈ ids
              /\ exists r, r ∈ rows tab /\ index r "id" = VInt id
                           /\ index r "reference_id" = VStr ref)
        /\ (forall r id, r ∈ rows tab -> index r "id" = VInt id ->
              id ∈ ids -> is_Some (m !! id))).
Proof.
  intros Ht Hkeyed Hid Href _ _.
  assert (Hnd : NoDup ["id"; "reference_id"])
    by (apply NoDup_ListNoDup; repeat constructor; simpl; intuition discriminate).
  assert (Hnd' : NoDup ["reference_id"; "id"])
    by (apply NoDup_ListNoDup; repeat constructor; simpl; intuition discriminate).
  assert (Hok : forall c, c = "id" \/ c = "reference_id" ->
            sql.resolves [(typeName, tab)] (sql.I typeName c) = true).
  { intros c Hc. unfold sql.resolves. simpl. rewrite String.eqb_refl.
    apply bool_decide_eq_true_2. by destruct Hc as [->| ->]. }
  split.
  - unfold GetReferenceIdListToIdList.
    set (conds := [sql.In (sql.I typeName "reference_id") (map VStr referenceId)]).
    rewrite bind_eq, Queryx_eq, (query_select_columns_known _ _ _ _ tab Ht).
    2:{ simpl. rewrite !Hok by auto. done. }
    unfold fill_id_map. rewrite foldl_map.
    match goal with
    | |- context [foldl ?F _ (kept _ _ _)] =>
        destruct (fill_map_spec F
          (fun r : Row => (scan_string (index r "reference_id")).1)
          (fun r : Row => (scan_int64 (index r "id")).1)
          (kept typeName conds tab)) as (m & Hm & Hs & Hc)
    end.
    { intros acc r Hr. apply kept_elem in Hr as [Hr _].
      destruct (Hkeyed r Hr) as (id & ref & Hi & Hf).
      rewrite !projected_index by (done || set_solver).
      by rewrite Hi, Hf. }
    exists m. eexists. split; [by rewrite Hm|]. split.
    + intros ref id Hl. destruct (Hs _ _ Hl) as (r & Hr & Hk & Hv).
      apply kept_elem in Hr as [Hr Hh].
      destruct (Hkeyed r Hr) as (id' & ref' & Hi & Hf).
      rewrite Hf in Hk. rewrite Hi in Hv. simpl in Hk, Hv. subst.
      simpl in Hh. unfold sql.cell in Hh. simpl in Hh. rewrite String.eqb_refl in Hh.
      rewrite Hf, andb_true_r in Hh. apply in_strings in Hh.
      split; [done|]. by exists r.
    + intros r ref Hr Hf Hin.
      assert (Hk : r ∈ kept typeName conds tab).
      { apply kept_elem. split; [done|]. simpl. unfold sql.cell. simpl.
        rewrite String.eqb_refl, Hf, andb_true_r. by apply in_strings. }
      apply Hc in Hk. by rewrite Hf in Hk.
  - unfold GetIdListToReferenceIdList.
    set (conds := [sql.In (sql.I typeName "id") (map VInt ids)]).
    rewrite bind_eq, Queryx_eq, (query_select_columns_known _ _ _ _ tab Ht).
    2:{ simpl. rewrite !Hok by auto. done. }
    unfold fill_reference_map. rewrite foldl_map.
    match goal with
    | |- context [foldl ?F _ (kept _ _ _)] =>
        destruct (fill_map_spec F
          (fun r : Row => (scan_int64 (index r "id")).1)
          (fun r : Row => (scan_string (index r "reference_id")).1)
          (kept typeName conds tab)) as (m & Hm & Hs & Hc)
    end.
    { intros acc r Hr. apply kept_elem in Hr as [Hr _].
      destruct (Hkeyed r Hr) as (id & ref & Hi & Hf).
      rewrite !projected_index by (done || set_solver).
      by rewrite Hi, Hf. }
    exists m. eexists. split; [by rewrite Hm|]. split.
    + intros id ref Hl. destruct (Hs _ _ Hl) as (r & Hr & Hk & Hv).
      apply kept_elem in Hr as [Hr Hh].
      destruct (Hkeyed r Hr) as (id' & ref' & Hi & Hf).
      rewrite Hi in Hk. rewrite Hf in Hv. simpl in Hk, Hv. subst.
      simpl in Hh. unfold sql.cell in Hh. simpl in Hh. rewrite String.eqb_refl in Hh.
      rewrite Hi, andb_true_r in Hh. apply in_ints in Hh.
      split; [done|]. by exists r.
    + intros r id Hr Hi Hin.
      assert (Hk : r ∈ kept typeName conds tab).
      { apply kept_elem. split; [done|]. simpl. unfold sql.cell. simpl.
        rewrite String.eqb_refl, Hi, andb_true_r. by apply in_ints. }
      apply Hc in Hk. by rewrite Hi in Hk.
Qed.

(** ** Truncating *)

Lemma Exec_delete_Ok (t : string) (st : State) :
  exists e st', Exec_delete t st = Ok (e, st')
    /\ (e = None <-> is_Some (Connection st !! t))
    /\ (forall t', Connection st' !! t'
                   = if bool_decide (t' = t) then without_rows <$> Connection st !! t'
                     else Connection st !! t')
    /\ OlricCache st' = OlricCache st /\ Queried st' = Queried st.
Proof.
  unfold Exec_delete, exec_delete. unfold_M.
  destruct (Connection st !! t) as [tab|] eqn:Ht.
  - eexists _, _. split; [done|]. simpl. split; [by split|]. split; [|done].
    intros t'. case_bool_decide as Heq.
    + subst. by rewrite lookup_insert_eq, Ht.
    + by rewrite lookup_insert_ne.
  - eexists _, _. split; [done|]. split.
    + split; [done|]. by intros [? ?].
    + split; [|done]. intros t'. case_bool_decide as Heq; [|done]. subst. by rewrite Ht.
Qed.

Lemma truncate_related_Ok (tableName : string) (rels : list TableRelation) : forall st,
  exists st', truncate_related tableName rels st = Ok (tt, st')
    /\ (forall t, Connection st' !! t
                  = if bool_decide (t ∈ omap (truncated_for tableName) rels)
                    then without_rows <$> Connection st !! t
                    else Connection st !! t)
    /\ OlricCache st' = OlricCache st /\ Queried st' = Queried st.
Proof.
  induction rels as [|rel rels IH]; intros st.
  - exists st. split; [done|]. split; [|done]. intros t. by simpl.
  - cbn [truncate_related omap list_omap]. rewrite bind_eq.
    destruct (truncated_for tableName rel) as [t0|].
    + destruct (Exec_delete_Ok t0 st) as (e & st1 & -> & _ & Hdb1 & Hc1 & Hq1).
      destruct (IH st1) as (st' & -> & Hdb & Hc & Hq).
      exists st'. split; [done|]. split; [|split; congruence].
      intros t. rewrite Hdb, !Hdb1.
      destruct (decide (t = t0)) as [->|Hne].
      * rewrite (bool_decide_eq_true_2 (t0 = t0)) by done.
        rewrite (bool_decide_eq_true_2 (t0 ∈ t0 :: _)) by left.
        case_bool_decide; [|done]. by destruct (Connection st !! t0).
      * rewrite (bool_decide_eq_false_2 (t = t0)) by done.
        assert (Hext : bool_decide (t ∈ omap (truncated_for tableName) rels)
                       = bool_decide (t ∈ t0 :: omap (truncated_for tableName) rels)).
        { apply bool_decide_ext. rewrite elem_of_cons. split; [by right|intros [?|?]; done]. }
        by rewrite <- Hext.
    + unfold mret at 1, M_ret at 1. apply IH.
Qed.

(** X24: [TruncateTable] always returns.  It empties the named table and,
    unless the relations are skipped, the join tables of the receiver's
    to-many relations and the object table of each [belongs_to] or
    [has_one] relation whose subject is another table; every other table,
    the columns of all tables, the cache and the record of statements are
    left as they were.  The error is nil exactly when the named table
    exists: a failure on a related table is not reported. *)
Theorem X24_truncate_table (d : DbResource) (typeName : string) (skipRelations : bool)
    (st : State) :
  exists e st',
    TruncateTable d typeName skipRelations st = Ok (e, st')
    /\ (e = None <-> is_Some (Connection st !! typeName))
    /\ (forall t, Connection st' !! t
                  = if bool_decide (t ∈ truncated d typeName skipRelations)
                    then without_rows <$> Connection st !! t
                    else Connection st !! t)
    /\ OlricCache st' = OlricCache st /\ Queried st' = Queried st.
Proof.
  unfold TruncateTable, truncated. rewrite bind_eq.
  set (l := if skipRelations then []
            else omap (truncated_for (TableName (tableInfo d))) (Relations (tableInfo d))).
  assert (Hrel : exists st1,
    (if skipRelations then mret tt
     else truncate_related (TableName (tableInfo d)) (Relations (tableInfo d))) st
    = Ok (tt, st1)
    /\ (forall t, Connection st1 !! t
                  = if bool_decide (t ∈ l) then without_rows <$> Connection st !! t
                    else Connection st !! t)
    /\ OlricCache st1 = OlricCache st /\ Queried st1 = Queried st).
  { unfold l. destruct skipRelations; [|apply truncate_related_Ok].
    exists st. split; [done|]. split; [|done]. intros t.
    rewrite bool_decide_eq_false_2; [done|]. intros H. by apply elem_of_nil in H. }
  destruct Hrel as (st1 & -> & Hdb1 & Hc1 & Hq1).
  destruct (Exec_delete_Ok typeName st1) as (e & st' & -> & He & Hdb & Hc & Hq).
  exists e, st'. split; [done|]. split; [|split; [|split; congruence]].
  - rewrite He, Hdb1. case_bool_decide; [|done].
    split; intros [x Hx].
    + destruct (Connection st !! typeName); [by eexists|done].
    + rewrite Hx. by eexists.
  - intros t. rewrite Hdb, !Hdb1.
    destruct (decide (t = typeName)) as [->|Hne].
    + rewrite (bool_decide_eq_true_2 (typeName = typeName)) by done.
      rewrite (bool_decide_eq_true_2 (typeName ∈ typeName :: _)) by left.
      case_bool_decide; [|done]. by destruct (Connection st !! typeName).
    + rewrite (bool_decide_eq_false_2 (t = typeName)) by done.
      assert (Hext : bool_decide (t ∈ l) = bool_decide (t ∈ typeName :: l)).
      { apply bool_decide_ext. rewrite elem_of_cons. split; [by right|intros [?|?]; done]. }
      by rewrite <- Hext.
Qed.

(** ** Instances *)

Lemma X21_whole_table_tags_witness :
  GetAllObjects example_externals example_author_resource "post" example_library
  = Ok (RowsToMap example_externals
          (map (sql.star example_authored_posts) (rows example_authored_posts)) "author",
        logged example_library [select_star "post" []])
  /\ GetAllObjectsWithWhere example_externals example_author_resource "post" [] example_library
     = Ok (RowsToMap example_externals
             (map (sql.star example_authored_posts) (rows example_authored_posts)) "post",
           logged example_library [select_star "post" []]).
Proof.
  apply (X21_whole_table_tags example_externals example_author_resource "post"
           example_post_info example_authored_posts example_library).
  - computes.
  - computes.
  - exact example_post_plain.
Defined.

Lemma X9_single_row_witness :
  first_answer
    (GetSingleRowByReferenceId example_externals example_post_resource "post" "r-2" ∅
       example_state)
    ("897 no such entity [" +:+ "post" +:+ "][" +:+ "r-2" +:+ "]")
    [example_second_post] ([example_second_post_loaded], [[]], None)
    (logged example_state
       [select_star "post" [sql.Eq (sql.I "post" "reference_id") (VStr "r-2")]])
  /\ first_answer
       (GetSingleRowById example_externals example_post_resource "post" 7 ∅ example_state)
       ("923 no such entity [" +:+ "post" +:+ "][" +:+ pretty 7 +:+ "]")
       [] ([], [], None)
       (logged example_state [select_star "post" [sql.Eq (sql.I "post" "id") (VInt 7)]]).
Proof.
  destruct (X9_single_row example_externals example_post_resource "post" example_post_info
              ∅ example_state) as [H1 H2]; [computes|].
  split.
  - apply (H1 "r-2" [example_second_post] ([example_second_post_loaded], [[]], None)
             (logged example_state
                [select_star "post" [sql.Eq (sql.I "post" "reference_id") (VStr "r-2")]]));
      computes.
  - apply (H2 7 [] ([], [], None)
             (logged example_state [select_star "post" [sql.Eq (sql.I "post" "id") (VInt 7)]]));
      computes.
Defined.


Lemma X22_ids_and_references_aligned_witness :
  ((None : option error) <> None -> [1; 2] = ([] : list Z))
  /\ ((None : option error) <> None -> ["r-1"; "r-2"] = ([] : list string))
  /\ ((None : option error) = None -> (None : option error) = None ->
      exists tab, Connection example_state !! "post" = Some tab
        /\ Forall2 (fun r id => index r "id" = VInt id) (kept "post" [] tab) [1; 2]
        /\ Forall2 (fun r ref => index r "reference_id" = VStr ref)
             (kept "post" [] tab) ["r-1"; "r-2"]).
Proof.
  apply (X22_ids_and_references_aligned "post" [] example_state
           (logged example_state [select_columns "post" ["id"] []])
           (logged (logged example_state [select_columns "post" ["id"] []])
              [select_columns "post" ["reference_id"] []])
           [1; 2] ["r-1"; "r-2"] None None); computes.
Defined.

Lemma example_posts_keyed : keyed example_posts.
Proof.
  intros r Hr. simpl in Hr.
  apply elem_of_cons in Hr as [->|Hr]; [by exists 1, "r-1"|].
  apply elem_of_cons in Hr as [->|Hr]; [by exists 2, "r-2"|].
  by apply elem_of_nil in Hr.
Qed.

Lemma X23_id_maps_witness :
  (exists m st1,
     GetReferenceIdListToIdList "post" ["r-2"; "r-9"] example_state = Ok ((m, None), st1)
     /\ (forall ref id, m !! ref = Some id ->
           ref ∈ ["r-2"; "r-9"]
           /\ exists r, r ∈ rows example_posts /\ index r "reference_id" = VStr ref
                        /\ index r "id" = VInt id)
     /\ (forall r ref, r ∈ rows example_posts -> index r "reference_id" = VStr ref ->
           ref ∈ ["r-2"; "r-9"] -> is_Some (m !! ref)))
  /\ (exists m st1,
        GetIdListToReferenceIdList "post" [1] example_state = Ok ((m, None), st1)
        /\ (forall id ref, m !! id = Some ref ->
              id ∈ [1]
              /\ exists r, r ∈ rows example_posts /\ index r "id" = VInt id
                           /\ index r "reference_id" = VStr ref)
        /\ (forall r id, r ∈ rows example_posts -> index r "id" = VInt id ->
              id ∈ [1] -> is_Some (m !! id))).
Proof.
  apply (X23_id_maps "post" example_posts example_state ["r-2"; "r-9"] [1]).
  - computes.
  - exact example_posts_keyed.
  - by left.
  - right. by left.
  - discriminate.
  - discriminate.
Defined.
